(** * league-matrix-app: the validate -> transform pipeline

    A shallow embedding of the Go packages [pkg/errors], [internal/repository]
    and [internal/domain], together with the parts of the Go standard library
    they call ([unicode/utf8], [fmt] scanning, [strconv], [strings],
    [errors.Is]), followed by the properties of the pipeline. *)

From Stdlib Require Import ZArith String Ascii List Bool Lia DecimalString.
From Stdlib Require DecimalPos.
From stdpp Require Import base option list strings gmap.

Local Open Scope string_scope.
Local Open Scope list_scope.
Local Open Scope Z_scope.

(** ** Go values *)

(** A Go [string] is a byte sequence: Rocq's [string] of [ascii] bytes.
    [int64] and [rune] values are integers in [Z]. *)
Definition byte (c : ascii) : Z := Z.of_N (N_of_ascii c).

Definition minInt64 : Z := - 2 ^ 63.
Definition maxInt64 : Z := 2 ^ 63 - 1.
Definition maxUint64 : Z := 2 ^ 64 - 1.

(** The outcome of a Go call that returns [(value, error)]: [Ok v] is
    [(v, nil)], [Err e] is [(zero value, e)], and [Panic] is a run-time
    panic (index out of range). *)
Inductive result (E A : Type) : Type :=
| Ok (a : A)
| Err (e : E)
| Panic.
Arguments Ok {E A} a.
Arguments Err {E A} e.
Arguments Panic {E A}.

(** Sequencing stops at the first error or panic; written [x ← r; k]. *)
#[export] Instance result_bind {E} : MBind (result E) := fun A B k r =>
  match r with
  | Ok a => k a
  | Err e => Err e
  | Panic => Panic
  end.

(** ** unicode/utf8 *)
Module utf8.

Definition RuneError : Z := 0xFFFD.
Definition locb : Z := 0x80.
Definition hicb : Z := 0xBF.

(** The information byte of the table [first]: [0xF0] for ASCII, [0xF1] for
    an invalid first byte, otherwise size in the low bits and the index of
    the accept range in the high bits. *)
Definition first (b : Z) : Z :=
  if b <? 0x80 then 0xF0
  else if b <? 0xC2 then 0xF1
  else if b <? 0xE0 then 0x02
  else if b =? 0xE0 then 0x13
  else if b <? 0xED then 0x03
  else if b =? 0xED then 0x23
  else if b <? 0xF0 then 0x03
  else if b =? 0xF0 then 0x34
  else if b <? 0xF4 then 0x04
  else if b =? 0xF4 then 0x44
  else 0xF1.

Definition acceptRanges (i : Z) : Z * Z :=
  if i =? 0 then (locb, hicb)
  else if i =? 1 then (0xA0, hicb)
  else if i =? 2 then (locb, 0x9F)
  else if i =? 3 then (0x90, hicb)
  else if i =? 4 then (locb, 0x8F)
  else (0, 0).

Definition at_ (s : string) (i : nat) : Z :=
  match String.get i s with
  | Some c => byte c
  | None => 0
  end.

(** [utf8.DecodeRuneInString]: the first rune of [s] and its width in bytes. *)
Definition DecodeRuneInString (s : string) : Z * nat :=
  let n := String.length s in
  if (n <? 1)%nat then (RuneError, 0%nat)
  else
    let s0 := at_ s 0 in
    let x := first s0 in
    if 0xF0 <=? x then
      (if x =? 0xF0 then s0 else RuneError, 1%nat)
    else
      let sz := Z.to_nat (Z.land x 7) in
      let '(lo, hi) := acceptRanges (Z.shiftr x 4) in
      if (n <? sz)%nat then (RuneError, 1%nat)
      else
        let s1 := at_ s 1 in
        if (s1 <? lo) || (hi <? s1) then (RuneError, 1%nat)
        else if (sz <=? 2)%nat then
          (Z.lor (Z.shiftl (Z.land s0 0x1F) 6) (Z.land s1 0x3F), 2%nat)
        else
          let s2 := at_ s 2 in
          if (s2 <? locb) || (hicb <? s2) then (RuneError, 1%nat)
          else if (sz <=? 3)%nat then
            (Z.lor (Z.lor (Z.shiftl (Z.land s0 0x0F) 12)
                          (Z.shiftl (Z.land s1 0x3F) 6))
                   (Z.land s2 0x3F), 3%nat)
          else
            let s3 := at_ s 3 in
            if (s3 <? locb) || (hicb <? s3) then (RuneError, 1%nat)
            else
              (Z.lor (Z.lor (Z.lor (Z.shiftl (Z.land s0 0x07) 18)
                                   (Z.shiftl (Z.land s1 0x3F) 12))
                            (Z.shiftl (Z.land s2 0x3F) 6))
                     (Z.land s3 0x3F), 4%nat).

(** The runes a reader yields from [s] by repeated decoding; [skip] counts
    the bytes of the current rune still to be passed over. *)
Fixpoint runes_from (skip : nat) (s : string) : list Z :=
  match s with
  | EmptyString => []
  | String _ s' =>
      match skip with
      | S k => runes_from k s'
      | O => let '(r, size) := DecodeRuneInString s in
             r :: runes_from (size - 1) s'
      end
  end.

Definition runes (s : string) : list Z := runes_from 0 s.

End utf8.

(** ** strconv *)
Module strconv.

Inductive Err_ : Type := ErrSyntax | ErrRange.

Definition lower (c : Z) : Z := Z.lor c 0x20.

(** The digit loop of [ParseUint(s, 10, 64)], over the bytes of [s]; [n] is
    the [uint64] accumulator, whose additions wrap modulo [2^64]. *)
Fixpoint ParseUint_loop (cs : list Z) (n : Z) : result Err_ Z :=
  match cs with
  | [] => Ok n
  | c :: cs' =>
      let d := if (48 <=? c) && (c <=? 57) then Some (c - 48)
               else if (97 <=? lower c) && (lower c <=? 122)
                    then Some (lower c - 97 + 10)
                    else None in
      match d with
      | None => Err ErrSyntax
      | Some d =>
          if 10 <=? d then Err ErrSyntax
          else if maxUint64 / 10 + 1 <=? n then Err ErrRange
          else
            let n := n * 10 in
            let n1 := (n + d) mod 2 ^ 64 in
            if (n1 <? n) || (maxUint64 <? n1) then Err ErrRange
            else ParseUint_loop cs' n1
      end
  end.

Definition ParseUint (cs : list Z) : result Err_ Z :=
  match cs with
  | [] => Err ErrSyntax
  | _ => ParseUint_loop cs 0
  end.

(** [ParseInt(s, 10, 64)]. *)
Definition ParseInt (cs : list Z) : result Err_ Z :=
  match cs with
  | [] => Err ErrSyntax
  | c :: rest =>
      let '(neg, s) := if c =? 43 then (false, rest)
                       else if c =? 45 then (true, rest)
                       else (false, cs) in
      un ← ParseUint s;
      let cutoff := 2 ^ 63 in
      if negb neg && (cutoff <=? un) then Err ErrRange
      else if neg && (cutoff <? un) then Err ErrRange
      else Ok (if neg then - un else un)
  end.

(** Decimal rendering of an integer: [fmt.Sprintf("%d", v)] on an [int64]
    and [big.Int.String]. *)
Definition FormatInt (z : Z) : string := NilZero.string_of_int (Z.to_int z).

End strconv.

(** ** fmt: scanning one [%d] *)
Module fmt.

(** The errors a [%d] scan ends with: the input ran out before a number
    was read, a line break stood before the number, the token has no digit,
    or [strconv.ParseInt] refused the token [tok]. *)
Inductive scan_error : Type :=
| EOF
| UnexpectedNewline
| ExpectedInteger
| NumError (tok : list Z) (e : strconv.Err_).

(** The table [space] of white-space ranges. *)
Definition space : list (Z * Z) :=
  [(0x0009, 0x000d); (0x0020, 0x0020); (0x0085, 0x0085); (0x00a0, 0x00a0);
   (0x1680, 0x1680); (0x2000, 0x200a); (0x2028, 0x2029); (0x202f, 0x202f);
   (0x205f, 0x205f); (0x3000, 0x3000)].

Fixpoint isSpace_in (tbl : list (Z * Z)) (rx : Z) : bool :=
  match tbl with
  | [] => false
  | (lo, hi) :: tbl' =>
      if rx <? lo then false
      else if rx <=? hi then true
      else isSpace_in tbl' rx
  end.

Definition isSpace (r : Z) : bool :=
  if 2 ^ 16 <=? r then false else isSpace_in space r.

Definition indexRune (ok : list Z) (r : Z) : bool :=
  existsb (Z.eqb r) ok.

(** [ss.peek]: is the next rune one of [ok]? *)
Definition peek (ok : list Z) (rs : list Z) : bool :=
  match rs with
  | [] => false
  | r :: _ => indexRune ok r
  end.

(** [ss.SkipSpace] with [nlIsSpace = false], as [Sscanf] sets it: the
    runes left to read, or the error raised at a line break. *)
Fixpoint SkipSpace (rs : list Z) : result scan_error (list Z) :=
  match rs with
  | [] => Ok []
  | r :: rest =>
      if (r =? 13) && peek [10] rest then SkipSpace rest
      else if r =? 10 then Err UnexpectedNewline
      else if negb (isSpace r) then Ok rs
      else SkipSpace rest
  end.

(** [ss.notEOF]. *)
Definition notEOF (rs : list Z) : result scan_error unit :=
  match rs with
  | [] => Err EOF
  | _ => Ok tt
  end.

(** [ss.accept]: reads one rune; when it is in [ok] it is appended to the
    token buffer, otherwise it is put back. *)
Definition accept (ok : list Z) (buf rs : list Z) : bool * list Z * list Z :=
  match rs with
  | [] => (false, buf, rs)
  | r :: rest =>
      if indexRune ok r then (true, buf ++ [r], rest) else (false, buf, rs)
  end.

Definition sign : list Z := [43; 45].
Definition decimalDigits : list Z := [48; 49; 50; 51; 52; 53; 54; 55; 56; 57].

(** The loop [for s.accept(digits) {}] of [scanNumber]. *)
Fixpoint accept_all (ok : list Z) (buf rs : list Z) : list Z * list Z :=
  match rs with
  | [] => (buf, rs)
  | r :: rest =>
      if indexRune ok r then accept_all ok (buf ++ [r]) rest else (buf, rs)
  end.

(** [ss.scanNumber(digits, false)]. *)
Definition scanNumber (digits : list Z) (buf rs : list Z)
  : result scan_error (list Z * list Z) :=
  _ ← notEOF rs;
  let '(okd, buf, rs) := accept digits buf rs in
  if negb okd then Err ExpectedInteger
  else Ok (accept_all digits buf rs).

(** [ss.scanInt('d', 64)]. *)
Definition scanInt (rs : list Z) : result scan_error (Z * list Z) :=
  rs ← SkipSpace rs;
  _ ← notEOF rs;
  let '(_, buf, rs) := accept sign [] rs in
  '(tok, rs) ← scanNumber decimalDigits buf rs;
  match strconv.ParseInt tok with
  | Ok i => Ok (i, rs)
  | Err e => Err (NumError tok e)
  | Panic => Panic
  end.

(** [fmt.Sscanf(str, "%d", &num)]: the value stored in [num], or the error.
    The format has a single verb; input left after the number is not
    looked at. *)
Definition Sscanf_d (str : string) : result scan_error Z :=
  rs ← SkipSpace (utf8.runes str);
  '(i, _) ← scanInt rs;
  Ok i.

End fmt.

(** ** strings *)
Module Strings.

Definition HasPrefix (s prefix : string) : bool :=
  (String.length prefix <=? String.length s)%nat
  && String.eqb (substring 0 (String.length prefix) s) prefix.

Definition HasSuffix (s suffix : string) : bool :=
  (String.length suffix <=? String.length s)%nat
  && String.eqb (substring (String.length s - String.length suffix)
                           (String.length suffix) s) suffix.

(** [strings.Index]: the first position at which [substr] occurs in [s],
    or [-1]. *)
Fixpoint Index_from (i : Z) (s substr : string) : Z :=
  if HasPrefix s substr then i
  else match s with
       | EmptyString => -1
       | String _ s' => Index_from (i + 1) s' substr
       end.

Definition Index (s substr : string) : Z := Index_from 0 s substr.

Definition Contains (s substr : string) : bool := 0 <=? Index s substr.

End Strings.

(** ** errors, context *)

(** Package-level error variables, compared by identity: the four sentinels
    of [pkg/errors] and the two of [context]. *)
Inductive errvar : Type :=
| ErrInvalidInput
| ErrNotFound
| ErrPayloadTooLarge
| ErrUnprocessableEntity
| ctxCanceled
| ctxDeadlineExceeded.

#[export] Instance errvar_eq_dec : EqDecision errvar.
Proof. solve_decision. Defined.

(** Operands of a format other than the one bound to [%w]. *)
Inductive operand : Type :=
| OpInt (z : Z)
| OpString (s : string)
| OpScanErr (e : fmt.scan_error)
| OpCause (msg : string).

(** An [error] value: one of the package-level variables, any other leaf
    error with message [msg], or [fmt.Errorf(format, w, operands...)] where
    [format] starts with [%w], which [Unwrap]s to [w]. *)
Inductive error : Type :=
| Var (v : errvar)
| Opaque (msg : string)
| Errorf (format : string) (w : error) (operands : list operand).

Module errors.

(** [errors.Is(err, target)] for a package-level [target]: walks the
    [Unwrap] chain of [err]. *)
Fixpoint Is (err : error) (target : errvar) : bool :=
  match err with
  | Var v => bool_decide (v = target)
  | Opaque _ => false
  | Errorf _ w _ => Is w target
  end.

End errors.

Module apperrors.

(** [GetHTTPStatusCode]; [None] is the [nil] error. *)
Definition GetHTTPStatusCode (err : option error) : Z :=
  match err with
  | None => 200
  | Some err =>
      if errors.Is err ErrInvalidInput then 400
      else if errors.Is err ErrNotFound then 404
      else if errors.Is err ErrPayloadTooLarge then 413
      else if errors.Is err ErrUnprocessableEntity then 422
      else 500
  end.

End apperrors.

(** A [context.Context], as far as the pipeline looks at it: the value of
    [ctx.Err()] while the call runs ([None] is [nil]). *)
Record Context : Type := { ctx_Err : option error }.

Definition Background : Context := {| ctx_Err := None |}.

(** ** internal/entity, internal/repository *)

Record Matrix : Type := { Data : list (list Z) }.

Record MatrixFileContent : Type := { Content : list (list string) }.

Module repository.

Definition maxFileSizeBytes : Z := 1024.

(** What [GetFileContent] asks of the operating system and of
    [encoding/csv]; a failure carries its message. *)
Record OS (File : Type) : Type := {
  os_Open : string -> result string File;
  file_Stat_Size : File -> result string Z;
  csv_ReadAll : File -> result string (list (list string))
}.
Arguments os_Open {File}.
Arguments file_Stat_Size {File}.
Arguments csv_ReadAll {File}.

Definition GetFileContent {File} (os : OS File) (ctx : Context) (filePath : string)
  : result error (option MatrixFileContent) :=
  match ctx_Err ctx with
  | Some err => Err err
  | None =>
      match os_Open os filePath with
      | Panic => Panic
      | Err msg =>
          Err (Errorf "%w: failed to open file: %v" (Var ErrNotFound) [OpCause msg])
      | Ok file =>
          match file_Stat_Size os file with
          | Panic => Panic
          | Err msg =>
              Err (Errorf "%w: failed to get file info: %v" (Var ErrNotFound) [OpCause msg])
          | Ok size =>
              if maxFileSizeBytes <? size then
                Err (Errorf "%w: file too large: %d bytes (maximum: %d bytes)"
                            (Var ErrPayloadTooLarge) [OpInt size; OpInt maxFileSizeBytes])
              else
                match csv_ReadAll os file with
                | Panic => Panic
                | Err msg =>
                    Err (Errorf "%w: failed to read CSV file: %v"
                                (Var ErrUnprocessableEntity) [OpCause msg])
                | Ok records => Ok (Some {| Content := records |})
                end
          end
      end
  end.

End repository.

(** ** internal/domain *)
Module domain.

Definition maxInputMatrixRows : nat := 10.
Definition maxInputMatrixCols : nat := 10.

(** *** matrix_validator.go *)

Definition ValidateFilePath (ctx : Context) (filePath : string) : option error :=
  match ctx_Err ctx with
  | Some err => Some err
  | None =>
      if String.eqb filePath "" then
        Some (Errorf "%w: file parameter is required" (Var ErrInvalidInput) [])
      else if Strings.Contains filePath ".." then
        Some (Errorf "%w: path traversal not allowed" (Var ErrInvalidInput) [])
      else if negb (Strings.HasPrefix filePath "testdata/") then
        Some (Errorf "%w: only files in testdata/ are allowed" (Var ErrInvalidInput) [])
      else if negb (Strings.HasSuffix filePath ".csv") then
        Some (Errorf "%w: only .csv files are supported" (Var ErrInvalidInput) [])
      else None
  end.

(** [l[i] = x]: panics when [i] is out of range. *)
Definition set_at {A} (l : list A) (i : nat) (x : A) : result error (list A) :=
  if (i <? length l)%nat then Ok (<[i := x]> l) else Panic.

(** [l[i]]: panics when [i] is out of range. *)
Definition get_at {A} (l : list A) (i : nat) : result error A :=
  match l !! i with
  | Some x => Ok x
  | None => Panic
  end.

(** The loop checking every row against [cols], from row [i] on. *)
Fixpoint check_rows (cols i : nat) (content : list (list string)) : option error :=
  match content with
  | [] => None
  | row :: rest =>
      if negb (length row =? cols)%nat then
        Some (Errorf "%w: inconsistent row length at row %d: expected %d columns, got %d"
                     (Var ErrUnprocessableEntity)
                     [OpInt (Z.of_nat i); OpInt (Z.of_nat cols); OpInt (Z.of_nat (length row))])
      else check_rows cols (S i) rest
  end.

(** The inner loop [for j, val := range row], from column [j] on: scans
    [val] and stores it in [data[i][j]]. *)
Fixpoint convert_row (i j : nat) (row : list string) (data : list (list Z))
  : result error (list (list Z)) :=
  match row with
  | [] => Ok data
  | val :: rest =>
      match fmt.Sscanf_d val with
      | Err err =>
          Err (Errorf "%w: invalid integer value at row %d, column %d: %v"
                      (Var ErrUnprocessableEntity)
                      [OpInt (Z.of_nat i); OpInt (Z.of_nat j); OpScanErr err])
      | Panic => Panic
      | Ok num =>
          r ← get_at data i;
          r ← set_at r j num;
          data ← set_at data i r;
          convert_row i (S j) rest data
      end
  end.

(** The outer loop [for i, row := range rawData.Content], from row [i] on. *)
Fixpoint convert_rows (cols i : nat) (content : list (list string))
  (data : list (list Z)) : result error (list (list Z)) :=
  match content with
  | [] => Ok data
  | row :: rest =>
      data ← set_at data i (replicate cols 0);
      data ← convert_row i 0 row data;
      convert_rows cols (S i) rest data
  end.

Definition Validate (ctx : Context) (rawData : option MatrixFileContent)
  : result error Matrix :=
  match ctx_Err ctx with
  | Some err => Err err
  | None =>
      match rawData with
      | None => Err (Errorf "%w: empty matrix data" (Var ErrUnprocessableEntity) [])
      | Some rawData =>
          match Content rawData with
          | [] => Err (Errorf "%w: empty matrix data" (Var ErrUnprocessableEntity) [])
          | row0 :: _ =>
              let rows := length (Content rawData) in
              let cols := length row0 in
              if (maxInputMatrixRows <? rows)%nat then
                Err (Errorf "%w: matrix exceeds maximum row limit: got %d rows, maximum is %d"
                            (Var ErrUnprocessableEntity)
                            [OpInt (Z.of_nat rows); OpInt (Z.of_nat maxInputMatrixRows)])
              else if (maxInputMatrixCols <? cols)%nat then
                Err (Errorf "%w: matrix exceeds maximum column limit: got %d columns, maximum is %d"
                            (Var ErrUnprocessableEntity)
                            [OpInt (Z.of_nat cols); OpInt (Z.of_nat maxInputMatrixCols)])
              else
                match check_rows cols 0 (Content rawData) with
                | Some err => Err err
                | None =>
                    data ← convert_rows cols 0 (Content rawData) (replicate rows []);
                    Ok {| Data := data |}
                end
          end
      end
  end.

(** *** matrix_operations.go *)

Definition SumOperation : string := "sum".
Definition MultiplyOperation : string := "multiply".
Definition EchoOperation : string := "echo".
Definition InvertOperation : string := "invert".
Definition FlattenOperation : string := "flatten".

Definition matrixOperations : gmap string bool :=
  <[SumOperation := true]> (<[MultiplyOperation := true]> (<[EchoOperation := true]>
    (<[InvertOperation := true]> (<[FlattenOperation := true]> ∅)))).

(** A missing key reads as [false]. *)
Definition IsValidOperation (ctx : Context) (operation : string) : option error :=
  match ctx_Err ctx with
  | Some err => Some err
  | None =>
      if negb (default false (matrixOperations !! operation)) then
        Some (Errorf "%w: invalid operation: %s" (Var ErrInvalidInput) [OpString operation])
      else None
  end.

Definition LF : string := String (ascii_of_nat 10) "".

(** The guard [matrix == nil || len(matrix.Data) == 0] that opens every
    operation. *)
Definition guarded (matrix : option Matrix)
  (body : list (list Z) -> result error string) : result error string :=
  match matrix with
  | None => Err (Errorf "%w: empty matrix" (Var ErrInvalidInput) [])
  | Some m =>
      if (length (Data m) =? 0)%nat
      then Err (Errorf "%w: empty matrix" (Var ErrInvalidInput) [])
      else body (Data m)
  end.

(** [big.Int] values are integers in [Z]. *)
Definition sum (matrix : option Matrix) : result error string :=
  guarded matrix (fun data =>
    let sum := fold_left (fun sum row =>
                 fold_left (fun sum val => sum + val) row sum) data 0 in
    Ok (strconv.FormatInt sum)).

Definition multiply (matrix : option Matrix) : result error string :=
  guarded matrix (fun data =>
    let product := fold_left (fun product row =>
                     fold_left (fun product val => product * val) row product) data 1 in
    Ok (strconv.FormatInt product)).

(** The inner loop of [echo] and of the rendering half of [invert], from
    column [j] on; [builder] is the text written so far. *)
Fixpoint write_row (j : nat) (row : list Z) (builder : string) : string :=
  match row with
  | [] => builder
  | val :: rest =>
      let builder := if (0 <? j)%nat then builder +:+ "," else builder in
      write_row (S j) rest (builder +:+ strconv.FormatInt val)
  end.

(** The outer loop, from row [i] on, of a matrix with [n] rows. *)
Fixpoint write_rows (n : nat) (i : nat) (rows : list (list Z)) (builder : string)
  : string :=
  match rows with
  | [] => builder
  | row :: rest =>
      let builder := write_row 0 row builder in
      let builder := if Z.of_nat i <? Z.of_nat n - 1 then builder +:+ LF else builder in
      write_rows n (S i) rest builder
  end.

Definition echo (matrix : option Matrix) : result error string :=
  guarded matrix (fun data => Ok (write_rows (length data) 0 data "")).

(** The loop [for j := range inverted[i]] of [invert], over the indices
    [js] still to visit. *)
Fixpoint invert_cells (data : list (list Z)) (i : nat) (js : list nat)
  (inverted : list (list Z)) : result error (list (list Z)) :=
  match js with
  | [] => Ok inverted
  | j :: js' =>
      src ← get_at data j;
      v ← get_at src i;
      dst ← get_at inverted i;
      dst ← set_at dst j v;
      inverted ← set_at inverted i dst;
      invert_cells data i js' inverted
  end.

(** The loop [for i := range inverted]. *)
Fixpoint invert_rows (data : list (list Z)) (rows : nat) (is_ : list nat)
  (inverted : list (list Z)) : result error (list (list Z)) :=
  match is_ with
  | [] => Ok inverted
  | i :: is' =>
      inverted ← set_at inverted i (replicate rows 0);
      inverted ← invert_cells data i (seq 0 rows) inverted;
      invert_rows data rows is' inverted
  end.

Definition invert (matrix : option Matrix) : result error string :=
  guarded matrix (fun data =>
    let rows := length data in
    row0 ← get_at data 0;
    let cols := length row0 in
    inverted ← invert_rows data rows (seq 0 cols) (replicate cols []);
    Ok (write_rows (length inverted) 0 inverted "")).

(** The inner loop of [flatten]: the builder and the flag [first]. *)
Fixpoint flatten_row (row : list Z) (st : string * bool) : string * bool :=
  match row with
  | [] => st
  | val :: rest =>
      let '(builder, first) := st in
      let builder := if negb first then builder +:+ "," else builder in
      flatten_row rest (builder +:+ strconv.FormatInt val, false)
  end.

Definition flatten (matrix : option Matrix) : result error string :=
  guarded matrix (fun data =>
    Ok (fst (fold_left (fun st row => flatten_row row st) data ("", true)))).

Definition RunOperation (ctx : Context) (matrix : option Matrix) (operation : string)
  : result error string :=
  match ctx_Err ctx with
  | Some err => Err err
  | None =>
      if String.eqb operation SumOperation then sum matrix
      else if String.eqb operation MultiplyOperation then multiply matrix
      else if String.eqb operation EchoOperation then echo matrix
      else if String.eqb operation InvertOperation then invert matrix
      else if String.eqb operation FlattenOperation then flatten matrix
      else Err (Errorf "%w: unsupported operation: %s" (Var ErrInvalidInput)
                       [OpString operation])
  end.

(** *** matrix.go: the orchestrator *)

(** The three interfaces the orchestrator holds. A method is a function of
    its arguments. *)
Record MatrixRepositoryInterface : Type := {
  iface_GetFileContent : Context -> string -> result error (option MatrixFileContent)
}.

Record MatrixValidatorDomainInterface : Type := {
  iface_ValidateFilePath : Context -> string -> option error;
  iface_Validate : Context -> option MatrixFileContent -> result error (option Matrix)
}.

Record MatrixOperationsDomainInterface : Type := {
  iface_IsValidOperation : Context -> string -> option error;
  iface_RunOperation : Context -> option Matrix -> string -> result error string
}.

Record matrixDomain : Type := {
  matrixRepository : MatrixRepositoryInterface;
  validatorDomain : MatrixValidatorDomainInterface;
  operationsDomain : MatrixOperationsDomainInterface
}.

Definition NewMatrixRepository {File} (os : repository.OS File)
  : MatrixRepositoryInterface :=
  {| iface_GetFileContent := repository.GetFileContent os |}.

Definition NewMatrixValidatorDomain : MatrixValidatorDomainInterface :=
  {| iface_ValidateFilePath := ValidateFilePath;
     iface_Validate := fun ctx rawData => m ← Validate ctx rawData; Ok (Some m) |}.

Definition NewMatrixOperationsDomain : MatrixOperationsDomainInterface :=
  {| iface_IsValidOperation := IsValidOperation;
     iface_RunOperation := RunOperation |}.

Definition NewMatrixDomain {File} (os : repository.OS File) : matrixDomain :=
  {| matrixRepository := NewMatrixRepository os;
     validatorDomain := NewMatrixValidatorDomain;
     operationsDomain := NewMatrixOperationsDomain |}.

(** A call made on one of the interfaces, with its arguments. *)
Inductive call : Type :=
| CallValidateFilePath (filePath : string)
| CallIsValidOperation (operation : string)
| CallGetFileContent (filePath : string)
| CallValidate (rawData : option MatrixFileContent)
| CallRunOperation (matrix : option Matrix) (operation : string).

(** Computations that log the interface calls they make, in order. *)
Definition logged (A : Type) : Type := list call -> list call * result error A.

#[export] Instance logged_bind : MBind logged := fun A B k m log =>
  let '(log, r) := m log in
  match r with
  | Ok a => k a log
  | Err e => (log, Err e)
  | Panic => (log, Panic)
  end.

Definition invoke {A} (c : call) (r : result error A) : logged A :=
  fun log => (log ++ [c], r).

Definition done_with {A} (r : result error A) : logged A := fun log => (log, r).

Definition check (e : option error) : result error unit :=
  match e with
  | Some err => Err err
  | None => Ok tt
  end.

Definition ProcessMatrix (d : matrixDomain) (ctx : Context)
  (operation filePath : string) : logged string :=
  match ctx_Err ctx with
  | Some err => done_with (Err err)
  | None =>
      if String.eqb operation "" then
        done_with (Err (Errorf "%w: operation parameter is required"
                               (Var ErrInvalidInput) []))
      else
        _ ← invoke (CallValidateFilePath filePath)
              (check (iface_ValidateFilePath (validatorDomain d) ctx filePath));
        _ ← invoke (CallIsValidOperation operation)
              (check (iface_IsValidOperation (operationsDomain d) ctx operation));
        rawData ← invoke (CallGetFileContent filePath)
              (iface_GetFileContent (matrixRepository d) ctx filePath);
        validatedMatrix ← invoke (CallValidate rawData)
              (iface_Validate (validatorDomain d) ctx rawData);
        result ← invoke (CallRunOperation validatedMatrix operation)
              (iface_RunOperation (operationsDomain d) ctx validatedMatrix operation);
        done_with (Ok result)
  end.

(** *** matrix_operations.go: ListOperations *)

(** [ListOperations] ranges over the map [matrixOperations]; Go leaves the
    order of a map iteration open.  [iteration] is the sequence of entries
    the loop visits: each entry of the map once, in some order. *)
Definition map_iteration (iteration : list (string * bool)) : Prop :=
  iteration ≡ₚ map_to_list matrixOperations.

(** The loop of [ListOperations] along [iteration]: every key is appended. *)
Definition ListOperations (iteration : list (string * bool)) : list string :=
  fold_left (fun operations entry => operations ++ [entry.1]) iteration [].

(** *** matrix.go: ListMatrixOperations *)

Definition TAB : string := String (ascii_of_nat 9) "".

(** The raw string literal that opens the listing. *)
Definition banner : string :=
  LF +:+ TAB +:+ "Are you lost?" +:+ LF
     +:+ TAB +:+ "Try using this sample URL: " +:+ LF
     +:+ TAB +:+ "http://localhost:8080/matrix/sum?file=testdata/matrix1.csv" +:+ LF
     +:+ LF
     +:+ TAB +:+ "Other available operations: " +:+ LF
     +:+ TAB.

(** The loop [for i, op := range allOperations], from index [i] on. *)
Fixpoint append_operations (i : nat) (allOperations : list string)
  (operationsStr : string) : string :=
  match allOperations with
  | [] => operationsStr
  | op :: rest =>
      let operationsStr :=
        if (0 <? i)%nat then operationsStr +:+ "," else operationsStr in
      append_operations (S i) rest (operationsStr +:+ op)
  end.

(** [ListMatrixOperations], given the list [allOperations] that
    [d.operationsDomain.ListOperations()] returned. *)
Definition ListMatrixOperations (allOperations : list string) : result error string :=
  Ok (append_operations 0 allOperations banner).

End domain.

(** ** internal/handler *)
Module handler.

(** What a handler reads of the [*http.Request]: the method, [r.URL.Path],
    the value of [r.URL.Query().Get("file")] and [r.Context()]. *)
Record Request : Type := {
  Method : string;
  Path : string;
  file : string;
  ctx : Context
}.

(** The text passed to [http.Error]: a literal, or [err.Error()]. *)
Inductive message : Type :=
| Literal (text : string)
| ErrorText (err : error).

(** What a handler does with the [http.ResponseWriter]: nothing,
    [http.Error(w, msg, code)], or the header [Content-Type: contentType]
    followed by [WriteHeader(code)] and [Write(body)]. *)
Inductive response : Type :=
| NothingWritten
| HttpError (msg : message) (code : Z)
| Written (contentType : string) (code : Z) (body : string).

Definition StatusOK : Z := 200.
Definition StatusMethodNotAllowed : Z := 405.
Definition StatusGatewayTimeout : Z := 504.
Definition MethodGet : string := "GET".

(** The domain service a handler holds. *)
Record MatrixDomainInterface : Type := {
  iface_ListMatrixOperations : result error string;
  iface_ProcessMatrix : Context -> string -> string -> result error string
}.

(** [s[n:]]: panics when [n] exceeds the length of [s]. *)
Definition slice_from (s : string) (n : nat) : result error string :=
  if (String.length s <? n)%nat then Panic
  else Ok (substring n (String.length s - n) s).

Record matrixHandler : Type := { matrixDomain : MatrixDomainInterface }.

Definition ListMatrixOperations (h : matrixHandler) (r : Request)
  : result error response :=
  if negb (String.eqb (Method r) MethodGet) then
    Ok (HttpError (Literal "method not allowed") StatusMethodNotAllowed)
  else
    match iface_ListMatrixOperations (matrixDomain h) with
    | Panic => Panic
    | Err err => Ok (HttpError (ErrorText err) (apperrors.GetHTTPStatusCode (Some err)))
    | Ok result => Ok (Written "text/plain" StatusOK result)
    end.

Definition ProcessMatrix (h : matrixHandler) (r : Request)
  : result error response :=
  if negb (String.eqb (Method r) MethodGet) then
    Ok (HttpError (Literal "method not allowed") StatusMethodNotAllowed)
  else
    operation ← slice_from (Path r) (String.length "/matrix/");
    let filePath := file r in
    match iface_ProcessMatrix (matrixDomain h) (ctx r) operation filePath with
    | Panic => Panic
    | Err err =>
        if errors.Is err ctxCanceled then Ok NothingWritten
        else if errors.Is err ctxDeadlineExceeded then
          Ok (HttpError (Literal "request timeout") StatusGatewayTimeout)
        else
          Ok (HttpError (ErrorText err) (apperrors.GetHTTPStatusCode (Some err)))
    | Ok result => Ok (Written "text/plain" StatusOK result)
    end.

Definition HealthCheck (r : Request) : result error response :=
  if negb (String.eqb (Method r) MethodGet) then
    Ok (HttpError (Literal "method not allowed") StatusMethodNotAllowed)
  else Ok (Written "text/plain" StatusOK "OK").

(** [NewMatrixHandler]: the handler on the domain service of
    [NewMatrixDomain]; [iteration] is the order in which [ListOperations]
    ranges over the map. *)
Definition NewMatrixHandler {File} (os : repository.OS File)
  (iteration : list (string * bool)) : matrixHandler :=
  {| matrixDomain :=
       {| iface_ListMatrixOperations :=
            domain.ListMatrixOperations (domain.ListOperations iteration);
          iface_ProcessMatrix := fun ctx operation filePath =>
            (domain.ProcessMatrix (domain.NewMatrixDomain os) ctx operation filePath []).2 |} |}.

End handler.

(** * Notions used to state the properties *)

(** [wrap layers e]: [e] wrapped in one [fmt.Errorf("%w...")] per element of
    [layers], outermost first. *)
Fixpoint wrap (layers : list (string * list operand)) (e : error) : error :=
  match layers with
  | [] => e
  | (format, operands) :: layers' => Errorf format (wrap layers' e) operands
  end.

(** The four classifications of [pkg/errors] and their status codes. *)
Definition sentinels : list errvar :=
  [ErrInvalidInput; ErrNotFound; ErrPayloadTooLarge; ErrUnprocessableEntity].

Definition status_of (v : errvar) : Z :=
  match v with
  | ErrInvalidInput => 400
  | ErrNotFound => 404
  | ErrPayloadTooLarge => 413
  | ErrUnprocessableEntity => 422
  | _ => 500
  end.

(** What a logged call returned, on collaborators [d] under [ctx]. *)
Definition outcome (d : domain.matrixDomain) (ctx : Context) (c : domain.call)
  : result error unit :=
  match c with
  | domain.CallValidateFilePath filePath =>
      domain.check (domain.iface_ValidateFilePath (domain.validatorDomain d) ctx filePath)
  | domain.CallIsValidOperation operation =>
      domain.check (domain.iface_IsValidOperation (domain.operationsDomain d) ctx operation)
  | domain.CallGetFileContent filePath =>
      _ ← domain.iface_GetFileContent (domain.matrixRepository d) ctx filePath; Ok tt
  | domain.CallValidate rawData =>
      _ ← domain.iface_Validate (domain.validatorDomain d) ctx rawData; Ok tt
  | domain.CallRunOperation matrix operation =>
      _ ← domain.iface_RunOperation (domain.operationsDomain d) ctx matrix operation; Ok tt
  end.

(** The calls of a complete run, in order. *)
Definition pipeline (operation filePath : string)
  (rawData : option MatrixFileContent) (matrix : option Matrix) : list domain.call :=
  [domain.CallValidateFilePath filePath; domain.CallIsValidOperation operation;
   domain.CallGetFileContent filePath; domain.CallValidate rawData;
   domain.CallRunOperation matrix operation].

Definition is_GetFileContent (c : domain.call) : bool :=
  match c with
  | domain.CallGetFileContent _ => true
  | _ => false
  end.

(** The shape defects the validator rejects. *)
Definition bad_shape (rawData : option MatrixFileContent) : Prop :=
  match rawData with
  | None => True
  | Some raw =>
      Content raw = [] \/
      (10 < length (Content raw))%nat \/
      (10 < length (hd [] (Content raw)))%nat \/
      Exists (fun row => length row <> length (hd [] (Content raw))) (Content raw)
  end.

(** The mathematical sum and product of all the elements. *)
Definition total (data : list (list Z)) : Z := fold_right Z.add 0 (concat data).
Definition product (data : list (list Z)) : Z := fold_right Z.mul 1 (concat data).

(** Element [i] of row [j] of [data], when both indices are in range. *)
Definition cell (data : list (list Z)) (i j : nat) : option Z :=
  row ← data !! j; row !! i.

(** Row [i] of the transpose: column [i] of [data]. *)
Definition column (data : list (list Z)) (rows i : nat) : list Z :=
  map (fun j => default 0%Z (cell data i j)) (seq 0%nat rows).

Definition transpose (data : list (list Z)) : list (list Z) :=
  map (column data (length data)) (seq 0%nat (length (hd [] data))).

(** A row's elements joined by commas; rows joined by single line breaks. *)
Definition render_row (row : list Z) : string :=
  String.concat "," (map strconv.FormatInt row).

Definition render (m : list (list Z)) : string :=
  String.concat domain.LF (map render_row m).

(** Element [c] of row [r]. *)
Definition entry (m : list (list Z)) (r c : nat) : option Z := cell m c r.

(** The integer a field denotes when it is a clean decimal integer: an
    optional sign followed by one or more decimal digits and nothing else. *)
Definition digit_value (c : ascii) : option Z :=
  if (48 <=? byte c) && (byte c <=? 57) then Some (byte c - 48) else None.

Fixpoint decimal_from (acc : Z) (cs : list ascii) : option Z :=
  match cs with
  | [] => Some acc
  | c :: cs' =>
      match digit_value c with
      | Some d => decimal_from (10 * acc + d) cs'
      | None => None
      end
  end.

Definition decimal (cs : list ascii) : option Z :=
  match cs with
  | [] => None
  | _ => decimal_from 0 cs
  end.

Definition denoted_integer (s : string) : option Z :=
  match list_ascii_of_string s with
  | [] => None
  | c :: rest =>
      if Ascii.eqb c "-" then Z.opp <$> decimal rest
      else if Ascii.eqb c "+" then decimal rest
      else decimal (c :: rest)
  end.

(** The runes ['0'] to ['9']. *)
Definition is_digit (r : Z) : Prop := 48 <= r <= 57.

(** What [scanInt] reports for a token [tok] handed to [ParseInt]. *)
Definition parsed (tok : list Z) : result fmt.scan_error Z :=
  match strconv.ParseInt tok with
  | Ok i => Ok i
  | Err e => Err (fmt.NumError tok e)
  | Panic => Panic
  end.

(** [Sscanf] reads the value [v] from [field]. *)
Definition scans (field : string) (v : Z) : Prop := fmt.Sscanf_d field = Ok v.

(** Field [j] of raw row [i]. *)
Definition field_at (raw : MatrixFileContent) (i j : nat) : option string :=
  row ← Content raw !! i; row !! j.

(** The five operation names. *)
Definition operation_names : list string :=
  [domain.SumOperation; domain.MultiplyOperation; domain.EchoOperation;
   domain.InvertOperation; domain.FlattenOperation].

(** The error of the [default] branch of [RunOperation]. *)
Definition unsupported (operation : string) : error :=
  Errorf "%w: unsupported operation: %s" (Var ErrInvalidInput) [OpString operation].

(** A nil matrix or one without rows. *)
Definition no_rows (matrix : option Matrix) : Prop :=
  match matrix with
  | None => True
  | Some m => Data m = []
  end.

(** The runes at which the digit loop stops: the end of the input or a rune
    that is no decimal digit. *)
Definition stops (rest : list Z) : Prop :=
  match rest with
  | [] => True
  | r :: _ => ~ is_digit r
  end.

(** The conversion of [Validate] as a function of the raw rows: the values
    scanned from row [i] from column [j] on, or the error for the first
    field that does not scan. *)
Fixpoint scan_row (i j : nat) (row : list string) : result error (list Z) :=
  match row with
  | [] => Ok []
  | val :: rest =>
      match fmt.Sscanf_d val with
      | Ok num => vals ← scan_row i (S j) rest; Ok (num :: vals)
      | Err err =>
          Err (Errorf "%w: invalid integer value at row %d, column %d: %v"
                      (Var ErrUnprocessableEntity)
                      [OpInt (Z.of_nat i); OpInt (Z.of_nat j); OpScanErr err])
      | Panic => Panic
      end
  end.

Fixpoint scan_rows (i : nat) (content : list (list string))
  : result error (list (list Z)) :=
  match content with
  | [] => Ok []
  | row :: rest =>
      vals ← scan_row i 0 row;
      more ← scan_rows (S i) rest;
      Ok (vals :: more)
  end.

(** Position [(i', j')] comes before [(i, j)] in row-major order. *)
Definition before (i' j' i j : nat) : Prop :=
  (i' < i)%nat \/ (i' = i /\ (j' < j)%nat).

(** The field denotes an integer that fits an [int64]. *)
Definition denotes_int64 (field : string) (z : Z) : Prop :=
  denoted_integer field = Some z /\ minInt64 <= z <= maxInt64.

(** The operating system and the CSV reader return without panicking. *)
Definition os_returns {File} (os : repository.OS File) : Prop :=
  (forall p, repository.os_Open os p <> Panic) /\
  (forall f, repository.file_Stat_Size os f <> Panic) /\
  (forall f, repository.csv_ReadAll os f <> Panic).

(** An operating system with one file of [size] bytes at [path], read by the
    CSV reader as [records]. *)
Definition one_file (path : string) (size : Z) (records : list (list string))
  : repository.OS unit :=
  {| repository.os_Open := fun p =>
       if String.eqb p path then Ok tt else Err "no such file or directory";
     repository.file_Stat_Size := fun _ => Ok size;
     repository.csv_ReadAll := fun _ => Ok records |}.

(** The text an operation returns for the matrix [vals]. *)
Definition operation_text (operation : string) (vals : list (list Z)) : string :=
  if String.eqb operation domain.SumOperation then strconv.FormatInt (total vals)
  else if String.eqb operation domain.MultiplyOperation then strconv.FormatInt (product vals)
  else if String.eqb operation domain.EchoOperation then render vals
  else if String.eqb operation domain.InvertOperation then render (transpose vals)
  else String.concat "," (map strconv.FormatInt (concat vals)).

(** * Properties *)

(** ** The models on the examples of the specification *)

Example runes_mixed :
  utf8.runes (String (ascii_of_nat 0xC2) (String (ascii_of_nat 0xA0) "7")) = [0xA0; 55].
Proof. reflexivity. Qed.

Example scan_examples :
  fmt.Sscanf_d "12abc" = Ok 12 /\ fmt.Sscanf_d "1.5" = Ok 1 /\
  fmt.Sscanf_d "" = Err fmt.EOF /\ fmt.Sscanf_d "  " = Err fmt.EOF /\
  fmt.Sscanf_d " -7" = Ok (-7) /\ fmt.Sscanf_d "a" = Err fmt.ExpectedInteger /\
  fmt.Sscanf_d "9223372036854775808" = Err (fmt.NumError [57;50;50;51;51;55;50;48;51;54;56;53;52;55;55;53;56;48;56] strconv.ErrRange) /\
  fmt.Sscanf_d "-9223372036854775808" = Ok minInt64 /\
  strconv.FormatInt (-120) = "-120" /\ strconv.FormatInt 0 = "0" /\
  Strings.Contains "testdata/../x.csv" ".." = true /\
  Strings.HasSuffix "testdata/x.csv" ".csv" = true /\
  Strings.HasPrefix "data/x.csv" "testdata/" = false.
Proof. vm_compute. repeat split. Qed.

Example IsValidOperation_examples :
  domain.IsValidOperation Background "sum" = None /\
  domain.IsValidOperation Background "flatten" = None /\
  domain.IsValidOperation Background ""
    = Some (Errorf "%w: invalid operation: %s" (Var ErrInvalidInput) [OpString ""]) /\
  domain.IsValidOperation Background "divide"
    = Some (Errorf "%w: invalid operation: %s" (Var ErrInvalidInput) [OpString "divide"]).
Proof. vm_compute. repeat split. Qed.

Example ops_examples :
  let m := Some {| Data := [[1;2;3];[4;5;6]] |} in
  domain.sum m = Ok "21" /\
  domain.multiply (Some {| Data := [[2;3];[4;5]] |}) = Ok "120" /\
  domain.invert m = Ok ("1,4" +:+ domain.LF +:+ "2,5" +:+ domain.LF +:+ "3,6") /\
  domain.echo m = Ok ("1,2,3" +:+ domain.LF +:+ "4,5,6") /\
  domain.flatten m = Ok "1,2,3,4,5,6" /\
  domain.invert (Some {| Data := [[1;2];[3]] |}) = Panic /\
  domain.Validate Background (Some {| Content := [["1";"2abc"];["-3";" 4"]] |})
   = Ok {| Data := [[1;2];[-3;4]] |}.
Proof. vm_compute. repeat split. Qed.

(** ** Error classification *)

Lemma Is_wrap layers e target :
  errors.Is (wrap layers e) target = errors.Is e target.
Proof.
  induction layers as [|[format operands] layers IH]; simpl; auto.
Qed.

Lemma Is_Var v target : errors.Is (Var v) target = bool_decide (v = target).
Proof. reflexivity. Qed.

(** C9: a sentinel wrapped in any number of message-adding layers is still
    recognised by [errors.Is], and [GetHTTPStatusCode] returns the code of
    its kind (400, 404, 413, 422); an error matching no sentinel gets 500. *)
Theorem classification_survives_wrapping :
  forall (layers : list (string * list operand)) (v : errvar) (err : error),
    (In v sentinels ->
       errors.Is (wrap layers (Var v)) v = true /\
       apperrors.GetHTTPStatusCode (Some (wrap layers (Var v))) = status_of v) /\
    ((forall s, In s sentinels -> errors.Is err s = false) ->
       apperrors.GetHTTPStatusCode (Some err) = 500).
Proof.
  intros layers v err. split.
  - intros Hv. unfold apperrors.GetHTTPStatusCode.
    rewrite !Is_wrap, !Is_Var.
    simpl in Hv. intuition (subst; split; reflexivity).
  - intros Hno. unfold apperrors.GetHTTPStatusCode.
    rewrite !Hno; [reflexivity | simpl; auto ..].
Qed.

Lemma classification_survives_wrapping_witness :
  (errors.Is (wrap [("%w: a", []); ("%w: b %d", [OpInt 3])] (Var ErrNotFound)) ErrNotFound = true /\
   apperrors.GetHTTPStatusCode
     (Some (wrap [("%w: a", []); ("%w: b %d", [OpInt 3])] (Var ErrNotFound))) = 404) /\
  apperrors.GetHTTPStatusCode (Some (Errorf "%w: x" (Opaque "disk failure") [])) = 500.
Proof.
  split.
  - apply (classification_survives_wrapping
             [("%w: a", []); ("%w: b %d", [OpInt 3])] ErrNotFound (Var ErrNotFound)).
    simpl. auto.
  - apply (classification_survives_wrapping [] ErrNotFound
             (Errorf "%w: x" (Opaque "disk failure") [])).
    intros s _. reflexivity.
Defined.

(** ** Cancellation *)

(** C8: a stage entered with a cancelled context returns the context's
    error itself, unchanged; the orchestrator then makes no call on any of
    its collaborators (the log of calls is left as it was), so the content
    provider is not invoked.  The cancellation error matches none of the
    four sentinels. *)
Theorem cancelled_context_returned_unchanged :
  forall (File : Type) (os : repository.OS File) (d : domain.matrixDomain)
         (err : error) (operation filePath : string)
         (rawData : option MatrixFileContent) (matrix : option Matrix)
         (log : list domain.call),
    let ctx := {| ctx_Err := Some err |} in
    domain.ProcessMatrix d ctx operation filePath log = (log, Err err) /\
    domain.ValidateFilePath ctx filePath = Some err /\
    domain.Validate ctx rawData = Err err /\
    domain.IsValidOperation ctx operation = Some err /\
    domain.RunOperation ctx matrix operation = Err err /\
    repository.GetFileContent os ctx filePath = Err err /\
    domain.ProcessMatrix (domain.NewMatrixDomain os) ctx operation filePath []
      = ([], Err err) /\
    Forall (fun s => errors.Is (Var ctxCanceled) s = false) sentinels.
Proof.
  intros File os d err operation filePath rawData matrix log ctx.
  repeat split; try reflexivity.
  repeat constructor.
Qed.

(** ** The orchestrator's stage order *)

Ltac split5 := split; [|split; [|split; [|split]]].

(** C7: [ProcessMatrix] checks cancellation, then the empty operation, then
    calls path validation, operation validation, content retrieval, matrix
    validation and operation execution in this order, each on the values the
    earlier ones produced; every call but the last one made has succeeded; a
    failure returned is the cancellation error, the empty-operation
    [InvalidInput] error, or the error of the last call made; and with an
    empty operation the result is [InvalidInput] and no call is made. *)
Theorem ProcessMatrix_stage_order :
  forall (d : domain.matrixDomain) (ctx : Context) (operation filePath : string),
    let run := domain.ProcessMatrix d ctx operation filePath [] in
    (exists rawData matrix n,
        run.1 = take n (pipeline operation filePath rawData matrix)) /\
    (forall i c, run.1 !! i = Some c -> (S i < length run.1)%nat ->
                 outcome d ctx c = Ok tt) /\
    match run.2 with
    | Ok text =>
        exists rawData matrix,
          run.1 = pipeline operation filePath rawData matrix /\
          domain.iface_RunOperation (domain.operationsDomain d) ctx matrix operation
            = Ok text
    | Err e =>
        (run.1 = [] /\ ctx_Err ctx = Some e) \/
        (run.1 = [] /\ ctx_Err ctx = None /\ operation = "" /\
         errors.Is e ErrInvalidInput = true) \/
        (ctx_Err ctx = None /\ operation <> "" /\
         exists c, last run.1 = Some c /\ outcome d ctx c = Err e)
    | Panic => exists c, last run.1 = Some c /\ outcome d ctx c = Panic
    end /\
    (forall e, ctx_Err ctx = Some e -> run = ([], Err e)) /\
    (ctx_Err ctx = None -> operation = "" ->
       exists e, run = ([], Err e) /\ errors.Is e ErrInvalidInput = true /\
                 existsb is_GetFileContent run.1 = false).
Proof.
  intros d ctx operation filePath run. subst run.
  unfold domain.ProcessMatrix.
  destruct (ctx_Err ctx) as [cerr|] eqn:Hctx.
  { simpl. split5.
    - exists None, None, 0%nat. reflexivity.
    - intros i c Hc. discriminate.
    - left. auto.
    - intros e He. injection He as <-. reflexivity.
    - discriminate. }
  destruct (String.eqb_spec operation "") as [Hop|Hop].
  { simpl. split5.
    - exists None, None, 0%nat. reflexivity.
    - intros i c Hc. discriminate.
    - right. left. auto.
    - discriminate.
    - intros _ _. eexists. split; [reflexivity|]. split; reflexivity. }
  unfold mbind, domain.logged_bind, domain.invoke, domain.done_with. simpl.
  destruct (domain.iface_ValidateFilePath (domain.validatorDomain d) ctx filePath)
    as [e1|] eqn:H1; simpl.
  { split5.
    - exists None, None, 1%nat. reflexivity.
    - intros [|i] c Hc Hi; simpl in *; lia.
    - right. right. repeat split; auto.
      exists (domain.CallValidateFilePath filePath). simpl. rewrite H1. auto.
    - discriminate.
    - intros _ Hop'. contradiction. }
  destruct (domain.iface_IsValidOperation (domain.operationsDomain d) ctx operation)
    as [e2|] eqn:H2; simpl.
  { split5.
    - exists None, None, 2%nat. reflexivity.
    - intros [|[|i]] c Hc Hi; simpl in *; try lia.
      injection Hc as <-. simpl. rewrite H1. reflexivity.
    - right. right. repeat split; auto.
      exists (domain.CallIsValidOperation operation). simpl. rewrite H2. auto.
    - discriminate.
    - intros _ Hop'. contradiction. }
  destruct (domain.iface_GetFileContent (domain.matrixRepository d) ctx filePath)
    as [rawData|e3|] eqn:H3; simpl.
  2,3: split5;
    [ exists None, None, 3%nat; reflexivity
    | intros [|[|[|i]]] c Hc Hi; simpl in *; try lia; injection Hc as <-; simpl;
      [rewrite H1|rewrite H2]; reflexivity
    | first [ right; right; repeat split; auto | idtac ];
      exists (domain.CallGetFileContent filePath); simpl; rewrite H3; auto
    | discriminate
    | intros _ Hop'; contradiction ].
  destruct (domain.iface_Validate (domain.validatorDomain d) ctx rawData)
    as [matrix|e4|] eqn:H4; simpl.
  2,3: split5;
    [ exists rawData, None, 4%nat; reflexivity
    | intros [|[|[|[|i]]]] c Hc Hi; simpl in *; try lia; injection Hc as <-; simpl;
      [rewrite H1|rewrite H2|rewrite H3]; reflexivity
    | first [ right; right; repeat split; auto | idtac ];
      exists (domain.CallValidate rawData); simpl; rewrite H4; auto
    | discriminate
    | intros _ Hop'; contradiction ].
  destruct (domain.iface_RunOperation (domain.operationsDomain d) ctx matrix operation)
    as [text|e5|] eqn:H5; simpl.
  all: split5;
    [ exists rawData, matrix, 5%nat; reflexivity
    | intros [|[|[|[|[|i]]]]] c Hc Hi; simpl in *; try lia; injection Hc as <-; simpl;
      [rewrite H1|rewrite H2|rewrite H3|rewrite H4]; reflexivity
    | first [ exists rawData, matrix; split; [reflexivity|assumption]
            | right; right; repeat split; auto;
              exists (domain.CallRunOperation matrix operation); simpl; rewrite H5; auto
            | exists (domain.CallRunOperation matrix operation); simpl; rewrite H5; auto ]
    | discriminate
    | intros _ Hop'; contradiction ].
Qed.

(** ** Shape checks of the validator *)

Lemma check_rows_None cols i content :
  domain.check_rows cols i content = None <->
  Forall (fun row => length row = cols) content.
Proof.
  revert i. induction content as [|row rest IH]; intros i; simpl.
  - split; auto.
  - destruct (Nat.eqb_spec (length row) cols) as [Heq|Hne]; simpl.
    + rewrite IH. split.
      * intros H. constructor; auto.
      * intros H. inversion H; auto.
    + split; [discriminate|]. intros H. inversion H; contradiction.
Qed.

Lemma check_rows_Some cols i content e :
  domain.check_rows cols i content = Some e ->
  errors.Is e ErrUnprocessableEntity = true.
Proof.
  revert i. induction content as [|row rest IH]; intros i; simpl.
  - discriminate.
  - destruct (length row =? cols)%nat; simpl.
    + apply IH.
    + intros [= <-]. reflexivity.
Qed.

(** The row index reported by the check is that of the first row whose
    length differs. *)
Lemma check_rows_reports cols i content e :
  domain.check_rows cols i content = Some e ->
  exists k row,
    content !! k = Some row /\ length row <> cols /\
    Forall (fun r => length r = cols) (take k content) /\
    e = Errorf "%w: inconsistent row length at row %d: expected %d columns, got %d"
               (Var ErrUnprocessableEntity)
               [OpInt (Z.of_nat (i + k)); OpInt (Z.of_nat cols);
                OpInt (Z.of_nat (length row))].
Proof.
  revert i. induction content as [|row rest IH]; intros i; simpl.
  - discriminate.
  - destruct (Nat.eqb_spec (length row) cols) as [Heq|Hne]; simpl.
    + intros H. destruct (IH _ H) as (k & r & Hk & Hr & Hpre & ->).
      exists (S k), r. rewrite Nat.add_succ_r.
      split; [assumption|]. split; [assumption|].
      split; [simpl; constructor; assumption | reflexivity].
    + intros [= <-]. exists 0%nat, row. rewrite Nat.add_0_r.
      split; [reflexivity|]. split; [assumption|].
      split; [simpl; constructor | reflexivity].
Qed.

(** C2: raw content that is nil, has no rows, has more than 10 rows, has a
    first row of more than 10 fields, or has a row whose length differs from
    the first row's, is rejected by [Validate] with an error classified
    [UnprocessableEntity]; no matrix is returned. *)
Theorem Validate_rejects_bad_shape :
  forall rawData : option MatrixFileContent,
    bad_shape rawData ->
    exists e, domain.Validate Background rawData = Err e /\
              errors.Is e ErrUnprocessableEntity = true.
Proof.
  intros [raw|] Hbad; unfold domain.Validate; simpl.
  2: { eexists. split; reflexivity. }
  destruct raw as [content]. simpl in *.
  destruct content as [|row0 rest] eqn:Hc.
  { eexists. split; reflexivity. }
  rewrite <- Hc in *.
  assert (Hlen : length content = S (length rest)) by (subst; reflexivity).
  assert (Hhd : hd [] content = row0) by (subst; reflexivity).
  rewrite Hhd in Hbad. rewrite Hlen.
  destruct (Nat.ltb_spec domain.maxInputMatrixRows (S (length rest))) as [|Hrows].
  { eexists. split; reflexivity. }
  destruct (Nat.ltb_spec domain.maxInputMatrixCols (length row0)) as [|Hcols].
  { eexists. split; reflexivity. }
  unfold domain.maxInputMatrixRows, domain.maxInputMatrixCols in *.
  destruct (domain.check_rows (length row0) 0 content) as [e|] eqn:Hchk.
  { exists e. split; [reflexivity|]. eapply check_rows_Some; eauto. }
  exfalso. apply check_rows_None in Hchk.
  destruct Hbad as [H|[H|[H|H]]]; try (subst; discriminate); try lia.
  apply Exists_exists in H as (row & Hin & Hne).
  rewrite Forall_forall in Hchk. apply Hne, Hchk, Hin.
Qed.

Lemma Validate_rejects_bad_shape_witness :
  exists e, domain.Validate Background
              (Some {| Content := [["1"; "2"; "3"]; ["4"; "5"]] |}) = Err e /\
            errors.Is e ErrUnprocessableEntity = true.
Proof.
  apply (Validate_rejects_bad_shape (Some {| Content := [["1"; "2"; "3"]; ["4"; "5"]] |})).
  simpl. right. right. right. right. left. simpl. lia.
Defined.

(** ** Sum and product *)

Lemma sum_row_acc row acc :
  fold_left (fun sum val => sum + val) row acc = acc + fold_right Z.add 0 row.
Proof.
  revert acc. induction row as [|v row IH]; intros acc; simpl.
  - lia.
  - rewrite IH. lia.
Qed.

Lemma sum_rows_acc data acc :
  fold_left (fun sum row => fold_left (fun sum val => sum + val) row sum) data acc
  = acc + total data.
Proof.
  unfold total. revert acc. induction data as [|row data IH]; intros acc; simpl.
  - lia.
  - rewrite IH, sum_row_acc, fold_right_app.
    assert (H : forall l b, fold_right Z.add b l = fold_right Z.add 0 l + b).
    { induction l as [|x l IHl]; intros b; simpl; [lia | rewrite IHl; lia]. }
    rewrite (H row (fold_right Z.add 0 (concat data))). lia.
Qed.

Lemma mul_row_acc row acc :
  fold_left (fun p val => p * val) row acc = acc * fold_right Z.mul 1 row.
Proof.
  revert acc. induction row as [|v row IH]; intros acc; simpl.
  - lia.
  - rewrite IH. lia.
Qed.

Lemma mul_rows_acc data acc :
  fold_left (fun p row => fold_left (fun p val => p * val) row p) data acc
  = acc * product data.
Proof.
  unfold product. revert acc. induction data as [|row data IH]; intros acc; simpl.
  - lia.
  - rewrite IH, mul_row_acc, fold_right_app.
    assert (H : forall l b, fold_right Z.mul b l = fold_right Z.mul 1 l * b).
    { induction l as [|x l IHl]; intros b; simpl; [lia | rewrite IHl; lia]. }
    rewrite (H row (fold_right Z.mul 1 (concat data))). lia.
Qed.

Lemma product_zero l : In 0 l -> fold_right Z.mul 1 l = 0.
Proof.
  induction l as [|x l IH]; simpl; [tauto|].
  intros [->|H]; [reflexivity | rewrite IH by assumption; lia].
Qed.

Lemma guarded_nonempty data body :
  data <> [] -> domain.guarded (Some {| Data := data |}) body = body data.
Proof.
  intros H. unfold domain.guarded. simpl.
  destruct data; [contradiction | reflexivity].
Qed.

(** C5: on a non-empty matrix, [sum] returns the decimal string of the exact
    sum of all elements and [multiply] that of their exact product, whatever
    the size of the elements; a zero element makes [multiply] return "0". *)
Theorem sum_multiply_exact :
  forall data : list (list Z),
    data <> [] ->
    domain.sum (Some {| Data := data |}) = Ok (strconv.FormatInt (total data)) /\
    domain.multiply (Some {| Data := data |}) = Ok (strconv.FormatInt (product data)) /\
    (In 0 (concat data) -> domain.multiply (Some {| Data := data |}) = Ok "0").
Proof.
  intros data Hne.
  assert (Hm : domain.multiply (Some {| Data := data |})
               = Ok (strconv.FormatInt (product data))).
  { unfold domain.multiply. rewrite guarded_nonempty by assumption.
    rewrite mul_rows_acc. f_equal. f_equal. lia. }
  split; [|split].
  - unfold domain.sum. rewrite guarded_nonempty by assumption.
    rewrite sum_rows_acc. reflexivity.
  - exact Hm.
  - intros H0. rewrite Hm. unfold product. rewrite product_zero by assumption.
    reflexivity.
Qed.

Lemma sum_multiply_exact_witness :
  domain.sum (Some {| Data := [[maxInt64; maxInt64]; [2; 0]] |})
    = Ok "18446744073709551616" /\
  domain.multiply (Some {| Data := [[maxInt64; maxInt64]; [2; 0]] |}) = Ok "0" /\
  domain.multiply (Some {| Data := [[maxInt64; maxInt64]] |})
    = Ok "85070591730234615847396907784232501249".
Proof.
  split; [|split].
  - apply (sum_multiply_exact [[maxInt64; maxInt64]; [2; 0]]). discriminate.
  - apply (sum_multiply_exact [[maxInt64; maxInt64]; [2; 0]]); [discriminate|].
    simpl. auto.
  - apply (sum_multiply_exact [[maxInt64; maxInt64]]). discriminate.
Defined.

(** ** Transposition *)

Section invert_loops.
Local Open Scope nat_scope.

Lemma set_at_Ok {A} (l : list A) i x :
  i < length l -> domain.set_at l i x = Ok (<[i := x]> l).
Proof.
  intros H. unfold domain.set_at.
  destruct (Nat.ltb_spec i (length l)); [reflexivity | lia].
Qed.

Lemma get_at_Ok {A} (l : list A) i x :
  l !! i = Some x -> domain.get_at l i = Ok x.
Proof. intros H. unfold domain.get_at. rewrite H. reflexivity. Qed.

Lemma take_S_insert {A} (l : list A) k v :
  k < length l -> take (S k) (<[k := v]> l) = take k l ++ [v].
Proof.
  intros H. rewrite (take_S_r _ _ v) by (apply list_lookup_insert_eq; assumption).
  rewrite take_insert_ge by lia. reflexivity.
Qed.

Lemma invert_cells_ok data i rows n :
  forall k inverted dst,
    k + n = rows ->
    inverted !! i = Some dst -> length dst = rows ->
    (forall j, k <= j < rows -> is_Some (cell data i j)) ->
    domain.invert_cells data i (seq k n) inverted
    = Ok (<[i := take k dst ++ map (fun j => default 0%Z (cell data i j)) (seq k n)]>
            inverted).
Proof.
  induction n as [|n IH]; intros k inverted dst Hk Hi Hlen Hcells; simpl.
  - rewrite app_nil_r, firstn_all2 by lia.
    rewrite list_insert_id by assumption. reflexivity.
  - destruct (Hcells k ltac:(lia)) as [v Hv].
    unfold cell in Hv.
    destruct (data !! k) as [src|] eqn:Hsrc; simpl in Hv; [|discriminate].
    rewrite (get_at_Ok _ _ _ Hsrc). simpl.
    rewrite (get_at_Ok _ _ _ Hv). simpl.
    rewrite (get_at_Ok _ _ _ Hi). simpl.
    rewrite set_at_Ok by lia. simpl.
    assert (Hi' : i < length inverted) by (eapply lookup_lt_Some; eauto).
    rewrite set_at_Ok by assumption. simpl.
    rewrite (IH (S k) _ (<[k := v]> dst)).
    + rewrite list_insert_insert_eq. rewrite take_S_insert by lia.
      unfold cell at 2. rewrite Hsrc. simpl. rewrite Hv. simpl.
      rewrite <- app_assoc. reflexivity.
    + lia.
    + apply list_lookup_insert_eq. assumption.
    + rewrite length_insert. assumption.
    + intros j Hj. apply Hcells. lia.
Qed.

Lemma invert_rows_ok data rows cols n :
  forall k inverted,
    k + n = cols -> length inverted = cols ->
    (forall i j, k <= i < cols -> j < rows -> is_Some (cell data i j)) ->
    domain.invert_rows data rows (seq k n) inverted
    = Ok (take k inverted ++ map (column data rows) (seq k n)).
Proof.
  induction n as [|n IH]; intros k inverted Hk Hlen Hcells; simpl.
  - rewrite app_nil_r, firstn_all2 by lia. reflexivity.
  - rewrite set_at_Ok by lia. simpl.
    rewrite (invert_cells_ok data k rows rows 0 _ (replicate rows 0%Z)).
    + simpl. rewrite list_insert_insert_eq.
      rewrite (IH (S k)).
      * rewrite take_S_insert by lia. rewrite <- app_assoc. reflexivity.
      * lia.
      * rewrite length_insert. assumption.
      * intros i j Hi Hj. apply Hcells; lia.
    + lia.
    + apply list_lookup_insert_eq. lia.
    + apply length_replicate.
    + intros j Hj. apply Hcells; lia.
Qed.

(** The loops of [invert] fail only by a panic, and a run that completes has
    read every cell it visited. *)
Lemma invert_cells_inv data i js :
  forall inverted,
    match domain.invert_cells data i js inverted with
    | Ok _ => Forall (fun j => is_Some (cell data i j)) js
    | Err _ => False
    | Panic => True
    end.
Proof.
  induction js as [|j js IH]; intros inverted; simpl.
  - constructor.
  - unfold domain.get_at, domain.set_at.
    destruct (data !! j) as [src|] eqn:Hsrc; simpl; [|exact I].
    destruct (src !! i) as [v|] eqn:Hv; simpl; [|exact I].
    destruct (inverted !! i) as [dst|] eqn:Hdst; simpl; [|exact I].
    destruct (j <? length dst); simpl; [|exact I].
    destruct (i <? length inverted); simpl; [|exact I].
    specialize (IH (<[i := <[j := v]> dst]> inverted)).
    destruct (domain.invert_cells data i js _); auto.
    constructor; auto. unfold cell. rewrite Hsrc. simpl. rewrite Hv. eauto.
Qed.

Lemma invert_rows_inv data rows is_ :
  forall inverted,
    match domain.invert_rows data rows is_ inverted with
    | Ok _ => Forall (fun i => Forall (fun j => is_Some (cell data i j)) (seq 0 rows)) is_
    | Err _ => False
    | Panic => True
    end.
Proof.
  induction is_ as [|i is_ IH]; intros inverted; simpl.
  - constructor.
  - unfold domain.set_at.
    destruct (i <? length inverted); simpl; [|exact I].
    pose proof (invert_cells_inv data i (seq 0 rows)
                  (<[i := replicate rows 0%Z]> inverted)) as Hc.
    destruct (domain.invert_cells data i (seq 0 rows) _) as [inv'| |]; simpl; auto.
    specialize (IH inv').
    destruct (domain.invert_rows data rows is_ inv'); auto.
Qed.

End invert_loops.

(** ** Rendering *)

Lemma append_assoc (a b c : string) : (a +:+ b) +:+ c = a +:+ (b +:+ c).
Proof.
  induction a as [|x a IH]; [reflexivity|].
  change (String x ((a +:+ b) +:+ c) = String x (a +:+ (b +:+ c))).
  rewrite IH. reflexivity.
Qed.

Lemma append_nil_r (a : string) : a +:+ "" = a.
Proof.
  induction a as [|x a IH]; [reflexivity|].
  change (String x (a +:+ "") = String x a). rewrite IH. reflexivity.
Qed.

Lemma write_row_spec row :
  forall (j : nat) (builder : string),
    domain.write_row j row builder
    = builder +:+ match row with
                  | [] => ""
                  | _ => (if (0 <? j)%nat then "," else "") +:+ render_row row
                  end.
Proof.
  unfold render_row.
  induction row as [|v rest IH]; intros j builder; simpl domain.write_row.
  - rewrite append_nil_r. reflexivity.
  - rewrite IH. destruct rest as [|r rest'].
    + simpl. destruct (0 <? j)%nat; rewrite ?append_nil_r, ?append_assoc; reflexivity.
    + change (0 <? S j)%nat with true.
      change (map strconv.FormatInt (v :: r :: rest'))
        with (strconv.FormatInt v :: map strconv.FormatInt (r :: rest')).
      change (String.concat "," (strconv.FormatInt v :: map strconv.FormatInt (r :: rest')))
        with (strconv.FormatInt v +:+ "," +:+ String.concat "," (map strconv.FormatInt (r :: rest'))).
      destruct (0 <? j)%nat; rewrite ?append_assoc; reflexivity.
Qed.

Lemma write_row_0 row builder :
  domain.write_row 0 row builder = builder +:+ render_row row.
Proof.
  rewrite write_row_spec. destruct row; reflexivity.
Qed.

Lemma write_rows_spec rows :
  forall (n i : nat) (builder : string),
    n = (i + length rows)%nat ->
    domain.write_rows n i rows builder = builder +:+ render rows.
Proof.
  unfold render.
  induction rows as [|row rest IH]; intros n i builder Hn; simpl domain.write_rows.
  - rewrite append_nil_r. reflexivity.
  - rewrite write_row_0. destruct rest as [|r rest'].
    + simpl in Hn. destruct (Z.ltb_spec (Z.of_nat i) (Z.of_nat n - 1)); [lia|].
      simpl. reflexivity.
    + simpl in Hn. destruct (Z.ltb_spec (Z.of_nat i) (Z.of_nat n - 1)); [|lia].
      rewrite (IH n (S i)) by (simpl; lia).
      change (map render_row (row :: r :: rest'))
        with (render_row row :: map render_row (r :: rest')).
      change (String.concat domain.LF (render_row row :: map render_row (r :: rest')))
        with (render_row row +:+ domain.LF +:+ String.concat domain.LF (map render_row (r :: rest'))).
      rewrite ?append_assoc. reflexivity.
Qed.

Section invert_results.
Local Open Scope nat_scope.

Lemma hd_lookup {A} (l : list (list A)) : l <> [] -> l !! 0 = Some (hd [] l).
Proof. destruct l; [contradiction | reflexivity]. Qed.

Lemma cell_in_range data i j row :
  data !! j = Some row -> i < length row -> is_Some (cell data i j).
Proof.
  intros Hrow Hi. unfold cell. rewrite Hrow. simpl.
  apply lookup_lt_is_Some. assumption.
Qed.

(** [invert] on a matrix whose rows are all at least as long as the first. *)
Lemma invert_long_rows data :
  data <> [] ->
  Forall (fun row => length (hd [] data) <= length row) data ->
  domain.invert (Some {| Data := data |}) = Ok (render (transpose data)).
Proof.
  intros Hne Hlong. unfold domain.invert. rewrite guarded_nonempty by assumption.
  rewrite (get_at_Ok _ _ _ (hd_lookup data Hne)). simpl.
  rewrite (invert_rows_ok data (length data) (length (hd [] data)) (length (hd [] data)) 0).
  - simpl. rewrite write_rows_spec by reflexivity. reflexivity.
  - lia.
  - apply length_replicate.
  - intros i j Hi Hj.
    destruct (lookup_lt_is_Some_2 data j Hj) as [row Hrow].
    apply (cell_in_range data i j row Hrow).
    assert (Hin : row ∈ data) by (eapply list_elem_of_lookup_2; eauto).
    rewrite Forall_forall in Hlong. specialize (Hlong row Hin). lia.
Qed.

(** [invert] on a matrix with a row shorter than the first. *)
Lemma invert_short_row data :
  data <> [] ->
  Exists (fun row => length row < length (hd [] data)) data ->
  domain.invert (Some {| Data := data |}) = Panic.
Proof.
  intros Hne Hshort. unfold domain.invert. rewrite guarded_nonempty by assumption.
  rewrite (get_at_Ok _ _ _ (hd_lookup data Hne)). simpl.
  pose proof (invert_rows_inv data (length data) (seq 0 (length (hd [] data)))
                (replicate (length (hd [] data)) [])) as Hinv.
  destruct (domain.invert_rows _ _ _ _) as [inverted|e|]; [|contradiction|reflexivity].
  exfalso.
  apply Exists_exists in Hshort as (row & Hin & Hlen).
  apply list_elem_of_lookup in Hin as [j Hj].
  rewrite Forall_forall in Hinv.
  specialize (Hinv (length row) ltac:(apply elem_of_seq; lia)).
  rewrite Forall_forall in Hinv.
  assert (Hjlt : j < length data) by (eapply lookup_lt_Some; eauto).
  specialize (Hinv j ltac:(apply elem_of_seq; lia)).
  unfold cell in Hinv. rewrite Hj in Hinv. simpl in Hinv.
  destruct Hinv as [x Hx]. apply lookup_lt_Some in Hx. lia.
Qed.

Lemma transpose_length data : length (transpose data) = length (hd [] data).
Proof. unfold transpose. rewrite length_map, length_seq. reflexivity. Qed.

Lemma transpose_rows data :
  Forall (fun r => length r = length data) (transpose data).
Proof.
  unfold transpose. apply List.Forall_forall. intros r Hr.
  apply in_map_iff in Hr as (i & <- & _).
  unfold column. rewrite length_map, length_seq. reflexivity.
Qed.

Lemma transpose_entry data i j x :
  j < length (hd [] data) -> entry data i j = Some x ->
  entry (transpose data) j i = Some x.
Proof.
  intros Hj Hx. unfold entry, cell in *.
  destruct (data !! i) as [row|] eqn:Hrow; simpl in Hx; [|discriminate].
  assert (Hi : i < length data) by (eapply lookup_lt_Some; eauto).
  unfold transpose.
  change (map (column data (length data)) (seq 0 (length (hd [] data))))
    with (column data (length data) <$> seq 0 (length (hd [] data))).
  rewrite list_lookup_fmap, lookup_seq_lt by assumption. simpl.
  unfold column.
  change (map (fun j0 => default 0%Z (cell data j j0)) (seq 0 (length data)))
    with ((fun j0 => default 0%Z (cell data j j0)) <$> seq 0 (length data)).
  rewrite list_lookup_fmap, lookup_seq_lt by assumption. simpl.
  unfold cell. rewrite Hrow. simpl. rewrite Hx. reflexivity.
Qed.

End invert_results.

(** C4: on a non-empty rectangular matrix with [R] rows and [C] columns,
    square or not, [invert] returns the rendering of a matrix [T] of [C]
    rows and [R] columns whose element [(j, i)] is element [(i, j)] of the
    input; elements of a row are joined by commas and rows by a single line
    break, with no line break at the end. *)
Theorem invert_renders_transpose :
  forall (data : list (list Z)) (R C : nat),
    data <> [] ->
    length data = R ->
    Forall (fun row => length row = C) data ->
    exists T : list (list Z),
      domain.invert (Some {| Data := data |}) = Ok (render T) /\
      length T = C /\
      Forall (fun r => length r = R) T /\
      (forall i j, (i < R)%nat -> (j < C)%nat ->
         exists x, entry data i j = Some x /\ entry T j i = Some x).
Proof.
  intros data R C Hne HR Hrect.
  assert (HC : length (hd [] data) = C).
  { destruct data as [|row0 rest]; [contradiction|].
    inversion Hrect; subst. reflexivity. }
  exists (transpose data). split; [|split; [|split]].
  - apply invert_long_rows; [assumption|].
    eapply Forall_impl; [exact Hrect|]. intros row Hrow. simpl in Hrow. lia.
  - rewrite transpose_length. assumption.
  - rewrite <- HR. apply transpose_rows.
  - intros i j Hi Hj.
    destruct (lookup_lt_is_Some_2 data i ltac:(lia)) as [row Hrow].
    assert (Hlen : length row = C).
    { rewrite Forall_forall in Hrect. apply Hrect.
      eapply list_elem_of_lookup_2; eauto. }
    destruct (lookup_lt_is_Some_2 row j ltac:(lia)) as [x Hx].
    assert (He : entry data i j = Some x).
    { unfold entry, cell. rewrite Hrow. simpl. exact Hx. }
    exists x. split; [exact He|].
    apply transpose_entry; [lia | exact He].
Qed.

Lemma invert_renders_transpose_witness :
  exists T : list (list Z),
    domain.invert (Some {| Data := [[1; 2; 3]; [4; 5; 6]] |}) = Ok (render T) /\
    length T = 3%nat /\
    Forall (fun r => length r = 2%nat) T /\
    (forall i j, (i < 2)%nat -> (j < 3)%nat ->
       exists x, entry [[1; 2; 3]; [4; 5; 6]] i j = Some x /\ entry T j i = Some x).
Proof.
  apply (invert_renders_transpose [[1; 2; 3]; [4; 5; 6]] 2 3).
  - discriminate.
  - reflexivity.
  - repeat constructor.
Defined.

(** The example of the specification, as rendered text. *)
Example invert_2x3 :
  domain.invert (Some {| Data := [[1; 2; 3]; [4; 5; 6]] |})
  = Ok ("1,4" +:+ domain.LF +:+ "2,5" +:+ domain.LF +:+ "3,6").
Proof. reflexivity. Qed.

(** ** Totality of the operations *)

(** C10: [invert] guards against a nil or zero-row matrix only.  On a
    non-empty matrix it panics (index out of range) exactly when some row is
    shorter than the first row, and returns text exactly when every row has
    at least the first row's length; [RunOperation] passes the matrix to it
    unchecked.  [echo], [flatten], [sum] and [multiply] return text on every
    non-empty matrix. *)
Theorem invert_partial_others_total :
  forall data : list (list Z),
    data <> [] ->
    let m := Some {| Data := data |} in
    (domain.invert m = Panic <->
       Exists (fun row => (length row < length (hd [] data))%nat) data) /\
    ((exists text, domain.invert m = Ok text) <->
       Forall (fun row => (length (hd [] data) <= length row)%nat) data) /\
    domain.RunOperation Background m domain.InvertOperation = domain.invert m /\
    (exists text, domain.echo m = Ok text) /\
    (exists text, domain.flatten m = Ok text) /\
    (exists text, domain.sum m = Ok text) /\
    (exists text, domain.multiply m = Ok text) /\
    (exists e, domain.invert None = Err e /\ errors.Is e ErrInvalidInput = true) /\
    (exists e, domain.invert (Some {| Data := [] |}) = Err e /\
               errors.Is e ErrInvalidInput = true).
Proof.
  intros data Hne m. subst m.
  assert (Hdec : Forall (fun row => (length (hd [] data) <= length row)%nat) data \/
                 Exists (fun row => (length row < length (hd [] data))%nat) data).
  { destruct (Forall_Exists_dec
                (fun row : list Z => (length (hd [] data) <= length row)%nat)
                (fun row : list Z => (length row < length (hd [] data))%nat)
                (fun row => le_lt_dec (length (hd [] data)) (length row)) data) as [H|H];
      [left | right]; exact H. }
  split; [|split; [|split; [|split; [|split; [|split; [|split; [|split]]]]]]].
  - split.
    + intros Hp. destruct Hdec as [H|H]; [|exact H].
      rewrite (invert_long_rows data Hne H) in Hp. discriminate.
    + apply invert_short_row. assumption.
  - split.
    + intros [text Hok]. destruct Hdec as [H|H]; [exact H|].
      rewrite (invert_short_row data Hne H) in Hok. discriminate.
    + intros H. eexists. apply invert_long_rows; assumption.
  - reflexivity.
  - unfold domain.echo. rewrite guarded_nonempty by assumption. eauto.
  - unfold domain.flatten. rewrite guarded_nonempty by assumption. eauto.
  - unfold domain.sum. rewrite guarded_nonempty by assumption. eauto.
  - unfold domain.multiply. rewrite guarded_nonempty by assumption. eauto.
  - eexists. split; reflexivity.
  - eexists. split; reflexivity.
Qed.

Lemma invert_partial_others_total_witness :
  domain.invert (Some {| Data := [[1; 2]; [3]] |}) = Panic /\
  domain.RunOperation Background (Some {| Data := [[1; 2]; [3]] |}) domain.InvertOperation
    = Panic /\
  (exists text, domain.echo (Some {| Data := [[1; 2]; [3]] |}) = Ok text).
Proof.
  pose proof (invert_partial_others_total [[1; 2]; [3]] ltac:(discriminate)) as H.
  simpl in H. destruct H as (Hp & _ & Hrun & Hecho & _).
  assert (Hpanic : domain.invert (Some {| Data := [[1; 2]; [3]] |}) = Panic).
  { apply Hp. right. left. simpl. lia. }
  split; [exact Hpanic|]. split; [|exact Hecho].
  rewrite Hrun. exact Hpanic.
Defined.

(** ** Path validation *)

Section string_search.
Local Open Scope nat_scope.

Lemma append_cons c (a b : string) : String c a +:+ b = String c (a +:+ b).
Proof. reflexivity. Qed.

Lemma length_append (a b : string) :
  String.length (a +:+ b) = String.length a + String.length b.
Proof.
  induction a as [|c a IH]; [reflexivity|].
  rewrite append_cons. simpl. rewrite IH. reflexivity.
Qed.

Lemma substring_prefix (p t : string) : substring 0 (String.length p) (p +:+ t) = p.
Proof.
  induction p as [|c p IH].
  - destruct t; reflexivity.
  - rewrite append_cons. simpl. rewrite IH. reflexivity.
Qed.

Lemma substring_prefix_inv (p : string) :
  forall s, substring 0 (String.length p) s = p -> exists t, s = p +:+ t.
Proof.
  induction p as [|c p IH]; intros s H.
  - exists s. reflexivity.
  - destruct s as [|c' s']; simpl in H; [discriminate|].
    injection H as -> H. destruct (IH s' H) as [t ->].
    exists t. reflexivity.
Qed.

Lemma substring_all (s : string) : substring 0 (String.length s) s = s.
Proof. induction s as [|c s IH]; simpl; [reflexivity | rewrite IH; reflexivity]. Qed.

Lemma substring_suffix (h t : string) :
  substring (String.length h) (String.length t) (h +:+ t) = t.
Proof.
  induction h as [|c h IH].
  - apply substring_all.
  - rewrite append_cons. simpl. exact IH.
Qed.

Lemma substring_split (s : string) :
  forall k n, k + n = String.length s -> s = substring 0 k s +:+ substring k n s.
Proof.
  induction s as [|c s IH]; intros k n H; simpl in H.
  - assert (k = 0) by lia. assert (n = 0) by lia. subst. reflexivity.
  - destruct k as [|k].
    + simpl in H. subst n. simpl. rewrite substring_all. reflexivity.
    + simpl. rewrite append_cons. f_equal. apply IH. lia.
Qed.

Lemma HasPrefix_spec (s p : string) :
  Strings.HasPrefix s p = true <-> exists t, s = p +:+ t.
Proof.
  unfold Strings.HasPrefix. rewrite andb_true_iff, Nat.leb_le, String.eqb_eq. split.
  - intros [_ H]. apply substring_prefix_inv. exact H.
  - intros [t ->]. rewrite length_append, substring_prefix. split; [lia | reflexivity].
Qed.

Lemma HasSuffix_spec (s suffix : string) :
  Strings.HasSuffix s suffix = true <-> exists h, s = h +:+ suffix.
Proof.
  unfold Strings.HasSuffix. rewrite andb_true_iff, Nat.leb_le, String.eqb_eq. split.
  - intros [Hle H].
    exists (substring 0 (String.length s - String.length suffix) s).
    pose proof (substring_split s (String.length s - String.length suffix)
                  (String.length suffix) ltac:(lia)) as Hs.
    rewrite H in Hs. exact Hs.
  - intros [h ->]. rewrite length_append. split; [lia|].
    replace (String.length h + String.length suffix - String.length suffix)
      with (String.length h) by lia.
    apply substring_suffix.
Qed.

Lemma Index_from_spec (s substr : string) :
  forall i : Z,
    (0 <= i)%Z ->
    ((0 <=? Strings.Index_from i s substr)%Z = true <->
     exists a b, s = a +:+ substr +:+ b).
Proof.
  induction s as [|c s IH]; intros i Hi; simpl.
  - destruct (Strings.HasPrefix "" substr) eqn:Hp.
    + apply HasPrefix_spec in Hp as [t Ht]. split.
      * intros _. exists "", t. exact Ht.
      * intros _. apply Z.leb_le. exact Hi.
    + split; [discriminate|]. intros (a & b & H).
      destruct a as [|x a]; [|discriminate].
      assert (Hp' : Strings.HasPrefix "" substr = true)
        by (apply HasPrefix_spec; exists b; exact H).
      congruence.
  - destruct (Strings.HasPrefix (String c s) substr) eqn:Hp.
    + apply HasPrefix_spec in Hp as [t Ht]. split.
      * intros _. exists "", t. exact Ht.
      * intros _. apply Z.leb_le. exact Hi.
    + rewrite IH by lia. split.
      * intros (a & b & ->). exists (String c a), b. reflexivity.
      * intros (a & b & H). destruct a as [|x a].
        -- assert (Hp' : Strings.HasPrefix (String c s) substr = true)
             by (apply HasPrefix_spec; exists b; exact H).
           congruence.
        -- rewrite append_cons in H. injection H as _ H. exists a, b. exact H.
Qed.

Lemma Contains_spec (s substr : string) :
  Strings.Contains s substr = true <-> exists a b, s = a +:+ substr +:+ b.
Proof. unfold Strings.Contains, Strings.Index. apply Index_from_spec. lia. Qed.

End string_search.

(** C6: under a live context, [ValidateFilePath] returns no error exactly
    when the path is non-empty, has no [..] anywhere, starts with
    [testdata/] and ends with [.csv]; every error it returns is classified
    [InvalidInput].  The function reads nothing but the path, so whether the
    file exists plays no part. *)
Theorem ValidateFilePath_accepts_iff :
  forall filePath : string,
    (domain.ValidateFilePath Background filePath = None <->
       filePath <> "" /\
       ~ (exists a b, filePath = a +:+ ".." +:+ b) /\
       (exists rest, filePath = "testdata/" +:+ rest) /\
       (exists stem, filePath = stem +:+ ".csv")) /\
    (forall e, domain.ValidateFilePath Background filePath = Some e ->
               errors.Is e ErrInvalidInput = true).
Proof.
  intros filePath. unfold domain.ValidateFilePath. simpl.
  rewrite <- Contains_spec, <- HasPrefix_spec, <- HasSuffix_spec.
  destruct (String.eqb_spec filePath "") as [He|He].
  { split; [|intros e [= <-]; reflexivity].
    split; [discriminate | intros [H _]; contradiction]. }
  destruct (Strings.Contains filePath "..").
  { split; [|intros e [= <-]; reflexivity].
    split; [discriminate | intros (_ & H & _); exfalso; apply H; reflexivity]. }
  destruct (Strings.HasPrefix filePath "testdata/"); simpl.
  2: { split; [|intros e [= <-]; reflexivity].
       split; [discriminate | intros (_ & _ & H & _); discriminate]. }
  destruct (Strings.HasSuffix filePath ".csv"); simpl.
  2: { split; [|intros e [= <-]; reflexivity].
       split; [discriminate | intros (_ & _ & _ & H); discriminate]. }
  split; [|discriminate].
  split; [|reflexivity]. intros _. repeat split; auto; discriminate.
Qed.

Example ValidateFilePath_examples :
  domain.ValidateFilePath Background "testdata/x.csv" = None /\
  (exists e, domain.ValidateFilePath Background "../secret.csv" = Some e) /\
  (exists e, domain.ValidateFilePath Background "testdata/../x.csv" = Some e) /\
  (exists e, domain.ValidateFilePath Background "testdata/x.txt" = Some e) /\
  (exists e, domain.ValidateFilePath Background "data/x.csv" = Some e).
Proof. vm_compute. repeat split; eexists; reflexivity. Qed.

(** ** Scanning a field *)

Lemma byte_bound c : 0 <= byte c < 256.
Proof.
  unfold byte. pose proof (N_ascii_bounded c). lia.
Qed.

Lemma digit_cases r :
  is_digit r ->
  r = 48 \/ r = 49 \/ r = 50 \/ r = 51 \/ r = 52 \/
  r = 53 \/ r = 54 \/ r = 55 \/ r = 56 \/ r = 57.
Proof. unfold is_digit. lia. Qed.

Ltac by_digit_cases H :=
  apply digit_cases in H;
  repeat (destruct H as [H|H]; [subst; reflexivity|]); subst; reflexivity.

Lemma digit_indexRune r : is_digit r -> fmt.indexRune fmt.decimalDigits r = true.
Proof. intros H. by_digit_cases H. Qed.

Lemma digit_not_sign r : is_digit r -> fmt.indexRune fmt.sign r = false.
Proof. intros H. by_digit_cases H. Qed.

Lemma digit_not_space r :
  is_digit r -> (r =? 13) = false /\ (r =? 10) = false /\ fmt.isSpace r = false.
Proof.
  intros H. apply digit_cases in H.
  repeat (destruct H as [H|H]; [subst; repeat split; reflexivity|]).
  subst; repeat split; reflexivity.
Qed.

Lemma SkipSpace_stops r rest :
  (r =? 13) = false -> (r =? 10) = false -> fmt.isSpace r = false ->
  fmt.SkipSpace (r :: rest) = Ok (r :: rest).
Proof. intros H13 H10 Hs. simpl. rewrite H13, H10, Hs. reflexivity. Qed.

Lemma accept_all_digits ds :
  forall buf, Forall is_digit ds ->
              fmt.accept_all fmt.decimalDigits buf ds = (buf ++ ds, []).
Proof.
  induction ds as [|d ds IH]; intros buf H.
  - simpl. rewrite app_nil_r. reflexivity.
  - inversion H as [|? ? Hd Hds]; subst.
    cbn [fmt.accept_all]. rewrite (digit_indexRune d Hd).
    rewrite IH by assumption. rewrite <- app_assoc. reflexivity.
Qed.

Lemma scanNumber_digits buf d ds :
  is_digit d -> Forall is_digit ds ->
  fmt.scanNumber fmt.decimalDigits buf (d :: ds) = Ok (buf ++ d :: ds, []).
Proof.
  intros Hd Hds. unfold fmt.scanNumber, fmt.notEOF, fmt.accept.
  cbn [mbind result_bind].
  rewrite (digit_indexRune d Hd). cbn [negb].
  rewrite accept_all_digits by assumption.
  rewrite <- app_assoc. reflexivity.
Qed.

Lemma scanInt_unsigned d ds :
  is_digit d -> Forall is_digit ds ->
  fmt.scanInt (d :: ds) = (i ← parsed (d :: ds); Ok (i, [])).
Proof.
  intros Hd Hds. unfold fmt.scanInt.
  destruct (digit_not_space d Hd) as (H13 & H10 & Hsp).
  rewrite SkipSpace_stops by assumption.
  unfold fmt.notEOF, fmt.accept. cbn [mbind result_bind].
  rewrite (digit_not_sign d Hd).
  rewrite scanNumber_digits by assumption. cbn [mbind result_bind app].
  unfold parsed. destruct (strconv.ParseInt (d :: ds)); reflexivity.
Qed.

Lemma scanInt_signed sg d ds :
  sg = 43 \/ sg = 45 -> is_digit d -> Forall is_digit ds ->
  fmt.scanInt (sg :: d :: ds) = (i ← parsed (sg :: d :: ds); Ok (i, [])).
Proof.
  intros Hsg Hd Hds. unfold fmt.scanInt.
  rewrite SkipSpace_stops by (destruct Hsg; subst; reflexivity).
  unfold fmt.notEOF, fmt.accept. cbn [mbind result_bind].
  assert (Hs : fmt.indexRune fmt.sign sg = true) by (destruct Hsg; subst; reflexivity).
  rewrite Hs.
  rewrite scanNumber_digits by assumption. cbn [mbind result_bind app].
  unfold parsed. destruct (strconv.ParseInt (sg :: d :: ds)); reflexivity.
Qed.

Lemma DecodeRune_ascii c s :
  byte c < 128 -> utf8.DecodeRuneInString (String c s) = (byte c, 1%nat).
Proof.
  intros H. unfold utf8.DecodeRuneInString.
  change (String.length (String c s)) with (S (String.length s)).
  change (S (String.length s) <? 1)%nat with false. cbn iota.
  change (utf8.at_ (String c s) 0) with (byte c).
  unfold utf8.first.
  destruct (Z.ltb_spec (byte c) 128); [|lia]. reflexivity.
Qed.

Lemma runes_ascii s :
  Forall (fun c => byte c < 128) (list_ascii_of_string s) ->
  utf8.runes s = map byte (list_ascii_of_string s).
Proof.
  unfold utf8.runes. induction s as [|c s IH]; intros H.
  - reflexivity.
  - simpl in H. inversion H as [|? ? Hc Hs]; subst.
    cbn [utf8.runes_from list_ascii_of_string map].
    rewrite DecodeRune_ascii by assumption.
    cbn [Nat.sub]. rewrite IH by assumption. reflexivity.
Qed.

Lemma digit_value_Some c d :
  digit_value c = Some d -> is_digit (byte c) /\ d = byte c - 48.
Proof.
  unfold digit_value, is_digit.
  destruct (Z.leb_spec 48 (byte c)); destruct (Z.leb_spec (byte c) 57);
    simpl; intros [= <-]; lia.
Qed.

Lemma decimal_from_digits cs :
  forall acc v, decimal_from acc cs = Some v -> Forall is_digit (map byte cs).
Proof.
  induction cs as [|c cs IH]; intros acc v H; simpl in *.
  - constructor.
  - destruct (digit_value c) as [d|] eqn:Hd; [|discriminate].
    apply digit_value_Some in Hd as [Hd _].
    constructor; [assumption | eapply IH; eauto].
Qed.

(** One step of the digit loop on a decimal digit: either a range error, or
    the exact value [10 * n + d]. *)
Lemma ParseUint_loop_digit c cs n :
  is_digit c -> 0 <= n ->
  strconv.ParseUint_loop (c :: cs) n = Err strconv.ErrRange \/
  (10 * n + (c - 48) < 2 ^ 64 /\
   strconv.ParseUint_loop (c :: cs) n = strconv.ParseUint_loop cs (10 * n + (c - 48))).
Proof.
  intros Hc Hn. unfold is_digit in Hc. cbn [strconv.ParseUint_loop].
  destruct (Z.leb_spec 48 c); [|lia]. destruct (Z.leb_spec c 57); [|lia].
  cbn [andb]. destruct (Z.leb_spec 10 (c - 48)); [lia|].
  unfold maxUint64.
  change (2 ^ 64) with 18446744073709551616.
  change ((18446744073709551616 - 1) / 10 + 1) with 1844674407370955162.
  destruct (Z.leb_spec 1844674407370955162 n); [left; reflexivity|].
  destruct (Z_lt_dec (n * 10 + (c - 48)) 18446744073709551616) as [Hlt|Hge].
  - rewrite Z.mod_small by lia.
    destruct (Z.ltb_spec (n * 10 + (c - 48)) (n * 10)); [lia|].
    destruct (Z.ltb_spec (18446744073709551616 - 1) (n * 10 + (c - 48))); [lia|].
    right. split; [lia|]. cbn [orb]. f_equal. lia.
  - left.
    assert (Hm : (n * 10 + (c - 48)) mod 18446744073709551616
                 = n * 10 + (c - 48) - 18446744073709551616).
    { symmetry. apply (Z.mod_unique _ _ 1); lia. }
    rewrite Hm.
    destruct (Z.ltb_spec (n * 10 + (c - 48) - 18446744073709551616) (n * 10)); [|lia].
    reflexivity.
Qed.

Lemma ParseUint_loop_value cs :
  forall n u v,
    0 <= n ->
    strconv.ParseUint_loop (map byte cs) n = Ok u ->
    decimal_from n cs = Some v ->
    u = v.
Proof.
  induction cs as [|c cs IH]; intros n u v Hn Hu Hv.
  - simpl in *. congruence.
  - cbn [decimal_from] in Hv. cbn [map] in Hu.
    destruct (digit_value c) as [d|] eqn:Hd; [|discriminate].
    apply digit_value_Some in Hd as [Hc ->].
    destruct (ParseUint_loop_digit (byte c) (map byte cs) n Hc Hn) as [He|[Hlt He]];
      rewrite He in Hu; [discriminate|].
    unfold is_digit in Hc. eapply IH; [|exact Hu|exact Hv]. lia.
Qed.

(** Whatever the token, a value the digit loop returns is a [uint64]. *)
Lemma ParseUint_loop_range ds :
  forall n u,
    0 <= n < 2 ^ 64 ->
    strconv.ParseUint_loop ds n = Ok u -> 0 <= u < 2 ^ 64.
Proof.
  induction ds as [|c ds IH]; intros n u Hn Hu.
  - simpl in Hu. injection Hu as <-. exact Hn.
  - cbn [strconv.ParseUint_loop] in Hu.
    destruct (if (48 <=? c) && (c <=? 57) then Some (c - 48)
              else if (97 <=? strconv.lower c) && (strconv.lower c <=? 122)
                   then Some (strconv.lower c - 97 + 10) else None) as [d|];
      [|discriminate].
    destruct (10 <=? d); [discriminate|].
    destruct (maxUint64 / 10 + 1 <=? n); [discriminate|].
    destruct ((n * 10 + d) mod 2 ^ 64 <? n * 10) eqn:H1; [discriminate|].
    destruct (maxUint64 <? (n * 10 + d) mod 2 ^ 64) eqn:H2; [discriminate|].
    cbn [orb] in Hu. eapply IH; [|exact Hu].
    apply Z.mod_pos_bound. reflexivity.
Qed.

Lemma ParseInt_range tok i :
  strconv.ParseInt tok = Ok i -> minInt64 <= i <= maxInt64.
Proof.
  unfold strconv.ParseInt. destruct tok as [|c rest]; [discriminate|].
  set (ns := if c =? 43 then (false, rest)
             else if c =? 45 then (true, rest) else (false, c :: rest)).
  destruct ns as [neg s]. unfold strconv.ParseUint.
  assert (Hr : forall u, strconv.ParseUint_loop s 0 = Ok u -> 0 <= u < 2 ^ 64).
  { intros u. apply ParseUint_loop_range. split; [lia | reflexivity]. }
  destruct s as [|c' s']; [discriminate|].
  destruct (strconv.ParseUint_loop (c' :: s') 0) as [un| |]; cbn [mbind result_bind];
    try discriminate.
  specialize (Hr un eq_refl). unfold minInt64, maxInt64.
  change (2 ^ 63) with 9223372036854775808 in *.
  destruct neg; cbn [negb andb].
  - destruct (Z.ltb_spec 9223372036854775808 un); [discriminate|].
    intros [= <-]. lia.
  - destruct (Z.leb_spec 9223372036854775808 un); [discriminate|].
    intros [= <-]. lia.
Qed.

Lemma ParseInt_value sg cs i v :
  cs <> [] ->
  strconv.ParseInt (sg ++ map byte cs) = Ok i ->
  decimal_from 0 cs = Some v ->
  (sg = [] -> i = v) /\ (sg = [43] -> i = v) /\ (sg = [45] -> i = - v).
Proof.
  intros Hne Hi Hv.
  pose proof (decimal_from_digits cs 0 v Hv) as Hds.
  destruct cs as [|c cs]; [contradiction|].
  inversion Hds as [|? ? Hc _]; subst.
  assert (Hu : forall un, strconv.ParseUint (map byte (c :: cs)) = Ok un -> un = v).
  { intros un H. unfold strconv.ParseUint in H. cbn [map] in H.
    eapply (ParseUint_loop_value (c :: cs) 0); [lia|exact H|exact Hv]. }
  unfold is_digit in Hc.
  split; [|split]; intros ->; cbn [app] in Hi; unfold strconv.ParseInt in Hi.
  - cbn [map] in Hi.
    destruct (Z.eqb_spec (byte c) 43); [lia|].
    destruct (Z.eqb_spec (byte c) 45); [lia|].
    change (byte c :: map byte cs) with (map byte (c :: cs)) in Hi.
    destruct (strconv.ParseUint (map byte (c :: cs))) as [un| |];
      cbn [mbind result_bind negb andb] in Hi; try discriminate.
    rewrite (Hu un eq_refl) in Hi.
    destruct (2 ^ 63 <=? v); [discriminate|]. congruence.
  - change (43 =? 43) with true in Hi. cbn iota in Hi.
    destruct (strconv.ParseUint (map byte (c :: cs))) as [un| |];
      cbn [mbind result_bind negb andb] in Hi; try discriminate.
    rewrite (Hu un eq_refl) in Hi.
    destruct (2 ^ 63 <=? v); [discriminate|]. congruence.
  - change (45 =? 43) with false in Hi. change (45 =? 45) with true in Hi.
    cbn iota in Hi.
    destruct (strconv.ParseUint (map byte (c :: cs))) as [un| |];
      cbn [mbind result_bind negb andb] in Hi; try discriminate.
    rewrite (Hu un eq_refl) in Hi.
    destruct (2 ^ 63 <? v); [discriminate|]. congruence.
Qed.

(** A scanned value always fits an [int64]. *)
Lemma Sscanf_d_range s v :
  fmt.Sscanf_d s = Ok v -> minInt64 <= v <= maxInt64.
Proof.
  unfold fmt.Sscanf_d.
  destruct (fmt.SkipSpace (utf8.runes s)) as [rs| |]; cbn [mbind result_bind];
    try discriminate.
  unfold fmt.scanInt.
  destruct (fmt.SkipSpace rs) as [rs1| |]; cbn [mbind result_bind]; try discriminate.
  destruct (fmt.notEOF rs1); cbn [mbind result_bind]; try discriminate.
  destruct (fmt.accept fmt.sign [] rs1) as [[okd buf] rs2].
  destruct (fmt.scanNumber fmt.decimalDigits buf rs2) as [[tok rs3]| |];
    cbn [mbind result_bind]; try discriminate.
  destruct (strconv.ParseInt tok) as [i| |] eqn:Hp; cbn [mbind result_bind];
    try discriminate.
  intros [= <-]. eapply ParseInt_range; eauto.
Qed.

Lemma Sscanf_d_tokens sg d ds :
  sg = [] \/ sg = [43] \/ sg = [45] ->
  is_digit d -> Forall is_digit ds ->
  fmt.SkipSpace (sg ++ d :: ds) = Ok (sg ++ d :: ds) /\
  fmt.scanInt (sg ++ d :: ds) = (i ← parsed (sg ++ d :: ds); Ok (i, [])).
Proof.
  intros Hsg Hd Hds.
  destruct (digit_not_space d Hd) as (H13 & H10 & Hsp).
  destruct Hsg as [->|[->| ->]]; cbn [app]; split.
  - apply SkipSpace_stops; assumption.
  - apply scanInt_unsigned; assumption.
  - apply SkipSpace_stops; reflexivity.
  - apply scanInt_signed; auto.
  - apply SkipSpace_stops; reflexivity.
  - apply scanInt_signed; auto.
Qed.

(** On a clean decimal integer, a successful scan yields the integer the
    field denotes. *)
Lemma Sscanf_d_clean s z v :
  denoted_integer s = Some z -> fmt.Sscanf_d s = Ok v -> v = z.
Proof.
  unfold denoted_integer, fmt.Sscanf_d.
  destruct (list_ascii_of_string s) as [|c rest] eqn:Hcs; [discriminate|].
  intros Hz.
  assert (Hshape : exists sg cs w,
             c :: rest = sg ++ cs /\ cs <> [] /\ decimal_from 0 cs = Some w /\
             ((sg = [] /\ z = w) \/ (sg = ["+"%char] /\ z = w) \/
              (sg = ["-"%char] /\ z = - w))).
  { destruct (Ascii.eqb_spec c "-") as [->|Hm].
    - destruct rest as [|d ds]; [discriminate|].
      unfold decimal in Hz. destruct (decimal_from 0 (d :: ds)) as [w|] eqn:Hw;
        [|discriminate].
      injection Hz as <-. exists ["-"%char], (d :: ds), w.
      repeat split; auto; discriminate.
    - destruct (Ascii.eqb_spec c "+") as [->|Hp].
      + destruct rest as [|d ds]; [discriminate|].
        exists ["+"%char], (d :: ds), z. repeat split; auto; discriminate.
      + exists [], (c :: rest), z. repeat split; auto; discriminate. }
  destruct Hshape as (sg & cs & w & Hsplit & Hne & Hw & Hsg).
  pose proof (decimal_from_digits cs 0 w Hw) as Hds.
  assert (Hrunes : utf8.runes s = map byte sg ++ map byte cs).
  { rewrite runes_ascii; rewrite Hcs, Hsplit.
    - apply map_app.
    - apply Forall_app. split.
      + destruct Hsg as [[-> _]|[[-> _]|[-> _]]]; repeat constructor.
      + pose proof Hds as Hds2. rewrite List.Forall_map in Hds2.
        eapply List.Forall_impl; [|exact Hds2].
        intros x Hx. unfold is_digit in Hx. lia. }
  rewrite Hrunes.
  destruct cs as [|d ds]; [contradiction|].
  cbn [map] in *. inversion Hds as [|? ? Hd Hds']; subst.
  assert (Hsg' : map byte sg = [] \/ map byte sg = [43] \/ map byte sg = [45]).
  { destruct Hsg as [[-> _]|[[-> _]|[-> _]]]; auto. }
  destruct (Sscanf_d_tokens (map byte sg) (byte d) (map byte ds) Hsg' Hd Hds')
    as [Hskip Hscan].
  rewrite Hskip. cbn [mbind result_bind]. rewrite Hscan.
  unfold parsed.
  destruct (strconv.ParseInt (map byte sg ++ byte d :: map byte ds)) as [i| |] eqn:Hi;
    cbn [mbind result_bind]; try discriminate.
  intros [= <-].
  change (byte d :: map byte ds) with (map byte (d :: ds)) in Hi.
  destruct (ParseInt_value (map byte sg) (d :: ds) i w Hne Hi Hw) as (H0 & Hplus & Hminus).
  destruct Hsg as [[-> ->]|[[-> ->]|[-> ->]]]; auto.
Qed.

(** ** Conversion of the raw content *)

Section convert_loops.
Local Open Scope nat_scope.

Lemma convert_row_Ok i row :
  forall j data data' r,
    data !! i = Some r -> j + length row = length r ->
    domain.convert_row i j row data = Ok data' ->
    exists vals, Forall2 scans row vals /\ data' = <[i := take j r ++ vals]> data.
Proof.
  induction row as [|val rest IH]; intros j data data' r Hr Hj Hok.
  - simpl in *. injection Hok as <-. exists []. split; [constructor|].
    rewrite app_nil_r, firstn_all2 by lia. rewrite list_insert_id by assumption.
    reflexivity.
  - cbn [domain.convert_row] in Hok. simpl in Hj.
    destruct (fmt.Sscanf_d val) as [num| |] eqn:Hscan; try discriminate.
    rewrite (get_at_Ok _ _ _ Hr) in Hok. cbn [mbind result_bind] in Hok.
    rewrite set_at_Ok in Hok by lia. cbn [mbind result_bind] in Hok.
    assert (Hi : i < length data) by (eapply lookup_lt_Some; eauto).
    rewrite set_at_Ok in Hok by assumption. cbn [mbind result_bind] in Hok.
    destruct (IH (S j) (<[i := <[j := num]> r]> data) data' (<[j := num]> r))
      as (vals & Hvals & ->).
    + apply list_lookup_insert_eq. assumption.
    + rewrite length_insert. lia.
    + exact Hok.
    + exists (num :: vals). split; [constructor; assumption|].
      rewrite list_insert_insert_eq, take_S_insert by lia.
      rewrite <- app_assoc. reflexivity.
Qed.

Lemma convert_rows_Ok cols content :
  forall i data data',
    i + length content = length data ->
    domain.convert_rows cols i content data = Ok data' ->
    Forall (fun row => length row = cols) content ->
    exists vals, Forall2 (Forall2 scans) content vals /\ data' = take i data ++ vals.
Proof.
  induction content as [|row rest IH]; intros i data data' Hi Hok Hrect.
  - simpl in *. injection Hok as <-. exists []. split; [constructor|].
    rewrite app_nil_r, firstn_all2 by lia. reflexivity.
  - cbn [domain.convert_rows] in Hok. simpl in Hi.
    inversion Hrect as [|? ? Hrow Hrest]; subst.
    rewrite set_at_Ok in Hok by lia. cbn [mbind result_bind] in Hok.
    destruct (domain.convert_row i 0 row (<[i := replicate (length row) 0%Z]> data))
      as [data2| |] eqn:Hrowok; cbn [mbind result_bind] in Hok; try discriminate.
    apply (convert_row_Ok i row 0 _ data2 (replicate (length row) 0%Z)) in Hrowok.
    + destruct Hrowok as (vals_r & Hvals_r & ->).
      rewrite list_insert_insert_eq in Hok. cbn [take app] in Hok.
      assert (Hlen : S i + length rest = length (<[i := vals_r]> data))
        by (rewrite length_insert; lia).
      destruct (IH (S i) (<[i := vals_r]> data) data' Hlen Hok Hrest)
        as (vals & Hvals & ->).
      exists (vals_r :: vals). split; [constructor; assumption|].
      rewrite take_S_insert by lia. rewrite <- app_assoc. reflexivity.
    + apply list_lookup_insert_eq. lia.
    + rewrite length_replicate. reflexivity.
Qed.

(** What a successful [Validate] returns: the raw content scanned field by
    field. *)
Lemma Validate_Ok rawData m :
  domain.Validate Background rawData = Ok m ->
  exists raw,
    rawData = Some raw /\ Content raw <> [] /\
    Forall (fun row => length row = length (hd [] (Content raw))) (Content raw) /\
    Forall2 (Forall2 scans) (Content raw) (Data m).
Proof.
  unfold domain.Validate. simpl.
  destruct rawData as [[content]|]; [|discriminate]. simpl.
  destruct content as [|row0 rest] eqn:Hc; [discriminate|]. rewrite <- Hc.
  assert (Hhd : hd [] content = row0) by (subst; reflexivity).
  destruct (domain.maxInputMatrixRows <? length content); [discriminate|].
  destruct (domain.maxInputMatrixCols <? length row0); [discriminate|].
  destruct (domain.check_rows (length row0) 0 content) as [e|] eqn:Hchk; [discriminate|].
  apply check_rows_None in Hchk.
  destruct (domain.convert_rows (length row0) 0 content (replicate (length content) []))
    as [data| |] eqn:Hconv; cbn [mbind result_bind]; try discriminate.
  intros [= <-]. simpl.
  apply convert_rows_Ok in Hconv; [|rewrite length_replicate; reflexivity|assumption].
  destruct Hconv as (vals & Hvals & ->). cbn [take app].
  exists {| Content := content |}. simpl. rewrite Hhd.
  split; [reflexivity|]. split; [subst; discriminate|]. split; assumption.
Qed.

End convert_loops.

(** C3: when [Validate] succeeds under a live context, the matrix has as
    many rows as the raw content, every row of both has the length of the
    first raw row, every element is an [int64], and the element at [(i, j)]
    is the value scanned from raw field [(i, j)], which is the integer the
    field denotes whenever the field is a clean decimal integer. *)
Theorem Validate_success_matrix :
  forall (rawData : option MatrixFileContent) (m : Matrix),
    domain.Validate Background rawData = Ok m ->
    exists raw : MatrixFileContent,
      rawData = Some raw /\
      length (Data m) = length (Content raw) /\
      Forall (fun row => length row = length (hd [] (Content raw))) (Content raw) /\
      Forall (fun row => length row = length (hd [] (Content raw))) (Data m) /\
      (forall i j field,
          field_at raw i j = Some field ->
          exists v, entry (Data m) i j = Some v /\
                    fmt.Sscanf_d field = Ok v /\
                    minInt64 <= v <= maxInt64 /\
                    (forall z, denoted_integer field = Some z -> v = z)).
Proof.
  intros rawData m Hok.
  destruct (Validate_Ok rawData m Hok) as (raw & -> & Hne & Hrect & Hscan).
  exists raw. split; [reflexivity|]. split; [|split; [|split]].
  - symmetry. eapply Forall2_length; eauto.
  - exact Hrect.
  - apply Forall_forall. intros mrow Hin.
    apply list_elem_of_lookup in Hin as [i Hi].
    destruct (Forall2_lookup_r _ _ _ _ _ Hscan Hi) as (row & Hrow & Hrs).
    rewrite <- (Forall2_length _ _ _ Hrs).
    rewrite Forall_forall in Hrect. apply Hrect.
    eapply list_elem_of_lookup_2; eauto.
  - intros i j field Hf. unfold field_at in Hf.
    destruct (Content raw !! i) as [row|] eqn:Hrow; simpl in Hf; [|discriminate].
    destruct (Forall2_lookup_l _ _ _ _ _ Hscan Hrow) as (mrow & Hmrow & Hrs).
    destruct (Forall2_lookup_l _ _ _ _ _ Hrs Hf) as (v & Hv & Hsv).
    exists v. split; [|split; [|split]].
    + unfold entry, cell. rewrite Hmrow. simpl. exact Hv.
    + exact Hsv.
    + eapply Sscanf_d_range; eauto.
    + intros z Hz. eapply Sscanf_d_clean; eauto.
Qed.

Lemma Validate_success_matrix_witness :
  exists raw : MatrixFileContent,
    Some {| Content := [["1"; "-2"]; ["+3"; "40"]] |} = Some raw /\
    length (Data {| Data := [[1; -2]; [3; 40]] |}) = length (Content raw) /\
    Forall (fun row => length row = length (hd [] (Content raw))) (Content raw) /\
    Forall (fun row => length row = length (hd [] (Content raw)))
           (Data {| Data := [[1; -2]; [3; 40]] |}) /\
    (forall i j field,
        field_at raw i j = Some field ->
        exists v, entry (Data {| Data := [[1; -2]; [3; 40]] |}) i j = Some v /\
                  fmt.Sscanf_d field = Ok v /\
                  minInt64 <= v <= maxInt64 /\
                  (forall z, denoted_integer field = Some z -> v = z)).
Proof.
  apply (Validate_success_matrix
           (Some {| Content := [["1"; "-2"]; ["+3"; "40"]] |})
           {| Data := [[1; -2]; [3; 40]] |}).
  vm_compute. reflexivity.
Defined.

(** ** Fields that are not clean integers *)

(** C1 (the code departs from it): [Validate] scans each field with
    [fmt.Sscanf(val, "%d", &num)], which reads the longest integer prefix
    and does not look at what follows.  The fields "12abc" and "1.5" are
    accepted with the values 12 and 1, and leading blanks are skipped; the
    empty and the blank field are rejected with [UnprocessableEntity] and
    the row and column of the field. *)
Theorem Validate_accepts_integer_prefix :
  domain.Validate Background (Some {| Content := [["12abc"]] |})
    = Ok {| Data := [[12]] |} /\
  domain.Validate Background (Some {| Content := [["7"; "1.5"]] |})
    = Ok {| Data := [[7; 1]] |} /\
  domain.Validate Background (Some {| Content := [[" 5"]] |})
    = Ok {| Data := [[5]] |} /\
  denoted_integer "12abc" = None /\ denoted_integer "1.5" = None /\
  domain.Validate Background (Some {| Content := [["1"; ""; "3"]; ["4"; "5"; "6"]] |})
    = Err (Errorf "%w: invalid integer value at row %d, column %d: %v"
                  (Var ErrUnprocessableEntity) [OpInt 0; OpInt 1; OpScanErr fmt.EOF]) /\
  domain.Validate Background (Some {| Content := [["1"; "2"]; ["  "; "4"]] |})
    = Err (Errorf "%w: invalid integer value at row %d, column %d: %v"
                  (Var ErrUnprocessableEntity) [OpInt 1; OpInt 0; OpScanErr fmt.EOF]).
Proof. vm_compute. repeat split. Qed.

(** * Further properties of the code *)

(** ** echo and flatten *)

Lemma echo_render data :
  data <> [] -> domain.echo (Some {| Data := data |}) = Ok (render data).
Proof.
  intros Hne. unfold domain.echo. rewrite guarded_nonempty by assumption.
  rewrite write_rows_spec by reflexivity. reflexivity.
Qed.

(** X1: on a non-empty matrix, ragged or not, [echo] returns the elements of
    each row joined by commas and the rows joined by single line breaks,
    with no line break after the last row. *)
Theorem echo_renders_matrix :
  forall data : list (list Z),
    data <> [] ->
    domain.echo (Some {| Data := data |}) = Ok (render data).
Proof. exact echo_render. Qed.

Lemma echo_renders_matrix_witness :
  domain.echo (Some {| Data := [[1; -2; 3]; [4]] |})
  = Ok ("1,-2,3" +:+ domain.LF +:+ "4").
Proof.
  apply (echo_renders_matrix [[1; -2; 3]; [4]]). discriminate.
Defined.

Lemma concat_cons2 sep (x y : string) (l : list string) :
  String.concat sep (x :: y :: l) = x +:+ sep +:+ String.concat sep (y :: l).
Proof. reflexivity. Qed.

Lemma flatten_row_spec row :
  forall (builder : string) (first : bool),
    domain.flatten_row row (builder, first)
    = match row with
      | [] => (builder, first)
      | _ => (builder +:+ (if first then "" else ",")
                      +:+ String.concat "," (map strconv.FormatInt row), false)
      end.
Proof.
  induction row as [|v rest IH]; intros builder first; [reflexivity|].
  cbn [domain.flatten_row]. rewrite IH. destruct rest as [|r rest'].
  - destruct first; cbn [negb map String.concat]; rewrite ?append_assoc; reflexivity.
  - cbn [map]. rewrite concat_cons2.
    destruct first; cbn [negb]; rewrite ?append_assoc; reflexivity.
Qed.

Lemma flatten_row_app l1 l2 st :
  domain.flatten_row (l1 ++ l2) st = domain.flatten_row l2 (domain.flatten_row l1 st).
Proof.
  revert st. induction l1 as [|v l1 IH]; intros [builder first]; [reflexivity|].
  cbn [app domain.flatten_row]. apply IH.
Qed.

Lemma flatten_rows_concat data :
  forall st,
    fold_left (fun st row => domain.flatten_row row st) data st
    = domain.flatten_row (concat data) st.
Proof.
  induction data as [|row data IH]; intros st; [destruct st; reflexivity|].
  cbn [fold_left concat]. rewrite IH, flatten_row_app. reflexivity.
Qed.

Lemma flatten_joined data :
  data <> [] ->
  domain.flatten (Some {| Data := data |})
  = Ok (String.concat "," (map strconv.FormatInt (concat data))).
Proof.
  intros Hne. unfold domain.flatten. rewrite guarded_nonempty by assumption.
  rewrite flatten_rows_concat, flatten_row_spec.
  destruct (concat data); reflexivity.
Qed.

(** X2: on a non-empty matrix [flatten] returns all the elements, in
    row-major order, joined by commas on one line; rows without elements
    contribute nothing, not even a comma. *)
Theorem flatten_joins_elements :
  forall data : list (list Z),
    data <> [] ->
    domain.flatten (Some {| Data := data |})
    = Ok (String.concat "," (map strconv.FormatInt (concat data))).
Proof. exact flatten_joined. Qed.

Lemma flatten_joins_elements_witness :
  domain.flatten (Some {| Data := [[]; [1; 2]; []; [-3]] |}) = Ok "1,2,-3".
Proof.
  apply (flatten_joins_elements [[]; [1; 2]; []; [-3]]). discriminate.
Defined.

(** ** Operation names *)

Lemma matrixOperations_lookup operation :
  default false (domain.matrixOperations !! operation) = true <->
  In operation operation_names.
Proof.
  unfold domain.matrixOperations, operation_names.
  rewrite !lookup_insert, lookup_empty.
  repeat case_decide; subst; simpl; intuition (try discriminate; congruence).
Qed.

Lemma invert_nonempty_not_err data e :
  data <> [] -> domain.invert (Some {| Data := data |}) <> Err e.
Proof.
  intros Hne. unfold domain.invert. rewrite guarded_nonempty by assumption.
  rewrite (get_at_Ok _ _ _ (hd_lookup data Hne)). cbn [mbind result_bind].
  pose proof (invert_rows_inv data (length data) (seq 0 (length (hd [] data)))
                (replicate (length (hd [] data)) [])) as Hinv.
  destruct (domain.invert_rows _ _ _ _); cbn [mbind result_bind];
    [discriminate | contradiction | discriminate].
Qed.

(** X3: the registry map read by [IsValidOperation] and the [switch] of
    [RunOperation] accept the same names: [IsValidOperation] returns no
    error exactly for the five operation names, and [RunOperation] returns
    its unsupported-operation error, classified [InvalidInput], exactly for
    every other name (the empty name included), whatever the matrix. *)
Theorem registry_and_dispatch_agree :
  forall (operation : string) (matrix : option Matrix),
    (domain.IsValidOperation Background operation = None <->
       In operation operation_names) /\
    (domain.RunOperation Background matrix operation = Err (unsupported operation) <->
       ~ In operation operation_names) /\
    errors.Is (unsupported operation) ErrInvalidInput = true /\
    (forall e, domain.IsValidOperation Background operation = Some e ->
               errors.Is e ErrInvalidInput = true).
Proof.
  intros operation matrix. split; [|split; [|split]].
  - rewrite <- matrixOperations_lookup.
    unfold domain.IsValidOperation. cbn [ctx_Err Background].
    destruct (default false (domain.matrixOperations !! operation)); cbn [negb];
      split; congruence.
  - unfold domain.RunOperation, operation_names. simpl.
    unfold domain.sum, domain.multiply, domain.echo, domain.invert, domain.flatten,
      domain.guarded.
    destruct (String.eqb_spec operation domain.SumOperation) as [->|H1].
    { split; [|intros H; exfalso; apply H; auto].
      destruct matrix as [[data]|]; simpl; [destruct data; simpl|]; discriminate. }
    destruct (String.eqb_spec operation domain.MultiplyOperation) as [->|H2].
    { split; [|intros H; exfalso; apply H; auto].
      destruct matrix as [[data]|]; simpl; [destruct data; simpl|]; discriminate. }
    destruct (String.eqb_spec operation domain.EchoOperation) as [->|H3].
    { split; [|intros H; exfalso; apply H; auto].
      destruct matrix as [[data]|]; simpl; [destruct data; simpl|]; discriminate. }
    destruct (String.eqb_spec operation domain.InvertOperation) as [->|H4].
    { split; [|intros H; exfalso; apply H; auto 6].
      fold (domain.guarded matrix). fold (domain.invert matrix).
      destruct matrix as [[[|row0 rest]]|]; try discriminate.
      intros H. exfalso.
      eapply (invert_nonempty_not_err (row0 :: rest)); [discriminate|exact H]. }
    destruct (String.eqb_spec operation domain.FlattenOperation) as [->|H5].
    { split; [|intros H; exfalso; apply H; auto 7].
      destruct matrix as [[data]|]; simpl; [destruct data; simpl|]; discriminate. }
    split; [|reflexivity]. intros _ [H|[H|[H|[H|[H|[]]]]]]; congruence.
  - reflexivity.
  - unfold domain.IsValidOperation. cbn [ctx_Err Background].
    destruct (default false (domain.matrixOperations !! operation)); cbn [negb];
      [discriminate|]. intros e [= <-]. reflexivity.
Qed.

(** X4: every operation refuses a nil matrix and a matrix without rows:
    whatever the operation name, [RunOperation] then returns an error
    classified [InvalidInput], and never text. *)
Theorem RunOperation_refuses_no_rows :
  forall (operation : string) (matrix : option Matrix),
    no_rows matrix ->
    exists e, domain.RunOperation Background matrix operation = Err e /\
              errors.Is e ErrInvalidInput = true.
Proof.
  intros operation matrix Hm. unfold domain.RunOperation. simpl.
  assert (Hg : forall body, exists e, domain.guarded matrix body = Err e /\
                                      errors.Is e ErrInvalidInput = true).
  { intros body. unfold domain.guarded.
    destruct matrix as [[data]|]; simpl in *; [subst data|];
      eexists; split; reflexivity. }
  destruct (String.eqb operation domain.SumOperation); [apply Hg|].
  destruct (String.eqb operation domain.MultiplyOperation); [apply Hg|].
  destruct (String.eqb operation domain.EchoOperation); [apply Hg|].
  destruct (String.eqb operation domain.InvertOperation); [apply Hg|].
  destruct (String.eqb operation domain.FlattenOperation); [apply Hg|].
  eexists. split; reflexivity.
Qed.

Lemma RunOperation_refuses_no_rows_witness :
  exists e, domain.RunOperation Background (Some {| Data := [] |}) "invert" = Err e /\
            errors.Is e ErrInvalidInput = true.
Proof.
  apply (RunOperation_refuses_no_rows "invert" (Some {| Data := [] |})).
  reflexivity.
Defined.

(** ** Inverting twice *)

Section invert_twice.
Local Open Scope nat_scope.

Lemma map_lookup_seq (l : list Z) :
  map (fun j => default 0%Z (l !! j)) (seq 0 (length l)) = l.
Proof.
  apply list_eq. intros i.
  change (map (fun j => default 0%Z (l !! j)) (seq 0 (length l)))
    with ((fun j => default 0%Z (l !! j)) <$> seq 0 (length l)).
  rewrite list_lookup_fmap.
  destruct (Nat.lt_ge_cases i (length l)) as [Hlt|Hge].
  - rewrite lookup_seq_lt by assumption. simpl.
    destruct (lookup_lt_is_Some_2 l i Hlt) as [x Hx]. rewrite Hx. reflexivity.
  - rewrite lookup_seq_ge by assumption. rewrite lookup_ge_None_2 by assumption.
    reflexivity.
Qed.

Lemma transpose_lookup data i :
  i < length (hd [] data) ->
  transpose data !! i = Some (column data (length data) i).
Proof.
  intros Hi. unfold transpose.
  change (map (column data (length data)) (seq 0 (length (hd [] data))))
    with (column data (length data) <$> seq 0 (length (hd [] data))).
  rewrite list_lookup_fmap, lookup_seq_lt by assumption. reflexivity.
Qed.

Lemma column_lookup data rows i j :
  j < rows -> column data rows i !! j = Some (default 0%Z (cell data i j)).
Proof.
  intros Hj. unfold column.
  change (map (fun j0 => default 0%Z (cell data i j0)) (seq 0 rows))
    with ((fun j0 => default 0%Z (cell data i j0)) <$> seq 0 rows).
  rewrite list_lookup_fmap, lookup_seq_lt by assumption. reflexivity.
Qed.

Lemma transpose_hd data :
  0 < length (hd [] data) -> hd [] (transpose data) = column data (length data) 0.
Proof.
  intros H. unfold transpose.
  destruct (length (hd [] data)) as [|c]; [lia|]. reflexivity.
Qed.

Lemma transpose_involutive data C :
  data <> [] -> 0 < C -> Forall (fun row => length row = C) data ->
  transpose (transpose data) = data.
Proof.
  intros Hne HC Hrect.
  assert (Hhd : length (hd [] data) = C).
  { destruct data as [|row0 rest]; [contradiction|]. inversion Hrect; subst. reflexivity. }
  assert (HhdT : length (hd [] (transpose data)) = length data).
  { rewrite transpose_hd by lia. unfold column. rewrite length_map, length_seq. reflexivity. }
  apply list_eq. intros i.
  destruct (Nat.lt_ge_cases i (length data)) as [Hlt|Hge].
  - rewrite transpose_lookup by lia.
    destruct (lookup_lt_is_Some_2 data i Hlt) as [row Hrow]. rewrite Hrow. f_equal.
    assert (Hlen : length row = C).
    { rewrite Forall_forall in Hrect. apply Hrect. eapply list_elem_of_lookup_2; eauto. }
    rewrite transpose_length, Hhd.
    transitivity (map (fun j => default 0%Z (row !! j)) (seq 0 (length row)));
      [|apply map_lookup_seq].
    rewrite Hlen. unfold column. apply map_ext_in. intros j Hj. apply in_seq in Hj.
    unfold cell at 1. rewrite transpose_lookup by lia. simpl.
    rewrite column_lookup by assumption. simpl.
    unfold cell. rewrite Hrow. reflexivity.
  - rewrite (lookup_ge_None_2 data) by assumption.
    apply lookup_ge_None_2. rewrite transpose_length, HhdT. assumption.
Qed.

End invert_twice.

(** X5: inverting twice gives the matrix back.  For a rectangular matrix
    with at least one row and one column there is a matrix [T] that [invert]
    renders for the input (the text [echo] returns for [T]) and whose own
    inversion is the text [echo] returns for the input. *)
Theorem invert_twice_is_echo :
  forall (data : list (list Z)) (C : nat),
    data <> [] -> (0 < C)%nat ->
    Forall (fun row => length row = C) data ->
    exists T : list (list Z),
      domain.invert (Some {| Data := data |}) = domain.echo (Some {| Data := T |}) /\
      domain.invert (Some {| Data := T |}) = domain.echo (Some {| Data := data |}).
Proof.
  intros data C Hne HC Hrect.
  assert (Hhd : length (hd [] data) = C).
  { destruct data as [|row0 rest]; [contradiction|]. inversion Hrect; subst. reflexivity. }
  assert (HT : transpose data <> []).
  { intros H. pose proof (transpose_length data) as Hl. rewrite H in Hl. simpl in Hl. lia. }
  exists (transpose data). split.
  - rewrite echo_render by assumption.
    apply invert_long_rows; [assumption|].
    eapply Forall_impl; [exact Hrect|]. intros row Hrow. simpl in Hrow. lia.
  - rewrite echo_render by assumption.
    rewrite invert_long_rows; [|assumption|].
    + rewrite (transpose_involutive data C) by assumption. reflexivity.
    + eapply Forall_impl; [apply transpose_rows|].
      intros r Hr. simpl in Hr. rewrite Hr.
      rewrite transpose_hd by lia. unfold column.
      rewrite length_map, length_seq. lia.
Qed.

Lemma invert_twice_is_echo_witness :
  exists T : list (list Z),
    domain.invert (Some {| Data := [[1; 2; 3]; [4; 5; 6]] |})
      = domain.echo (Some {| Data := T |}) /\
    domain.invert (Some {| Data := T |})
      = domain.echo (Some {| Data := [[1; 2; 3]; [4; 5; 6]] |}).
Proof.
  apply (invert_twice_is_echo [[1; 2; 3]; [4; 5; 6]] 3).
  - discriminate.
  - lia.
  - repeat constructor.
Defined.

(** ** What the scan accepts *)

Lemma indexRune_digit r : fmt.indexRune fmt.decimalDigits r = true -> is_digit r.
Proof.
  unfold fmt.indexRune, fmt.decimalDigits, is_digit. cbn [existsb].
  rewrite !orb_true_iff, !Z.eqb_eq. lia.
Qed.

Lemma accept_all_stops ds rest :
  forall buf, Forall is_digit ds -> stops rest ->
              fmt.accept_all fmt.decimalDigits buf (ds ++ rest) = (buf ++ ds, rest).
Proof.
  induction ds as [|d ds IH]; intros buf Hds Hrest.
  - cbn [app]. rewrite app_nil_r. destruct rest as [|r rest']; [reflexivity|].
    cbn [fmt.accept_all]. simpl in Hrest.
    destruct (fmt.indexRune fmt.decimalDigits r) eqn:Hr; [|reflexivity].
    apply indexRune_digit in Hr. contradiction.
  - inversion Hds as [|? ? Hd Hds']; subst.
    cbn [app fmt.accept_all]. rewrite (digit_indexRune d Hd).
    rewrite IH by assumption. rewrite <- app_assoc. reflexivity.
Qed.

Lemma scanInt_stops sg d ds rest :
  sg = [] \/ sg = [43] \/ sg = [45] ->
  is_digit d -> Forall is_digit ds -> stops rest ->
  fmt.SkipSpace (sg ++ d :: ds ++ rest) = Ok (sg ++ d :: ds ++ rest) /\
  fmt.scanInt (sg ++ d :: ds ++ rest) = (i ← parsed (sg ++ d :: ds); Ok (i, rest)).
Proof.
  intros Hsg Hd Hds Hrest.
  destruct (digit_not_space d Hd) as (H13 & H10 & Hsp).
  assert (Hskip : fmt.SkipSpace (sg ++ d :: ds ++ rest) = Ok (sg ++ d :: ds ++ rest)).
  { destruct Hsg as [->|[->| ->]]; cbn [app]; apply SkipSpace_stops;
      first [assumption | reflexivity]. }
  split; [exact Hskip|].
  unfold fmt.scanInt. rewrite Hskip. cbn [mbind result_bind].
  assert (Hnum : forall buf,
             fmt.scanNumber fmt.decimalDigits buf (d :: ds ++ rest)
             = Ok (buf ++ d :: ds, rest)).
  { intros buf. unfold fmt.scanNumber, fmt.notEOF, fmt.accept.
    cbn [mbind result_bind]. rewrite (digit_indexRune d Hd). cbn [negb].
    rewrite accept_all_stops by assumption. rewrite <- app_assoc. reflexivity. }
  destruct Hsg as [->|[->| ->]]; cbn [app]; unfold fmt.notEOF, fmt.accept;
    cbn [mbind result_bind].
  - rewrite (digit_not_sign d Hd). rewrite Hnum. cbn [mbind result_bind app].
    unfold parsed. destruct (strconv.ParseInt (d :: ds)); reflexivity.
  - change (fmt.indexRune fmt.sign 43) with true. cbn iota.
    rewrite Hnum. cbn [mbind result_bind app].
    unfold parsed. destruct (strconv.ParseInt (43 :: d :: ds)); reflexivity.
  - change (fmt.indexRune fmt.sign 45) with true. cbn iota.
    rewrite Hnum. cbn [mbind result_bind app].
    unfold parsed. destruct (strconv.ParseInt (45 :: d :: ds)); reflexivity.
Qed.

Lemma decimal_from_ge cs :
  forall acc v, decimal_from acc cs = Some v -> 0 <= acc -> acc <= v.
Proof.
  induction cs as [|c cs IH]; intros acc v Hv Hacc; cbn [decimal_from] in Hv.
  - injection Hv as <-. lia.
  - destruct (digit_value c) as [d|] eqn:Hd; [|discriminate].
    apply digit_value_Some in Hd as [Hc ->]. unfold is_digit in Hc.
    apply IH in Hv; lia.
Qed.

Lemma ParseUint_loop_step c cs n :
  is_digit c -> 0 <= n -> 10 * n + (c - 48) < 2 ^ 64 ->
  strconv.ParseUint_loop (c :: cs) n = strconv.ParseUint_loop cs (10 * n + (c - 48)).
Proof.
  intros Hc Hn Hlt. unfold is_digit in Hc. cbn [strconv.ParseUint_loop].
  destruct (Z.leb_spec 48 c); [|lia]. destruct (Z.leb_spec c 57); [|lia].
  cbn [andb]. destruct (Z.leb_spec 10 (c - 48)); [lia|].
  unfold maxUint64. change (2 ^ 64) with 18446744073709551616 in *.
  change ((18446744073709551616 - 1) / 10 + 1) with 1844674407370955162.
  destruct (Z.leb_spec 1844674407370955162 n); [lia|].
  rewrite Z.mod_small by lia.
  destruct (Z.ltb_spec (n * 10 + (c - 48)) (n * 10)); [lia|].
  destruct (Z.ltb_spec (18446744073709551616 - 1) (n * 10 + (c - 48))); [lia|].
  cbn [orb]. f_equal. lia.
Qed.

Lemma ParseUint_loop_complete cs :
  forall n v,
    decimal_from n cs = Some v -> 0 <= n -> v < 2 ^ 64 ->
    strconv.ParseUint_loop (map byte cs) n = Ok v.
Proof.
  induction cs as [|c cs IH]; intros n v Hv Hn Hlt; cbn [decimal_from] in Hv.
  - injection Hv as <-. reflexivity.
  - destruct (digit_value c) as [d|] eqn:Hd; [|discriminate].
    apply digit_value_Some in Hd as [Hc ->].
    pose proof (decimal_from_ge cs _ v Hv) as Hge. unfold is_digit in Hc.
    cbn [map]. rewrite ParseUint_loop_step; [|exact Hc|lia|lia].
    apply IH; [exact Hv|lia|exact Hlt].
Qed.

Lemma ParseInt_complete sg cs v :
  cs <> [] -> decimal_from 0 cs = Some v ->
  (sg = [] \/ sg = [43]) /\ v <= maxInt64 \/ sg = [45] /\ v <= 2 ^ 63 ->
  strconv.ParseInt (sg ++ map byte cs)
  = Ok (if decide (sg = [45]) then - v else v).
Proof.
  intros Hne Hv Hsg.
  pose proof (decimal_from_digits cs 0 v Hv) as Hds.
  pose proof (decimal_from_ge cs 0 v Hv ltac:(lia)) as Hv0.
  destruct cs as [|c cs]; [contradiction|].
  inversion Hds as [|? ? Hc _]; subst. unfold is_digit in Hc.
  assert (Hu : strconv.ParseUint (map byte (c :: cs)) = Ok v).
  { unfold strconv.ParseUint. cbn [map].
    apply (ParseUint_loop_complete (c :: cs) 0 v Hv); [lia|].
    unfold maxInt64 in Hsg. change (2 ^ 64) with (2 * 2 ^ 63).
    destruct Hsg as [[_ H]|[_ H]]; lia. }
  unfold maxInt64 in Hsg.
  destruct Hsg as [[[->| ->] Hr]|[-> Hr]]; cbn [app]; unfold strconv.ParseInt.
  - cbn [map].
    destruct (Z.eqb_spec (byte c) 43); [lia|].
    destruct (Z.eqb_spec (byte c) 45); [lia|].
    change (byte c :: map byte cs) with (map byte (c :: cs)). rewrite Hu.
    cbn [mbind result_bind negb andb].
    destruct (Z.leb_spec (2 ^ 63) v); [lia|]. reflexivity.
  - change (43 =? 43) with true. cbn iota. rewrite Hu.
    cbn [mbind result_bind negb andb].
    destruct (Z.leb_spec (2 ^ 63) v); [lia|]. reflexivity.
  - change (45 =? 43) with false. change (45 =? 45) with true. cbn iota. rewrite Hu.
    cbn [mbind result_bind negb andb].
    destruct (Z.ltb_spec (2 ^ 63) v); [lia|]. reflexivity.
Qed.

Lemma runes_app_ascii s t :
  Forall (fun c => byte c < 128) (list_ascii_of_string s) ->
  utf8.runes (s +:+ t) = map byte (list_ascii_of_string s) ++ utf8.runes t.
Proof.
  unfold utf8.runes. induction s as [|c s IH]; intros H.
  - reflexivity.
  - simpl in H. inversion H as [|? ? Hc Hs]; subst.
    change (String c s +:+ t) with (String c (s +:+ t)).
    cbn [utf8.runes_from list_ascii_of_string map app].
    rewrite DecodeRune_ascii by assumption.
    cbn [Nat.sub]. rewrite IH by assumption. reflexivity.
Qed.

Lemma denoted_shape s z :
  denoted_integer s = Some z ->
  exists sg cs w,
    list_ascii_of_string s = sg ++ cs /\ cs <> [] /\ decimal_from 0 cs = Some w /\
    ((sg = [] /\ z = w) \/ (sg = ["+"%char] /\ z = w) \/ (sg = ["-"%char] /\ z = - w)).
Proof.
  unfold denoted_integer.
  destruct (list_ascii_of_string s) as [|c rest]; [discriminate|]. intros Hz.
  destruct (Ascii.eqb_spec c "-") as [->|Hm].
  - destruct rest as [|d ds]; [discriminate|].
    unfold decimal in Hz. destruct (decimal_from 0 (d :: ds)) as [w|] eqn:Hw;
      [|discriminate].
    injection Hz as <-. exists ["-"%char], (d :: ds), w.
    repeat split; auto; discriminate.
  - destruct (Ascii.eqb_spec c "+") as [->|Hp].
    + destruct rest as [|d ds]; [discriminate|].
      exists ["+"%char], (d :: ds), z. repeat split; auto; discriminate.
    + exists [], (c :: rest), z. repeat split; auto; discriminate.
Qed.

(** A clean decimal integer that fits an [int64] is scanned to its value,
    whatever follows it, provided the text that follows does not start with
    a decimal digit. *)
Lemma Sscanf_d_prefix s t z :
  denoted_integer s = Some z -> minInt64 <= z <= maxInt64 ->
  stops (utf8.runes t) ->
  fmt.Sscanf_d (s +:+ t) = Ok z.
Proof.
  intros Hz Hrange Hstops.
  destruct (denoted_shape s z Hz) as (sg & cs & w & Hsplit & Hne & Hw & Hsg).
  pose proof (decimal_from_digits cs 0 w Hw) as Hds.
  pose proof (decimal_from_ge cs 0 w Hw ltac:(lia)) as Hw0.
  assert (Hrunes : utf8.runes (s +:+ t) = map byte sg ++ map byte cs ++ utf8.runes t).
  { rewrite runes_app_ascii; rewrite Hsplit.
    - rewrite map_app, <- app_assoc. reflexivity.
    - apply Forall_app. split.
      + destruct Hsg as [[-> _]|[[-> _]|[-> _]]]; repeat constructor.
      + pose proof Hds as Hds2. rewrite List.Forall_map in Hds2.
        eapply List.Forall_impl; [|exact Hds2].
        intros x Hx. unfold is_digit in Hx. lia. }
  unfold fmt.Sscanf_d. rewrite Hrunes.
  destruct cs as [|d ds]; [contradiction|].
  cbn [map] in *. inversion Hds as [|? ? Hd Hds']; subst.
  assert (Hsg' : map byte sg = [] \/ map byte sg = [43] \/ map byte sg = [45]).
  { destruct Hsg as [[-> _]|[[-> _]|[-> _]]]; auto. }
  change ((byte d :: map byte ds) ++ utf8.runes t)
    with (byte d :: map byte ds ++ utf8.runes t).
  destruct (scanInt_stops (map byte sg) (byte d) (map byte ds) (utf8.runes t)
              Hsg' Hd Hds' Hstops) as [Hskip Hscan].
  rewrite Hskip. cbn [mbind result_bind]. rewrite Hscan. unfold parsed.
  change (byte d :: map byte ds) with (map byte (d :: ds)).
  unfold minInt64, maxInt64 in Hrange.
  rewrite (ParseInt_complete (map byte sg) (d :: ds) w Hne Hw).
  - cbn [mbind result_bind].
    destruct Hsg as [[-> ->]|[[-> ->]|[-> ->]]]; reflexivity.
  - unfold maxInt64.
    destruct Hsg as [[-> ->]|[[-> ->]|[-> ->]]]; [left|left|right]; split; auto; lia.
Qed.

(** X6: a field that is a clean decimal integer fitting an [int64] scans to
    the integer it denotes, and keeps doing so when any text is appended
    that starts with an ASCII byte other than a decimal digit: the scan
    stops at that byte and the rest of the field is never examined. *)
Theorem Sscanf_reads_integer_prefix :
  forall (s : string) (z : Z) (c : ascii) (t : string),
    denoted_integer s = Some z ->
    minInt64 <= z <= maxInt64 ->
    byte c < 128 -> ~ is_digit (byte c) ->
    fmt.Sscanf_d s = Ok z /\
    fmt.Sscanf_d (s +:+ String c t) = Ok z /\
    domain.Validate Background (Some {| Content := [[s +:+ String c t]] |})
      = Ok {| Data := [[z]] |}.
Proof.
  intros s z c t Hz Hrange Hc Hnd.
  assert (H1 : fmt.Sscanf_d s = Ok z).
  { rewrite <- (append_nil_r s). apply Sscanf_d_prefix; auto. exact I. }
  assert (H2 : fmt.Sscanf_d (s +:+ String c t) = Ok z).
  { apply Sscanf_d_prefix; auto.
    unfold utf8.runes. cbn [utf8.runes_from].
    rewrite DecodeRune_ascii by assumption. exact Hnd. }
  split; [exact H1|]. split; [exact H2|].
  unfold domain.Validate. cbn [ctx_Err Background Content].
  cbn [length Nat.ltb Nat.leb domain.maxInputMatrixRows domain.maxInputMatrixCols
       domain.check_rows Nat.eqb negb domain.convert_rows domain.convert_row replicate].
  rewrite H2. reflexivity.
Qed.

Lemma Sscanf_reads_integer_prefix_witness :
  fmt.Sscanf_d "-42" = Ok (-42) /\
  fmt.Sscanf_d ("-42" +:+ String "." "75 apples") = Ok (-42) /\
  domain.Validate Background (Some {| Content := [["-42" +:+ String "." "75 apples"]] |})
    = Ok {| Data := [[-42]] |}.
Proof.
  apply (Sscanf_reads_integer_prefix "-42" (-42) "."%char "75 apples").
  - reflexivity.
  - vm_compute. split; discriminate.
  - vm_compute. reflexivity.
  - unfold is_digit. vm_compute. intros [H _]. apply H. reflexivity.
Defined.

(** ** The conversion loops as a function *)

Lemma ParseUint_loop_no_panic ds : forall n, strconv.ParseUint_loop ds n <> Panic.
Proof.
  induction ds as [|c ds IH]; intros n; cbn [strconv.ParseUint_loop]; [discriminate|].
  destruct (if (48 <=? c) && (c <=? 57) then Some (c - 48)
            else if (97 <=? strconv.lower c) && (strconv.lower c <=? 122)
                 then Some (strconv.lower c - 97 + 10) else None) as [d|];
    [|discriminate].
  destruct (10 <=? d); [discriminate|].
  destruct (maxUint64 / 10 + 1 <=? n); [discriminate|].
  destruct (((n * 10 + d) mod 2 ^ 64 <? n * 10) || (maxUint64 <? (n * 10 + d) mod 2 ^ 64));
    [discriminate | apply IH].
Qed.

Lemma ParseInt_no_panic tok : strconv.ParseInt tok <> Panic.
Proof.
  unfold strconv.ParseInt. destruct tok as [|c rest]; [discriminate|].
  destruct (if c =? 43 then (false, rest)
            else if c =? 45 then (true, rest) else (false, c :: rest)) as [neg s].
  unfold strconv.ParseUint. destruct s as [|c' s']; [discriminate|].
  pose proof (ParseUint_loop_no_panic (c' :: s') 0) as H.
  destruct (strconv.ParseUint_loop (c' :: s') 0) as [un| |]; cbn [mbind result_bind];
    [|discriminate|contradiction].
  destruct (negb neg && (2 ^ 63 <=? un)); [discriminate|].
  destruct (neg && (2 ^ 63 <? un)); discriminate.
Qed.

Lemma SkipSpace_no_panic rs : fmt.SkipSpace rs <> Panic.
Proof.
  induction rs as [|r rest IH]; cbn [fmt.SkipSpace]; [discriminate|].
  destruct ((r =? 13) && fmt.peek [10] rest); [exact IH|].
  destruct (r =? 10); [discriminate|].
  destruct (negb (fmt.isSpace r)); [discriminate | exact IH].
Qed.

Lemma Sscanf_d_no_panic s : fmt.Sscanf_d s <> Panic.
Proof.
  unfold fmt.Sscanf_d.
  pose proof (SkipSpace_no_panic (utf8.runes s)) as H0.
  destruct (fmt.SkipSpace (utf8.runes s)) as [rs| |]; cbn [mbind result_bind];
    [|discriminate|contradiction].
  unfold fmt.scanInt.
  pose proof (SkipSpace_no_panic rs) as H1.
  destruct (fmt.SkipSpace rs) as [rs1| |]; cbn [mbind result_bind];
    [|discriminate|contradiction].
  unfold fmt.notEOF at 1. destruct rs1 as [|r rs1']; cbn [mbind result_bind];
    [discriminate|].
  destruct (fmt.accept fmt.sign [] (r :: rs1')) as [[okd buf] rs2].
  unfold fmt.scanNumber, fmt.notEOF. destruct rs2 as [|r2 rs2']; cbn [mbind result_bind];
    [discriminate|].
  destruct (fmt.accept fmt.decimalDigits buf (r2 :: rs2')) as [[okd2 buf2] rs3].
  destruct (negb okd2); cbn [mbind result_bind]; [discriminate|].
  destruct (fmt.accept_all fmt.decimalDigits buf2 rs3) as [tok rs4].
  pose proof (ParseInt_no_panic tok) as H2.
  destruct (strconv.ParseInt tok); cbn [mbind result_bind];
    [discriminate|discriminate|contradiction].
Qed.

Section convert_function.
Local Open Scope nat_scope.

Lemma convert_row_eq i row :
  forall j data r,
    data !! i = Some r -> j + length row = length r ->
    domain.convert_row i j row data
    = (vals ← scan_row i j row; Ok (<[i := take j r ++ vals]> data)).
Proof.
  induction row as [|val rest IH]; intros j data r Hr Hj.
  - simpl in *. rewrite app_nil_r, firstn_all2 by lia.
    rewrite list_insert_id by assumption. reflexivity.
  - cbn [domain.convert_row scan_row]. simpl in Hj.
    destruct (fmt.Sscanf_d val) as [num| |] eqn:Hscan; try reflexivity.
    rewrite (get_at_Ok _ _ _ Hr). cbn [mbind result_bind].
    rewrite set_at_Ok by lia. cbn [mbind result_bind].
    assert (Hi : i < length data) by (eapply lookup_lt_Some; eauto).
    rewrite set_at_Ok by assumption. cbn [mbind result_bind].
    rewrite (IH (S j) (<[i := <[j := num]> r]> data) (<[j := num]> r)).
    + destruct (scan_row i (S j) rest) as [vals| |]; cbn [mbind result_bind];
        try reflexivity.
      rewrite list_insert_insert_eq, take_S_insert by lia.
      rewrite <- app_assoc. reflexivity.
    + apply list_lookup_insert_eq. assumption.
    + rewrite length_insert. lia.
Qed.

Lemma convert_rows_eq cols content :
  forall i data,
    i + length content = length data ->
    Forall (fun row => length row = cols) content ->
    domain.convert_rows cols i content data
    = (vals ← scan_rows i content; Ok (take i data ++ vals)).
Proof.
  induction content as [|row rest IH]; intros i data Hi Hrect.
  - simpl in *. rewrite app_nil_r, firstn_all2 by lia. reflexivity.
  - cbn [domain.convert_rows scan_rows]. simpl in Hi.
    inversion Hrect as [|? ? Hrow Hrest]; subst.
    rewrite set_at_Ok by lia. cbn [mbind result_bind].
    rewrite (convert_row_eq i row 0 _ (replicate (length row) 0%Z)).
    + destruct (scan_row i 0 row) as [vals| |]; cbn [mbind result_bind];
        try reflexivity.
      rewrite list_insert_insert_eq. cbn [take app].
      rewrite (IH (S i)) by (rewrite ?length_insert; auto; lia).
      destruct (scan_rows (S i) rest) as [more| |]; cbn [mbind result_bind];
        try reflexivity.
      rewrite take_S_insert by lia. rewrite <- app_assoc. reflexivity.
    + apply list_lookup_insert_eq. lia.
    + rewrite length_replicate. reflexivity.
Qed.

(** On content of an accepted shape, [Validate] is the scan of the rows. *)
Lemma Validate_scan content :
  content <> [] ->
  length content <= 10 -> length (hd [] content) <= 10 ->
  Forall (fun row => length row = length (hd [] content)) content ->
  domain.Validate Background (Some {| Content := content |})
  = (vals ← scan_rows 0 content; Ok {| Data := vals |}).
Proof.
  intros Hne Hrows Hcols Hrect. unfold domain.Validate. cbn [ctx_Err Background Content].
  destruct content as [|row0 rest] eqn:Hc; [contradiction|]. rewrite <- Hc in *.
  assert (Hhd : hd [] content = row0) by (subst; reflexivity). rewrite Hhd in *.
  unfold domain.maxInputMatrixRows, domain.maxInputMatrixCols.
  destruct (Nat.ltb_spec 10 (length content)); [lia|].
  destruct (Nat.ltb_spec 10 (length row0)); [lia|].
  rewrite (proj2 (check_rows_None (length row0) 0 content) Hrect).
  rewrite (convert_rows_eq (length row0)) by (rewrite ?length_replicate; auto).
  destruct (scan_rows 0 content); reflexivity.
Qed.

Lemma scan_row_no_panic i row : forall j, scan_row i j row <> Panic.
Proof.
  induction row as [|val rest IH]; intros j; cbn [scan_row]; [discriminate|].
  pose proof (Sscanf_d_no_panic val) as Hs.
  destruct (fmt.Sscanf_d val); [|discriminate|contradiction].
  specialize (IH (S j)).
  destruct (scan_row i (S j) rest); cbn [mbind result_bind];
    [discriminate|discriminate|contradiction].
Qed.

Lemma scan_rows_no_panic content : forall i, scan_rows i content <> Panic.
Proof.
  induction content as [|row rest IH]; intros i; cbn [scan_rows]; [discriminate|].
  pose proof (scan_row_no_panic i row 0) as Hr.
  destruct (scan_row i 0 row); cbn [mbind result_bind]; [|discriminate|contradiction].
  specialize (IH (S i)).
  destruct (scan_rows (S i) rest); cbn [mbind result_bind];
    [discriminate|discriminate|contradiction].
Qed.

End convert_function.

(** ** What Validate returns *)

Section validate_results.
Local Open Scope nat_scope.

(** The raw content either has a shape defect or passes every shape check. *)
Lemma shape_cases rawData :
  bad_shape rawData \/
  exists content,
    rawData = Some {| Content := content |} /\ content <> [] /\
    length content <= 10 /\ length (hd [] content) <= 10 /\
    Forall (fun row => length row = length (hd [] content)) content.
Proof.
  destruct rawData as [[content]|]; [|left; exact I]. simpl.
  destruct content as [|row0 rest] eqn:Hc; [left; left; reflexivity|].
  rewrite <- Hc.
  destruct (le_lt_dec (length content) 10) as [Hr|Hr]; [|left; right; left; exact Hr].
  destruct (le_lt_dec (length (hd [] content)) 10) as [Hcl|Hcl];
    [|left; right; right; left; exact Hcl].
  destruct (Forall_Exists_dec
              (fun row : list string => length row = length (hd [] content))
              (fun row : list string => length row <> length (hd [] content))
              (fun row => Nat.eq_dec (length row) (length (hd [] content))) content)
    as [Hf|He]; [|left; right; right; right; exact He].
  right. exists content. repeat split; auto. subst. discriminate.
Qed.

Lemma bad_shape_Err rawData :
  bad_shape rawData ->
  exists e, domain.Validate Background rawData = Err e.
Proof.
  intros Hbad. unfold domain.Validate. cbn [ctx_Err Background].
  destruct rawData as [[content]|]; [|eexists; reflexivity]. simpl in *.
  destruct content as [|row0 rest] eqn:Hc; [eexists; reflexivity|]. rewrite <- Hc in *.
  assert (Hhd : hd [] content = row0) by (subst; reflexivity). rewrite Hhd in *.
  destruct (domain.maxInputMatrixRows <? length content) eqn:H1; [eexists; reflexivity|].
  destruct (domain.maxInputMatrixCols <? length row0) eqn:H2; [eexists; reflexivity|].
  apply Nat.ltb_ge in H1, H2. unfold domain.maxInputMatrixRows, domain.maxInputMatrixCols in *.
  destruct (domain.check_rows (length row0) 0 content) as [e|] eqn:Hchk;
    [eexists; reflexivity|].
  exfalso. apply check_rows_None in Hchk.
  destruct Hbad as [H|[H|[H|H]]]; try (subst; discriminate); try lia.
  apply Exists_exists in H as (row & Hin & Hne).
  rewrite Forall_forall in Hchk. apply Hne, Hchk, Hin.
Qed.

End validate_results.

Lemma Validate_no_panic (ctx : Context) (rawData : option MatrixFileContent) :
  domain.Validate ctx rawData <> Panic.
Proof.
  revert ctx rawData. intros [[cerr|]] rawData; [discriminate|].
  change {| ctx_Err := None |} with Background.
  destruct (shape_cases rawData) as [Hbad|(content & -> & Hne & Hr & Hc & Hrect)].
  - destruct (bad_shape_Err rawData Hbad) as [e ->]. discriminate.
  - rewrite Validate_scan by assumption.
    pose proof (scan_rows_no_panic content 0) as Hp.
    destruct (scan_rows 0 content); [discriminate|discriminate|contradiction].
Qed.

(** X7: [Validate] never panics: each store [matrix.Data[i][j] = num] is in
    range, whatever the context and the raw content, because the row-length
    check comes before the conversion. *)
Theorem Validate_never_panics :
  forall (ctx : Context) (rawData : option MatrixFileContent),
    domain.Validate ctx rawData <> Panic.
Proof. exact Validate_no_panic. Qed.

Lemma Sscanf_d_complete s z :
  denotes_int64 s z -> fmt.Sscanf_d s = Ok z.
Proof.
  intros [Hz Hrange]. rewrite <- (append_nil_r s).
  apply Sscanf_d_prefix; auto. exact I.
Qed.

Lemma scan_row_clean i row vals :
  Forall2 denotes_int64 row vals -> forall j, scan_row i j row = Ok vals.
Proof.
  induction 1 as [|field z row vals Hz Hrest IH]; intros j; [reflexivity|].
  cbn [scan_row]. rewrite (Sscanf_d_complete field z Hz).
  rewrite IH. reflexivity.
Qed.

Lemma scan_rows_clean content vals :
  Forall2 (Forall2 denotes_int64) content vals ->
  forall i, scan_rows i content = Ok vals.
Proof.
  induction 1 as [|row v content vals Hrow Hrest IH]; intros i; [reflexivity|].
  cbn [scan_rows]. rewrite (scan_row_clean i row v Hrow).
  cbn [mbind result_bind]. rewrite IH. reflexivity.
Qed.

(** X8: [Validate] accepts every well-formed input: raw content with 1 to
    10 rows of one common length of at most 10, whose fields are all clean
    decimal integers fitting an [int64], is converted to the matrix of the
    integers the fields denote. *)
Theorem Validate_accepts_clean_content :
  forall (content : list (list string)) (vals : list (list Z)),
    content <> [] ->
    (length content <= 10)%nat ->
    (length (hd [] content) <= 10)%nat ->
    Forall (fun row => length row = length (hd [] content)) content ->
    Forall2 (Forall2 denotes_int64) content vals ->
    domain.Validate Background (Some {| Content := content |}) = Ok {| Data := vals |}.
Proof.
  intros content vals Hne Hr Hc Hrect Hclean.
  rewrite Validate_scan by assumption.
  rewrite (scan_rows_clean content vals Hclean). reflexivity.
Qed.

Lemma Validate_accepts_clean_content_witness :
  domain.Validate Background
    (Some {| Content := [["9223372036854775807"; "-9223372036854775808"]; ["+0"; "007"]] |})
  = Ok {| Data := [[9223372036854775807; -9223372036854775808]; [0; 7]] |}.
Proof.
  apply (Validate_accepts_clean_content
           [["9223372036854775807"; "-9223372036854775808"]; ["+0"; "007"]]
           [[9223372036854775807; -9223372036854775808]; [0; 7]]).
  - discriminate.
  - simpl. lia.
  - simpl. lia.
  - repeat constructor.
  - repeat constructor; vm_compute; try reflexivity; discriminate.
Defined.

Section validate_errors.
Local Open Scope nat_scope.

Lemma scan_row_Ok_all i row :
  forall j vals,
    scan_row i j row = Ok vals ->
    forall k f, row !! k = Some f -> exists v, fmt.Sscanf_d f = Ok v.
Proof.
  induction row as [|val rest IH]; intros j vals Hok k f Hk; [discriminate|].
  cbn [scan_row] in Hok.
  destruct (fmt.Sscanf_d val) as [num| |] eqn:Hs; try discriminate.
  destruct (scan_row i (S j) rest) as [vals'| |] eqn:Hrest;
    cbn [mbind result_bind] in Hok; try discriminate.
  destruct k as [|k]; simpl in Hk.
  - injection Hk as <-. eauto.
  - eapply IH; eauto.
Qed.

Lemma scan_row_Err i row :
  forall j e,
    scan_row i j row = Err e ->
    exists k field se,
      row !! k = Some field /\ fmt.Sscanf_d field = Err se /\
      e = Errorf "%w: invalid integer value at row %d, column %d: %v"
                 (Var ErrUnprocessableEntity)
                 [OpInt (Z.of_nat i); OpInt (Z.of_nat (j + k)); OpScanErr se] /\
      (forall k' f, k' < k -> row !! k' = Some f -> exists v, fmt.Sscanf_d f = Ok v).
Proof.
  induction row as [|val rest IH]; intros j e He; [discriminate|].
  cbn [scan_row] in He.
  destruct (fmt.Sscanf_d val) as [num|se|] eqn:Hs; try discriminate.
  - destruct (scan_row i (S j) rest) as [vals'|e'|] eqn:Hrest;
      cbn [mbind result_bind] in He; try discriminate.
    injection He as <-.
    destruct (IH (S j) e' Hrest) as (k & field & se & Hk & Hse & -> & Hbefore).
    exists (S k), field, se. split; [exact Hk|]. split; [exact Hse|]. split.
    + rewrite Nat.add_succ_r. reflexivity.
    + intros [|k'] f Hlt Hf; simpl in Hf.
      * injection Hf as <-. eauto.
      * eapply Hbefore; eauto. lia.
  - injection He as <-. exists 0, val, se.
    split; [reflexivity|]. split; [exact Hs|]. split.
    + rewrite Nat.add_0_r. reflexivity.
    + intros k' f Hlt. lia.
Qed.

Lemma scan_rows_Err content :
  forall i e,
    scan_rows i content = Err e ->
    exists k row j field se,
      content !! k = Some row /\ row !! j = Some field /\
      fmt.Sscanf_d field = Err se /\
      e = Errorf "%w: invalid integer value at row %d, column %d: %v"
                 (Var ErrUnprocessableEntity)
                 [OpInt (Z.of_nat (i + k)); OpInt (Z.of_nat j); OpScanErr se] /\
      (forall k' j' row' f,
          before k' j' k j -> content !! k' = Some row' -> row' !! j' = Some f ->
          exists v, fmt.Sscanf_d f = Ok v).
Proof.
  induction content as [|row rest IH]; intros i e He; [discriminate|].
  cbn [scan_rows] in He.
  destruct (scan_row i 0 row) as [vals|e0|] eqn:Hrow; cbn [mbind result_bind] in He;
    try discriminate.
  - destruct (scan_rows (S i) rest) as [more|e'|] eqn:Hrest;
      cbn [mbind result_bind] in He; try discriminate.
    injection He as <-.
    destruct (IH (S i) e' Hrest) as (k & r & j & field & se & Hk & Hj & Hse & -> & Hb).
    exists (S k), r, j, field, se.
    split; [exact Hk|]. split; [exact Hj|]. split; [exact Hse|]. split.
    + rewrite Nat.add_succ_r. reflexivity.
    + intros [|k'] j' row' f Hbef Hrow' Hf; simpl in Hrow'.
      * injection Hrow' as <-. eapply scan_row_Ok_all; eauto.
      * eapply (Hb k' j'); eauto. unfold before in *. lia.
  - injection He as <-.
    destruct (scan_row_Err i row 0 e0 Hrow) as (j & field & se & Hj & Hse & -> & Hb).
    exists 0, row, j, field, se.
    split; [reflexivity|]. split; [exact Hj|]. split; [exact Hse|]. split.
    + rewrite Nat.add_0_r. reflexivity.
    + intros k' j' row' f Hbef Hrow' Hf. unfold before in Hbef.
      destruct Hbef as [Hlt|[-> Hlt]]; [lia|].
      simpl in Hrow'. injection Hrow' as <-. eapply Hb; eauto.
Qed.

End validate_errors.

(** X9: under a live context, an error of [Validate] on content that passes
    the shape checks names the first field, in row-major order, that does
    not scan: the field at the reported row and column fails to scan with
    the reported cause, and every field before it scans. *)
Theorem Validate_error_names_first_bad_field :
  forall (rawData : option MatrixFileContent) (e : error),
    domain.Validate Background rawData = Err e ->
    bad_shape rawData \/
    exists raw i j field se,
      rawData = Some raw /\
      field_at raw i j = Some field /\
      fmt.Sscanf_d field = Err se /\
      e = Errorf "%w: invalid integer value at row %d, column %d: %v"
                 (Var ErrUnprocessableEntity)
                 [OpInt (Z.of_nat i); OpInt (Z.of_nat j); OpScanErr se] /\
      (forall i' j' f,
          before i' j' i j -> field_at raw i' j' = Some f ->
          exists v, fmt.Sscanf_d f = Ok v).
Proof.
  intros rawData e He.
  destruct (shape_cases rawData) as [Hbad|(content & -> & Hne & Hr & Hc & Hrect)];
    [left; exact Hbad|right].
  rewrite Validate_scan in He by assumption.
  destruct (scan_rows 0 content) as [vals|e'|] eqn:Hscan; cbn [mbind result_bind] in He;
    try discriminate.
  injection He as <-.
  destruct (scan_rows_Err content 0 e' Hscan)
    as (k & row & j & field & se & Hk & Hj & Hse & -> & Hb).
  exists {| Content := content |}, k, j, field, se.
  split; [reflexivity|]. split.
  { unfold field_at. cbn [Content]. rewrite Hk. exact Hj. }
  split; [exact Hse|]. split; [reflexivity|].
  intros i' j' f Hbef Hf. unfold field_at in Hf. cbn [Content] in Hf.
  destruct (content !! i') as [row'|] eqn:Hrow'; simpl in Hf; [|discriminate].
  eapply Hb; eauto.
Qed.

Lemma Validate_error_names_first_bad_field_witness :
  bad_shape (Some {| Content := [["1"; "2"]; ["3"; "x"]; ["y"; "6"]] |}) \/
  exists raw i j field se,
    Some {| Content := [["1"; "2"]; ["3"; "x"]; ["y"; "6"]] |} = Some raw /\
    field_at raw i j = Some field /\
    fmt.Sscanf_d field = Err se /\
    Errorf "%w: invalid integer value at row %d, column %d: %v"
           (Var ErrUnprocessableEntity) [OpInt 1; OpInt 1; OpScanErr fmt.ExpectedInteger]
    = Errorf "%w: invalid integer value at row %d, column %d: %v"
             (Var ErrUnprocessableEntity)
             [OpInt (Z.of_nat i); OpInt (Z.of_nat j); OpScanErr se] /\
    (forall i' j' f,
        before i' j' i j -> field_at raw i' j' = Some f ->
        exists v, fmt.Sscanf_d f = Ok v).
Proof.
  apply (Validate_error_names_first_bad_field
           (Some {| Content := [["1"; "2"]; ["3"; "x"]; ["y"; "6"]] |})).
  vm_compute. reflexivity.
Defined.

(** X10: shape comes before content.  When the raw content has 1 to 10
    rows, a first row of at most 10 fields and some row of another length,
    [Validate] returns the row-length error for the first such row, with
    its index, the expected length and the length found, whatever the
    fields contain. *)
Theorem Validate_reports_first_odd_row :
  forall content : list (list string),
    content <> [] ->
    (length content <= 10)%nat ->
    (length (hd [] content) <= 10)%nat ->
    Exists (fun row => length row <> length (hd [] content)) content ->
    exists k row,
      content !! k = Some row /\
      length row <> length (hd [] content) /\
      Forall (fun r => length r = length (hd [] content)) (take k content) /\
      domain.Validate Background (Some {| Content := content |})
      = Err (Errorf "%w: inconsistent row length at row %d: expected %d columns, got %d"
                    (Var ErrUnprocessableEntity)
                    [OpInt (Z.of_nat k); OpInt (Z.of_nat (length (hd [] content)));
                     OpInt (Z.of_nat (length row))]).
Proof.
  intros content Hne Hr Hc Hodd.
  unfold domain.Validate. cbn [ctx_Err Background Content].
  destruct content as [|row0 rest] eqn:Hcont; [contradiction|]. rewrite <- Hcont in *.
  assert (Hhd : hd [] content = row0) by (subst; reflexivity). rewrite Hhd in *.
  unfold domain.maxInputMatrixRows, domain.maxInputMatrixCols.
  destruct (Nat.ltb_spec 10 (length content)); [lia|].
  destruct (Nat.ltb_spec 10 (length row0)); [lia|].
  destruct (domain.check_rows (length row0) 0 content) as [e|] eqn:Hchk.
  - destruct (check_rows_reports _ _ _ _ Hchk) as (k & row & Hk & Hlen & Hpre & ->).
    exists k, row. repeat split; auto.
  - exfalso. apply check_rows_None in Hchk.
    apply Exists_exists in Hodd as (row & Hin & Hlen).
    rewrite Forall_forall in Hchk. apply Hlen, Hchk, Hin.
Qed.

Lemma Validate_reports_first_odd_row_witness :
  exists k row,
    [["1"; "oops"]; ["3"]; []] !! k = Some row /\
    length row <> length (hd [] [["1"; "oops"]; ["3"]; []]) /\
    Forall (fun r => length r = length (hd [] [["1"; "oops"]; ["3"]; []]))
           (take k [["1"; "oops"]; ["3"]; []]) /\
    domain.Validate Background (Some {| Content := [["1"; "oops"]; ["3"]; []] |})
    = Err (Errorf "%w: inconsistent row length at row %d: expected %d columns, got %d"
                  (Var ErrUnprocessableEntity)
                  [OpInt (Z.of_nat k);
                   OpInt (Z.of_nat (length (hd [] [["1"; "oops"]; ["3"]; []])));
                   OpInt (Z.of_nat (length row))]).
Proof.
  apply (Validate_reports_first_odd_row [["1"; "oops"]; ["3"]; []]).
  - discriminate.
  - simpl. lia.
  - simpl. lia.
  - right. left. simpl. lia.
Defined.

(** X11: a matrix returned by [Validate] meets the size limits: it has
    between 1 and 10 rows and every row has at most 10 elements. *)
Theorem Validate_result_within_limits :
  forall (rawData : option MatrixFileContent) (m : Matrix),
    domain.Validate Background rawData = Ok m ->
    (1 <= length (Data m) <= 10)%nat /\
    Forall (fun row => (length row <= 10)%nat) (Data m).
Proof.
  intros rawData m Hok.
  destruct (shape_cases rawData) as [Hbad|(content & -> & Hne & Hr & Hc & Hrect)].
  { destruct (bad_shape_Err rawData Hbad) as [e He]. congruence. }
  destruct (Validate_Ok _ _ Hok) as (raw & [= <-] & _ & _ & Hscan).
  cbn [Content] in Hscan.
  pose proof (Forall2_length _ _ _ Hscan) as Hlen.
  split.
  - rewrite <- Hlen. destruct content; [contradiction|]. simpl in *. lia.
  - apply Forall_forall. intros mrow Hin.
    apply list_elem_of_lookup in Hin as [i Hi].
    destruct (Forall2_lookup_r _ _ _ _ _ Hscan Hi) as (row & Hrow & Hrs).
    rewrite <- (Forall2_length _ _ _ Hrs).
    rewrite Forall_forall in Hrect.
    rewrite (Hrect row) by (eapply list_elem_of_lookup_2; eauto). exact Hc.
Qed.

Lemma Validate_result_within_limits_witness :
  (1 <= length (Data {| Data := [[1%Z; 2%Z]; [3%Z; 4%Z]] |}) <= 10)%nat /\
  Forall (fun row => (length row <= 10)%nat) (Data {| Data := [[1; 2]; [3; 4]] |}).
Proof.
  apply (Validate_result_within_limits (Some {| Content := [["1"; "2"]; ["3"; "4"]] |})).
  vm_compute. reflexivity.
Defined.

(** ** The content provider *)

(** X12: [GetFileContent] under a live context returns content exactly when
    the file opens, its size is known and at most 1024 bytes, and the CSV
    reader succeeds; the content is then the reader's records unchanged.  A
    file of more than 1024 bytes is refused as [PayloadTooLarge] whatever
    the CSV reader would do with it; a file that cannot be opened or sized
    is [NotFound]; a CSV error is [UnprocessableEntity]. *)
Theorem GetFileContent_outcomes :
  forall (File : Type) (os : repository.OS File) (filePath : string),
    let r := repository.GetFileContent os Background filePath in
    (forall c, r = Ok c <->
       exists file size records,
         repository.os_Open os filePath = Ok file /\
         repository.file_Stat_Size os file = Ok size /\
         size <= 1024 /\
         repository.csv_ReadAll os file = Ok records /\
         c = Some {| Content := records |}) /\
    (forall file size,
        repository.os_Open os filePath = Ok file ->
        repository.file_Stat_Size os file = Ok size ->
        1024 < size ->
        r = Err (Errorf "%w: file too large: %d bytes (maximum: %d bytes)"
                        (Var ErrPayloadTooLarge) [OpInt size; OpInt 1024])) /\
    (forall e, r = Err e ->
       (errors.Is e ErrNotFound = true /\
        ((exists msg, repository.os_Open os filePath = Err msg) \/
         (exists file msg, repository.os_Open os filePath = Ok file /\
                           repository.file_Stat_Size os file = Err msg))) \/
       errors.Is e ErrPayloadTooLarge = true \/
       (errors.Is e ErrUnprocessableEntity = true /\
        exists file msg, repository.os_Open os filePath = Ok file /\
                         repository.csv_ReadAll os file = Err msg)).
Proof.
  intros File os filePath r. subst r.
  unfold repository.GetFileContent. cbn [ctx_Err Background].
  unfold repository.maxFileSizeBytes.
  destruct (repository.os_Open os filePath) as [file|msg|] eqn:Hopen.
  2: { split; [|split].
       - intros c. split; [discriminate|]. intros (f & s & rs & H & _). discriminate.
       - intros f s H. discriminate.
       - intros e [= <-]. left. split; [reflexivity|]. left. eauto. }
  2: { split; [|split].
       - intros c. split; [discriminate|]. intros (f & s & rs & H & _). discriminate.
       - intros f s H. discriminate.
       - discriminate. }
  destruct (repository.file_Stat_Size os file) as [size|msg|] eqn:Hstat.
  2: { split; [|split].
       - intros c. split; [discriminate|].
         intros (f & s & rs & [= <-] & H & _). congruence.
       - intros f s [= <-] H. congruence.
       - intros e [= <-]. left. split; [reflexivity|]. right. eauto. }
  2: { split; [|split].
       - intros c. split; [discriminate|].
         intros (f & s & rs & [= <-] & H & _). congruence.
       - intros f s [= <-] H. congruence.
       - discriminate. }
  destruct (Z.ltb_spec 1024 size) as [Hbig|Hsmall].
  { split; [|split].
    - intros c. split; [discriminate|].
      intros (f & s & rs & [= <-] & H & Hle & _). rewrite Hstat in H.
      injection H as <-. lia.
    - intros f s [= <-] H _. rewrite Hstat in H. injection H as <-. reflexivity.
    - intros e [= <-]. right. left. reflexivity. }
  destruct (repository.csv_ReadAll os file) as [records|msg|] eqn:Hcsv.
  - split; [|split].
    + intros c. split.
      * intros [= <-]. exists file, size, records. repeat split; auto.
      * intros (f & s & rs & [= <-] & _ & _ & H & ->). rewrite Hcsv in H.
        injection H as <-. reflexivity.
    + intros f s [= <-] H Hgt. rewrite Hstat in H. injection H as <-. lia.
    + discriminate.
  - split; [|split].
    + intros c. split; [discriminate|].
      intros (f & s & rs & [= <-] & _ & _ & H & _). congruence.
    + intros f s [= <-] H Hgt. rewrite Hstat in H. injection H as <-. lia.
    + intros e [= <-]. right. right. split; [reflexivity|]. eauto.
  - split; [|split].
    + intros c. split; [discriminate|].
      intros (f & s & rs & [= <-] & _ & _ & H & _). congruence.
    + intros f s [= <-] H Hgt. rewrite Hstat in H. injection H as <-. lia.
    + discriminate.
Qed.

Example GetFileContent_size_boundary :
  repository.GetFileContent (one_file "testdata/m.csv" 1024 [["1"]]) Background "testdata/m.csv"
    = Ok (Some {| Content := [["1"]] |}) /\
  repository.GetFileContent (one_file "testdata/m.csv" 1025 [["1"]]) Background "testdata/m.csv"
    = Err (Errorf "%w: file too large: %d bytes (maximum: %d bytes)"
                  (Var ErrPayloadTooLarge) [OpInt 1025; OpInt 1024]).
Proof. split; reflexivity. Qed.

(** ** The pipeline on the real collaborators *)

Lemma ValidateFilePath_error_class filePath e :
  domain.ValidateFilePath Background filePath = Some e ->
  errors.Is e ErrInvalidInput = true.
Proof.
  unfold domain.ValidateFilePath. cbn [ctx_Err Background].
  destruct (String.eqb filePath ""); [intros [= <-]; reflexivity|].
  destruct (Strings.Contains filePath ".."); [intros [= <-]; reflexivity|].
  destruct (Strings.HasPrefix filePath "testdata/"); cbn [negb];
    [|intros [= <-]; reflexivity].
  destruct (Strings.HasSuffix filePath ".csv"); cbn [negb];
    [discriminate | intros [= <-]; reflexivity].
Qed.

Lemma GetFileContent_no_panic {File} (os : repository.OS File) ctx filePath :
  os_returns os -> repository.GetFileContent os ctx filePath <> Panic.
Proof.
  intros (Hopen & Hstat & Hcsv). unfold repository.GetFileContent.
  destruct (ctx_Err ctx); [discriminate|].
  specialize (Hopen filePath).
  destruct (repository.os_Open os filePath) as [file| |]; [|discriminate|contradiction].
  specialize (Hstat file). specialize (Hcsv file).
  destruct (repository.file_Stat_Size os file) as [size| |]; [|discriminate|contradiction].
  destruct (repository.maxFileSizeBytes <? size); [discriminate|].
  destruct (repository.csv_ReadAll os file); [discriminate|discriminate|contradiction].
Qed.

Lemma sum_text data :
  data <> [] -> domain.sum (Some {| Data := data |}) = Ok (strconv.FormatInt (total data)).
Proof.
  intros Hne. unfold domain.sum. rewrite guarded_nonempty by assumption.
  rewrite sum_rows_acc. reflexivity.
Qed.

Lemma multiply_text data :
  data <> [] ->
  domain.multiply (Some {| Data := data |}) = Ok (strconv.FormatInt (product data)).
Proof.
  intros Hne. unfold domain.multiply. rewrite guarded_nonempty by assumption.
  rewrite mul_rows_acc. f_equal. f_equal. lia.
Qed.

(** [RunOperation] on a non-empty matrix whose rows are as long as the
    first. *)
Lemma RunOperation_text operation data :
  In operation operation_names ->
  data <> [] ->
  Forall (fun row => (length (hd [] data) <= length row)%nat) data ->
  domain.RunOperation Background (Some {| Data := data |}) operation
  = Ok (operation_text operation data).
Proof.
  intros Hop Hne Hlong. unfold domain.RunOperation, operation_text.
  cbn [ctx_Err Background]. unfold operation_names in Hop.
  destruct Hop as [<-|[<-|[<-|[<-|[<-|[]]]]]];
    cbn [String.eqb Ascii.eqb Bool.eqb andb domain.SumOperation domain.MultiplyOperation
         domain.EchoOperation domain.InvertOperation domain.FlattenOperation].
  - apply sum_text. assumption.
  - apply multiply_text. assumption.
  - apply echo_render. assumption.
  - apply invert_long_rows; assumption.
  - apply flatten_joined. assumption.
Qed.

Lemma RunOperation_no_panic ctx operation data :
  data <> [] ->
  Forall (fun row => (length (hd [] data) <= length row)%nat) data ->
  domain.RunOperation ctx (Some {| Data := data |}) operation <> Panic.
Proof.
  intros Hne Hlong. unfold domain.RunOperation.
  destruct (ctx_Err ctx); [discriminate|].
  destruct (String.eqb operation domain.SumOperation);
    [rewrite sum_text by assumption; discriminate|].
  destruct (String.eqb operation domain.MultiplyOperation);
    [rewrite multiply_text by assumption; discriminate|].
  destruct (String.eqb operation domain.EchoOperation);
    [rewrite echo_render by assumption; discriminate|].
  destruct (String.eqb operation domain.InvertOperation);
    [rewrite invert_long_rows by assumption; discriminate|].
  destruct (String.eqb operation domain.FlattenOperation);
    [rewrite flatten_joined by assumption; discriminate|].
  discriminate.
Qed.

(** A matrix returned by [Validate] has a row and all its rows have the
    length of the first. *)
Lemma Validate_Ok_rect ctx rawData m :
  domain.Validate ctx rawData = Ok m ->
  Data m <> [] /\
  Forall (fun row => (length (hd [] (Data m)) <= length row)%nat) (Data m).
Proof.
  destruct ctx as [[cerr|]]; [discriminate|].
  change {| ctx_Err := None |} with Background. intros Hok.
  destruct (Validate_Ok rawData m Hok) as (raw & -> & Hne & Hrect & Hscan).
  pose proof (Forall2_length _ _ _ Hscan) as Hlen.
  assert (Hall : Forall (fun row => length row = length (hd [] (Content raw))) (Data m)).
  { apply Forall_forall. intros mrow Hin.
    apply list_elem_of_lookup in Hin as [i Hi].
    destruct (Forall2_lookup_r _ _ _ _ _ Hscan Hi) as (row & Hrow & Hrs).
    rewrite <- (Forall2_length _ _ _ Hrs).
    rewrite Forall_forall in Hrect. apply Hrect. eapply list_elem_of_lookup_2; eauto. }
  destruct (Data m) as [|mrow0 mrest] eqn:Hd.
  { destruct (Content raw); [contradiction|discriminate]. }
  split; [discriminate|].
  inversion Hall as [|? ? H0 _]; subst. cbn [hd]. rewrite H0.
  eapply Forall_impl; [exact Hall|]. intros row Hrow. simpl in Hrow. lia.
Qed.

Lemma pipeline_no_panic {File} (os : repository.OS File) ctx operation filePath log :
  os_returns os ->
  (domain.ProcessMatrix (domain.NewMatrixDomain os) ctx operation filePath log).2
  <> Panic.
Proof.
  intros Hos. unfold domain.ProcessMatrix.
  destruct (ctx_Err ctx) as [cerr|] eqn:Hctx; [discriminate|].
  destruct (String.eqb operation ""); [discriminate|].
  unfold mbind, domain.logged_bind, domain.invoke, domain.done_with.
  cbn [domain.NewMatrixDomain domain.validatorDomain domain.operationsDomain
       domain.matrixRepository domain.NewMatrixValidatorDomain
       domain.NewMatrixOperationsDomain domain.NewMatrixRepository
       domain.iface_ValidateFilePath domain.iface_IsValidOperation
       domain.iface_GetFileContent domain.iface_Validate domain.iface_RunOperation].
  destruct (domain.ValidateFilePath ctx filePath); cbn [domain.check snd]; [discriminate|].
  destruct (domain.IsValidOperation ctx operation); cbn [domain.check snd]; [discriminate|].
  pose proof (GetFileContent_no_panic os ctx filePath Hos) as Hg.
  destruct (repository.GetFileContent os ctx filePath) as [rawData| |]; cbn [snd];
    [|discriminate|contradiction].
  pose proof (Validate_no_panic ctx rawData) as Hv.
  destruct (domain.Validate ctx rawData) as [m| |] eqn:Hval;
    cbn [mbind result_bind snd]; [|discriminate|contradiction].
  destruct (Validate_Ok_rect ctx rawData m Hval) as [Hne Hlong].
  destruct m as [data]. cbn [Data] in *.
  pose proof (RunOperation_no_panic ctx operation data Hne Hlong) as Hr.
  destruct (domain.RunOperation ctx (Some {| Data := data |}) operation); cbn [snd];
    [discriminate|discriminate|contradiction].
Qed.

(** X13: the pipeline wired as [NewMatrixDomain] wires it never panics, as
    long as the operating system and the CSV reader return: the validator
    hands [RunOperation] only non-empty rectangular matrices, on which the
    unchecked indexing of [invert] stays in range. *)
Theorem pipeline_never_panics :
  forall (File : Type) (os : repository.OS File) (ctx : Context)
         (operation filePath : string) (log : list domain.call),
    os_returns os ->
    (domain.ProcessMatrix (domain.NewMatrixDomain os) ctx operation filePath log).2
    <> Panic.
Proof. intros File os. apply pipeline_no_panic. Qed.

Lemma pipeline_never_panics_witness :
  (domain.ProcessMatrix (domain.NewMatrixDomain (one_file "testdata/m.csv" 12 [["1"; "2"]; ["3"; "4"]]))
     Background "invert" "testdata/m.csv" []).2 <> Panic.
Proof.
  apply (pipeline_never_panics unit (one_file "testdata/m.csv" 12 [["1"; "2"]; ["3"; "4"]])).
  unfold os_returns, one_file. simpl.
  split; [|split]; intros x; try discriminate.
  destruct (String.eqb x "testdata/m.csv"); discriminate.
Defined.

(** X14: a request with a refused path or an unknown operation name is
    answered [InvalidInput] before any file access: on the real
    collaborators and under a live context, [ProcessMatrix] then makes no
    call of [GetFileContent], whatever the operating system holds. *)
Theorem invalid_request_never_reads_file :
  forall (File : Type) (os : repository.OS File) (operation filePath : string),
    domain.ValidateFilePath Background filePath <> None \/
    ~ In operation operation_names ->
    let run := domain.ProcessMatrix (domain.NewMatrixDomain os) Background
                 operation filePath [] in
    exists e, run.2 = Err e /\
              errors.Is e ErrInvalidInput = true /\
              existsb is_GetFileContent run.1 = false.
Proof.
  intros File os operation filePath Hbad run. subst run.
  unfold domain.ProcessMatrix. cbn [ctx_Err Background].
  destruct (String.eqb operation ""); [eexists; repeat split|].
  unfold mbind, domain.logged_bind, domain.invoke, domain.done_with.
  cbn [domain.NewMatrixDomain domain.validatorDomain domain.operationsDomain
       domain.matrixRepository domain.NewMatrixValidatorDomain
       domain.NewMatrixOperationsDomain domain.NewMatrixRepository
       domain.iface_ValidateFilePath domain.iface_IsValidOperation
       domain.iface_GetFileContent domain.iface_Validate domain.iface_RunOperation].
  destruct (domain.ValidateFilePath Background filePath) as [e|] eqn:Hpath;
    cbn [domain.check].
  { exists e. split; [reflexivity|]. split; [|reflexivity].
    eapply ValidateFilePath_error_class; eauto. }
  destruct Hbad as [Hp|Hop]; [contradiction|].
  destruct (domain.IsValidOperation Background operation) as [e|] eqn:Hvalid;
    cbn [domain.check].
  { exists e. split; [reflexivity|]. split; [|reflexivity].
    revert Hvalid. unfold domain.IsValidOperation. cbn [ctx_Err Background].
    destruct (default false (domain.matrixOperations !! operation)); cbn [negb];
      [discriminate|]. intros [= <-]. reflexivity. }
  exfalso. apply Hop. apply matrixOperations_lookup.
  revert Hvalid. unfold domain.IsValidOperation. cbn [ctx_Err Background].
  destruct (default false (domain.matrixOperations !! operation)); cbn [negb];
    [reflexivity | discriminate].
Qed.

Lemma invalid_request_never_reads_file_witness :
  exists e,
    (domain.ProcessMatrix (domain.NewMatrixDomain (one_file "/etc/passwd" 10 [["1"]]))
       Background "sum" "testdata/../../etc/passwd" []).2 = Err e /\
    errors.Is e ErrInvalidInput = true /\
    existsb is_GetFileContent
      (domain.ProcessMatrix (domain.NewMatrixDomain (one_file "/etc/passwd" 10 [["1"]]))
         Background "sum" "testdata/../../etc/passwd" []).1 = false.
Proof.
  apply (invalid_request_never_reads_file unit (one_file "/etc/passwd" 10 [["1"]])
           "sum" "testdata/../../etc/passwd").
  left. vm_compute. discriminate.
Defined.

(** X15: the pipeline computes on the integers the file's fields denote.
    For an accepted path, one of the five operation names, and a file whose
    records have 1 to 10 rows of one length of at most 10 and hold clean
    decimal integers fitting an [int64], [ProcessMatrix] on the real
    collaborators makes the five calls in order and returns the operation's
    text for the matrix of denoted integers: their exact sum or product,
    the matrix or its transpose rendered, or all elements on one line. *)
Theorem pipeline_result_on_clean_file :
  forall (File : Type) (os : repository.OS File) (operation filePath : string)
         (records : list (list string)) (vals : list (list Z)),
    In operation operation_names ->
    domain.ValidateFilePath Background filePath = None ->
    repository.GetFileContent os Background filePath
      = Ok (Some {| Content := records |}) ->
    records <> [] ->
    (length records <= 10)%nat ->
    (length (hd [] records) <= 10)%nat ->
    Forall (fun row => length row = length (hd [] records)) records ->
    Forall2 (Forall2 denotes_int64) records vals ->
    domain.ProcessMatrix (domain.NewMatrixDomain os) Background operation filePath []
    = (pipeline operation filePath (Some {| Content := records |})
                (Some {| Data := vals |}),
       Ok (operation_text operation vals)).
Proof.
  intros File os operation filePath records vals Hop Hpath Hget Hne Hr Hc Hrect Hclean.
  assert (Hvals : vals <> [] /\
                  Forall (fun row => (length (hd [] vals) <= length row)%nat) vals).
  { pose proof (Validate_accepts_shape := Validate_scan records Hne Hr Hc Hrect).
    rewrite (scan_rows_clean records vals Hclean) in Validate_accepts_shape.
    apply (Validate_Ok_rect Background (Some {| Content := records |}) {| Data := vals |}).
    exact Validate_accepts_shape. }
  destruct Hvals as [Hvne Hvlong].
  unfold domain.ProcessMatrix. cbn [ctx_Err Background].
  assert (Hnonempty : String.eqb operation "" = false).
  { unfold operation_names in Hop.
    destruct Hop as [<-|[<-|[<-|[<-|[<-|[]]]]]]; reflexivity. }
  rewrite Hnonempty.
  unfold mbind at 1 2 3 4 5, domain.logged_bind, domain.invoke, domain.done_with.
  cbn [domain.NewMatrixDomain domain.validatorDomain domain.operationsDomain
       domain.matrixRepository domain.NewMatrixValidatorDomain
       domain.NewMatrixOperationsDomain domain.NewMatrixRepository
       domain.iface_ValidateFilePath domain.iface_IsValidOperation
       domain.iface_GetFileContent domain.iface_Validate domain.iface_RunOperation].
  rewrite Hpath. cbn [domain.check].
  assert (Hvalid : domain.IsValidOperation Background operation = None).
  { unfold domain.IsValidOperation. cbn [ctx_Err Background].
    rewrite (proj2 (matrixOperations_lookup operation) Hop). reflexivity. }
  rewrite Hvalid. cbn [domain.check].
  rewrite Hget.
  rewrite (Validate_scan records Hne Hr Hc Hrect).
  rewrite (scan_rows_clean records vals Hclean). cbn [mbind result_bind].
  rewrite (RunOperation_text operation vals Hop Hvne Hvlong).
  reflexivity.
Qed.

Lemma pipeline_result_on_clean_file_witness :
  domain.ProcessMatrix
    (domain.NewMatrixDomain (one_file "testdata/m.csv" 12 [["1"; "2"; "3"]; ["4"; "5"; "6"]]))
    Background "invert" "testdata/m.csv" []
  = (pipeline "invert" "testdata/m.csv"
              (Some {| Content := [["1"; "2"; "3"]; ["4"; "5"; "6"]] |})
              (Some {| Data := [[1; 2; 3]; [4; 5; 6]] |}),
     Ok (operation_text "invert" [[1; 2; 3]; [4; 5; 6]])).
Proof.
  apply (pipeline_result_on_clean_file unit
           (one_file "testdata/m.csv" 12 [["1"; "2"; "3"]; ["4"; "5"; "6"]])
           "invert" "testdata/m.csv"
           [["1"; "2"; "3"]; ["4"; "5"; "6"]] [[1; 2; 3]; [4; 5; 6]]).
  - simpl. auto 6.
  - vm_compute. reflexivity.
  - vm_compute. reflexivity.
  - discriminate.
  - simpl. lia.
  - simpl. lia.
  - repeat constructor.
  - repeat constructor; vm_compute; try reflexivity; discriminate.
Defined.

(** ** The HTTP handler *)

Lemma Is_unique e v v' :
  errors.Is e v = true -> errors.Is e v' = true -> v = v'.
Proof.
  induction e as [u|msg|format w IH operands]; simpl.
  - intros H1 H2. apply bool_decide_eq_true in H1, H2. congruence.
  - discriminate.
  - exact IH.
Qed.

Lemma status_in_table e s :
  In s sentinels -> errors.Is e s = true ->
  In (apperrors.GetHTTPStatusCode (Some e)) [400; 404; 413; 422] /\
  errors.Is e ctxCanceled = false /\ errors.Is e ctxDeadlineExceeded = false.
Proof.
  intros Hs He. split; [|split].
  - unfold apperrors.GetHTTPStatusCode.
    destruct (errors.Is e ErrInvalidInput) eqn:H1; [simpl; auto|].
    destruct (errors.Is e ErrNotFound) eqn:H2; [simpl; auto|].
    destruct (errors.Is e ErrPayloadTooLarge) eqn:H3; [simpl; auto|].
    destruct (errors.Is e ErrUnprocessableEntity) eqn:H4; [simpl; auto 6|].
    exfalso. simpl in Hs. destruct Hs as [<-|[<-|[<-|[<-|[]]]]]; congruence.
  - destruct (errors.Is e ctxCanceled) eqn:Hc; [|reflexivity].
    pose proof (Is_unique e _ _ He Hc) as ->. simpl in Hs.
    destruct Hs as [H|[H|[H|[H|[]]]]]; discriminate.
  - destruct (errors.Is e ctxDeadlineExceeded) eqn:Hc; [|reflexivity].
    pose proof (Is_unique e _ _ He Hc) as ->. simpl in Hs.
    destruct Hs as [H|[H|[H|[H|[]]]]]; discriminate.
Qed.

Lemma Validate_error_class rawData e :
  domain.Validate Background rawData = Err e ->
  errors.Is e ErrUnprocessableEntity = true.
Proof.
  unfold domain.Validate. cbn [ctx_Err Background].
  destruct rawData as [[content]|]; [|intros [= <-]; reflexivity]. cbn [Content].
  destruct content as [|row0 rest] eqn:Hcont; [intros [= <-]; reflexivity|].
  rewrite <- Hcont.
  destruct (domain.maxInputMatrixRows <? length content)%nat;
    [intros [= <-]; reflexivity|].
  destruct (domain.maxInputMatrixCols <? length row0)%nat;
    [intros [= <-]; reflexivity|].
  destruct (domain.check_rows (length row0) 0 content) as [e'|] eqn:Hchk.
  - intros [= <-]. eapply check_rows_Some; eauto.
  - apply check_rows_None in Hchk.
    rewrite (convert_rows_eq (length row0)) by (rewrite ?length_replicate; auto).
    destruct (scan_rows 0 content) as [vals|e'|] eqn:Hscan; cbn [mbind result_bind];
      try discriminate.
    intros [= <-].
    destruct (scan_rows_Err content 0 e' Hscan)
      as (k & row & j & f & se & _ & _ & _ & -> & _).
    reflexivity.
Qed.

Lemma GetFileContent_error_class {File} (os : repository.OS File) filePath e :
  repository.GetFileContent os Background filePath = Err e ->
  errors.Is e ErrNotFound = true \/ errors.Is e ErrPayloadTooLarge = true \/
  errors.Is e ErrUnprocessableEntity = true.
Proof.
  unfold repository.GetFileContent. cbn [ctx_Err Background].
  destruct (repository.os_Open os filePath) as [file|msg|];
    [|intros [= <-]; left; reflexivity|discriminate].
  destruct (repository.file_Stat_Size os file) as [size|msg|];
    [|intros [= <-]; left; reflexivity|discriminate].
  destruct (repository.maxFileSizeBytes <? size);
    [intros [= <-]; right; left; reflexivity|].
  destruct (repository.csv_ReadAll os file);
    [discriminate|intros [= <-]; right; right; reflexivity|discriminate].
Qed.

(** Under a live context every error of the pipeline on the real
    collaborators carries one of the four sentinels. *)
Lemma pipeline_error_class {File} (os : repository.OS File) operation filePath e :
  (domain.ProcessMatrix (domain.NewMatrixDomain os) Background operation filePath []).2
  = Err e ->
  exists s, In s sentinels /\ errors.Is e s = true.
Proof.
  unfold domain.ProcessMatrix. cbn [ctx_Err Background].
  destruct (String.eqb operation "").
  { intros [= <-]. exists ErrInvalidInput. split; [simpl; auto|reflexivity]. }
  unfold mbind at 1 2 3 4 5, domain.logged_bind, domain.invoke, domain.done_with.
  cbn [domain.NewMatrixDomain domain.validatorDomain domain.operationsDomain
       domain.matrixRepository domain.NewMatrixValidatorDomain
       domain.NewMatrixOperationsDomain domain.NewMatrixRepository
       domain.iface_ValidateFilePath domain.iface_IsValidOperation
       domain.iface_GetFileContent domain.iface_Validate domain.iface_RunOperation].
  destruct (domain.ValidateFilePath Background filePath) as [e1|] eqn:Hpath;
    cbn [domain.check snd].
  { intros [= <-]. exists ErrInvalidInput. split; [simpl; auto|].
    eapply ValidateFilePath_error_class; eauto. }
  destruct (domain.IsValidOperation Background operation) as [e2|] eqn:Hvalid;
    cbn [domain.check snd].
  { intros [= <-]. exists ErrInvalidInput. split; [simpl; auto|].
    revert Hvalid. unfold domain.IsValidOperation. cbn [ctx_Err Background].
    destruct (default false (domain.matrixOperations !! operation)); cbn [negb];
      [discriminate|]. intros [= <-]. reflexivity. }
  assert (Hop : In operation operation_names).
  { apply matrixOperations_lookup. revert Hvalid.
    unfold domain.IsValidOperation. cbn [ctx_Err Background].
    destruct (default false (domain.matrixOperations !! operation)); cbn [negb];
      [reflexivity | discriminate]. }
  destruct (repository.GetFileContent os Background filePath) as [rawData|e3|] eqn:Hget;
    cbn [snd]; [| |discriminate].
  2: { intros [= <-].
       destruct (GetFileContent_error_class os filePath e3 Hget) as [H|[H|H]];
         [exists ErrNotFound|exists ErrPayloadTooLarge|exists ErrUnprocessableEntity];
         (split; [simpl; auto|exact H]). }
  destruct (domain.Validate Background rawData) as [m|e4|] eqn:Hval;
    cbn [mbind result_bind snd]; [| |discriminate].
  2: { intros [= <-]. exists ErrUnprocessableEntity. split; [simpl; auto|].
       eapply Validate_error_class; eauto. }
  destruct (Validate_Ok_rect Background rawData m Hval) as [Hne Hlong].
  destruct m as [data]. cbn [Data] in *.
  rewrite (RunOperation_text operation data Hop Hne Hlong). discriminate.
Qed.

Lemma slice_route operation :
  handler.slice_from ("/matrix/" +:+ operation) (String.length "/matrix/") = Ok operation.
Proof.
  unfold handler.slice_from. rewrite length_append.
  destruct (Nat.ltb_spec (String.length "/matrix/" + String.length operation)
                         (String.length "/matrix/")) as [H|H]; [lia|].
  replace (String.length "/matrix/" + String.length operation - String.length "/matrix/")%nat
    with (String.length operation) by lia.
  rewrite substring_suffix. reflexivity.
Qed.

(** X16: what the service answers under a live context.  For a GET request
    routed under [/matrix/], with the operating system and the CSV reader
    returning, the handler on the real collaborators either writes the
    pipeline's text with status 200 and content type [text/plain], or calls
    [http.Error] with the pipeline's error and a status among 400, 404, 413
    and 422.  It never answers 500 or 504, never leaves the response
    unwritten and never panics. *)
Theorem service_answers_live_request :
  forall (File : Type) (os : repository.OS File) (iteration : list (string * bool))
         (r : handler.Request) (operation : string),
    os_returns os ->
    handler.Method r = "GET" ->
    handler.Path r = "/matrix/" +:+ operation ->
    ctx_Err (handler.ctx r) = None ->
    let run := (domain.ProcessMatrix (domain.NewMatrixDomain os) Background
                  operation (handler.file r) []).2 in
    (exists text,
        run = Ok text /\
        handler.ProcessMatrix (handler.NewMatrixHandler os iteration) r
        = Ok (handler.Written "text/plain" 200 text)) \/
    (exists e code,
        run = Err e /\
        In code [400; 404; 413; 422] /\
        code = apperrors.GetHTTPStatusCode (Some e) /\
        handler.ProcessMatrix (handler.NewMatrixHandler os iteration) r
        = Ok (handler.HttpError (handler.ErrorText e) code)).
Proof.
  intros File os iteration r operation Hos Hm Hp Hctx run. subst run.
  unfold handler.ProcessMatrix. rewrite Hm, Hp.
  change (String.eqb "GET" handler.MethodGet) with true. cbn [negb].
  rewrite slice_route. cbn [mbind result_bind].
  cbn [handler.NewMatrixHandler handler.matrixDomain handler.iface_ProcessMatrix].
  destruct (handler.ctx r) as [cerr]. cbn [ctx_Err] in Hctx. subst cerr.
  change {| ctx_Err := None |} with Background.
  pose proof (pipeline_no_panic os Background operation (handler.file r) [] Hos) as Hnp.
  destruct ((domain.ProcessMatrix (domain.NewMatrixDomain os) Background operation
               (handler.file r) []).2) as [text|e|] eqn:Hrun; [| |contradiction].
  - left. exists text. split; reflexivity.
  - right. destruct (pipeline_error_class os operation (handler.file r) e Hrun)
      as (s & Hs & He).
    destruct (status_in_table e s Hs He) as (Hcode & Hc & Hd).
    rewrite Hc, Hd.
    exists e, (apperrors.GetHTTPStatusCode (Some e)).
    split; [reflexivity|]. split; [exact Hcode|]. split; reflexivity.
Qed.

Lemma service_answers_live_request_witness :
  let r := {| handler.Method := "GET"; handler.Path := "/matrix/sum";
              handler.file := "testdata/m.csv"; handler.ctx := Background |} in
  let os := one_file "testdata/m.csv" 12 [["1"; "2"; "3"]; ["4"; "5"; "6"]] in
  let run := (domain.ProcessMatrix (domain.NewMatrixDomain os) Background
                "sum" (handler.file r) []).2 in
  (exists text,
      run = Ok text /\
      handler.ProcessMatrix (handler.NewMatrixHandler os []) r
      = Ok (handler.Written "text/plain" 200 text)) \/
  (exists e code,
      run = Err e /\
      In code [400; 404; 413; 422] /\
      code = apperrors.GetHTTPStatusCode (Some e) /\
      handler.ProcessMatrix (handler.NewMatrixHandler os []) r
      = Ok (handler.HttpError (handler.ErrorText e) code)).
Proof.
  apply (service_answers_live_request unit
           (one_file "testdata/m.csv" 12 [["1"; "2"; "3"]; ["4"; "5"; "6"]]) []
           {| handler.Method := "GET"; handler.Path := "/matrix/sum";
              handler.file := "testdata/m.csv"; handler.ctx := Background |} "sum").
  - unfold os_returns, one_file. simpl.
    split; [|split]; intros x; try discriminate.
    destruct (String.eqb x "testdata/m.csv"); discriminate.
  - reflexivity.
  - reflexivity.
  - reflexivity.
Defined.

(** X17: cancellation is answered by the handler, not by the status table.
    For a GET request routed under [/matrix/], whatever domain service the
    handler holds: an error whose chain ends in [context.Canceled], under
    any number of wrapping layers, leaves the response unwritten, and one
    ending in [context.DeadlineExceeded] gives 504 with the text
    "request timeout", although [GetHTTPStatusCode] maps both to 500.  On
    the real collaborators a context cancelled or expired before the call
    gives exactly these two answers. *)
Theorem handler_intercepts_context_errors :
  forall (h : handler.matrixHandler) (r : handler.Request) (operation : string)
         (layers : list (string * list operand))
         (File : Type) (os : repository.OS File) (iteration : list (string * bool)),
    handler.Method r = "GET" ->
    handler.Path r = "/matrix/" +:+ operation ->
    (handler.iface_ProcessMatrix (handler.matrixDomain h) (handler.ctx r) operation
       (handler.file r) = Err (wrap layers (Var ctxCanceled)) ->
     handler.ProcessMatrix h r = Ok handler.NothingWritten) /\
    (handler.iface_ProcessMatrix (handler.matrixDomain h) (handler.ctx r) operation
       (handler.file r) = Err (wrap layers (Var ctxDeadlineExceeded)) ->
     handler.ProcessMatrix h r
     = Ok (handler.HttpError (handler.Literal "request timeout") 504)) /\
    apperrors.GetHTTPStatusCode (Some (wrap layers (Var ctxCanceled))) = 500 /\
    apperrors.GetHTTPStatusCode (Some (wrap layers (Var ctxDeadlineExceeded))) = 500 /\
    (ctx_Err (handler.ctx r) = Some (Var ctxCanceled) ->
     handler.ProcessMatrix (handler.NewMatrixHandler os iteration) r
     = Ok handler.NothingWritten) /\
    (ctx_Err (handler.ctx r) = Some (Var ctxDeadlineExceeded) ->
     handler.ProcessMatrix (handler.NewMatrixHandler os iteration) r
     = Ok (handler.HttpError (handler.Literal "request timeout") 504)).
Proof.
  intros h r operation layers File os iteration Hm Hp.
  assert (Hgen : forall h' e,
             handler.iface_ProcessMatrix (handler.matrixDomain h') (handler.ctx r)
               operation (handler.file r) = Err e ->
             handler.ProcessMatrix h' r
             = if errors.Is e ctxCanceled then Ok handler.NothingWritten
               else if errors.Is e ctxDeadlineExceeded
                    then Ok (handler.HttpError (handler.Literal "request timeout") 504)
                    else Ok (handler.HttpError (handler.ErrorText e)
                               (apperrors.GetHTTPStatusCode (Some e)))).
  { intros h' e He. unfold handler.ProcessMatrix. rewrite Hm, Hp.
    change (String.eqb "GET" handler.MethodGet) with true. cbn [negb].
    rewrite slice_route. cbn [mbind result_bind]. rewrite He. reflexivity. }
  split; [|split; [|split; [|split; [|split]]]].
  - intros He. rewrite (Hgen h _ He). rewrite Is_wrap. reflexivity.
  - intros He. rewrite (Hgen h _ He). rewrite !Is_wrap. reflexivity.
  - unfold apperrors.GetHTTPStatusCode. rewrite !Is_wrap. reflexivity.
  - unfold apperrors.GetHTTPStatusCode. rewrite !Is_wrap. reflexivity.
  - intros Hc. rewrite (Hgen _ (Var ctxCanceled)); [reflexivity|].
    cbn [handler.NewMatrixHandler handler.matrixDomain handler.iface_ProcessMatrix].
    unfold domain.ProcessMatrix. rewrite Hc. reflexivity.
  - intros Hc. rewrite (Hgen _ (Var ctxDeadlineExceeded)); [reflexivity|].
    cbn [handler.NewMatrixHandler handler.matrixDomain handler.iface_ProcessMatrix].
    unfold domain.ProcessMatrix. rewrite Hc. reflexivity.
Qed.

Lemma handler_intercepts_context_errors_witness :
  handler.ProcessMatrix
    (handler.NewMatrixHandler (one_file "testdata/m.csv" 12 [["1"]]) [])
    {| handler.Method := "GET"; handler.Path := "/matrix/sum";
       handler.file := "testdata/m.csv";
       handler.ctx := {| ctx_Err := Some (Var ctxCanceled) |} |}
  = Ok handler.NothingWritten.
Proof.
  apply (handler_intercepts_context_errors
           (handler.NewMatrixHandler (one_file "testdata/m.csv" 12 [["1"]]) [])
           {| handler.Method := "GET"; handler.Path := "/matrix/sum";
              handler.file := "testdata/m.csv";
              handler.ctx := {| ctx_Err := Some (Var ctxCanceled) |} |}
           "sum" [] unit (one_file "testdata/m.csv" 12 [["1"]]) []);
    reflexivity.
Defined.

(** X18: the only panic of the service is the slice [r.URL.Path[8:]].  With
    the operating system and the CSV reader returning, the handler on the
    real collaborators panics exactly on a GET request whose path is
    shorter than the route prefix [/matrix/]; every other request gets a
    response value. *)
Theorem handler_panics_only_on_short_path :
  forall (File : Type) (os : repository.OS File) (iteration : list (string * bool))
         (r : handler.Request),
    os_returns os ->
    (handler.ProcessMatrix (handler.NewMatrixHandler os iteration) r = Panic <->
     handler.Method r = "GET" /\ (String.length (handler.Path r) < 8)%nat) /\
    (forall e, handler.ProcessMatrix (handler.NewMatrixHandler os iteration) r <> Err e).
Proof.
  intros File os iteration r Hos. unfold handler.ProcessMatrix.
  destruct (String.eqb_spec (handler.Method r) handler.MethodGet) as [Hm|Hm]; cbn [negb].
  2: { split; [|discriminate]. split; [discriminate|]. intros [H _]. contradiction. }
  unfold handler.slice_from. change (String.length "/matrix/") with 8%nat.
  destruct (Nat.ltb_spec (String.length (handler.Path r)) 8) as [Hlt|Hge];
    cbn [mbind result_bind].
  { split; [|discriminate]. split; auto. }
  cbn [handler.NewMatrixHandler handler.matrixDomain handler.iface_ProcessMatrix].
  pose proof (pipeline_no_panic os (handler.ctx r)
                (substring 8 (String.length (handler.Path r) - 8) (handler.Path r))
                (handler.file r) [] Hos) as Hnp.
  destruct ((domain.ProcessMatrix (domain.NewMatrixDomain os) (handler.ctx r) _ _ []).2)
    as [text|e|]; [| |contradiction].
  - split; [|discriminate]. split; [discriminate|]. intros [_ H]. lia.
  - destruct (errors.Is e ctxCanceled); [|destruct (errors.Is e ctxDeadlineExceeded)];
      (split; [|discriminate]; split; [discriminate|]; intros [_ H]; lia).
Qed.

Lemma handler_panics_only_on_short_path_witness :
  handler.ProcessMatrix
    (handler.NewMatrixHandler (one_file "testdata/m.csv" 12 [["1"]]) [])
    {| handler.Method := "GET"; handler.Path := "/matrix";
       handler.file := "testdata/m.csv"; handler.ctx := Background |}
  = Panic.
Proof.
  apply (handler_panics_only_on_short_path unit
           (one_file "testdata/m.csv" 12 [["1"]]) []
           {| handler.Method := "GET"; handler.Path := "/matrix";
              handler.file := "testdata/m.csv"; handler.ctx := Background |}).
  - unfold os_returns, one_file. simpl.
    split; [|split]; intros x; try discriminate.
    destruct (String.eqb x "testdata/m.csv"); discriminate.
  - split; [reflexivity | simpl; lia].
Defined.

(** ** The listing of operations *)

Lemma ListOperations_keys iteration :
  domain.ListOperations iteration = map fst iteration.
Proof.
  unfold domain.ListOperations.
  assert (H : forall acc, fold_left (fun operations (entry : string * bool) =>
                                       operations ++ [entry.1]) iteration acc
                          = acc ++ map fst iteration).
  { induction iteration as [|entry iteration IH]; intros acc; simpl.
    - rewrite app_nil_r. reflexivity.
    - rewrite IH, <- app_assoc. reflexivity. }
  apply (H []).
Qed.

Lemma matrixOperations_entries :
  map_to_list domain.matrixOperations
  ≡ₚ map (fun name => (name, true)) operation_names.
Proof.
  change domain.matrixOperations
    with (list_to_map (map (fun name => (name, true)) operation_names)
            : gmap string bool).
  apply map_to_list_to_map.
  compute_done.
Qed.

Lemma append_operations_spec ops :
  forall (i : nat) (operationsStr : string),
    domain.append_operations i ops operationsStr
    = operationsStr +:+ match ops with
                        | [] => ""
                        | _ => (if (0 <? i)%nat then "," else "") +:+ String.concat "," ops
                        end.
Proof.
  induction ops as [|op rest IH]; intros i operationsStr; cbn [domain.append_operations].
  - rewrite append_nil_r. reflexivity.
  - rewrite IH. destruct rest as [|op' rest'].
    + cbn [String.concat]. destruct (0 <? i)%nat; rewrite ?append_nil_r, ?append_assoc;
        reflexivity.
    + change (0 <? S i)%nat with true. rewrite concat_cons2.
      destruct (0 <? i)%nat; rewrite ?append_assoc; reflexivity.
Qed.

(** X19: [ListOperations] returns the five operation names, each exactly
    once, in the order the map iteration yields them, and
    [ListMatrixOperations] never fails: it returns the banner followed by
    those names separated by commas. *)
Theorem listing_names_each_operation_once :
  forall iteration : list (string * bool),
    domain.map_iteration iteration ->
    let operations := domain.ListOperations iteration in
    operations ≡ₚ operation_names /\
    NoDup operations /\
    (forall name, In name operations <->
                  domain.IsValidOperation Background name = None) /\
    domain.ListMatrixOperations operations
    = Ok (domain.banner +:+ String.concat "," operations).
Proof.
  intros iteration Hit operations. subst operations.
  rewrite ListOperations_keys.
  assert (Hperm : map fst iteration ≡ₚ operation_names).
  { unfold domain.map_iteration in Hit. rewrite Hit, matrixOperations_entries.
    rewrite map_map. reflexivity. }
  split; [exact Hperm|]. split; [|split].
  - rewrite Hperm. compute_done.
  - intros name. rewrite <- list_elem_of_In, Hperm, list_elem_of_In.
    unfold domain.IsValidOperation. cbn [ctx_Err Background].
    rewrite <- matrixOperations_lookup.
    destruct (default false (domain.matrixOperations !! name)); cbn [negb];
      split; congruence.
  - unfold domain.ListMatrixOperations. rewrite append_operations_spec.
    destruct (map fst iteration) eqn:Hnil; [|reflexivity].
    apply Permutation_nil_l in Hperm. discriminate.
Qed.

Lemma listing_names_each_operation_once_witness :
  NoDup (domain.ListOperations (map_to_list domain.matrixOperations)) /\
  domain.ListMatrixOperations (domain.ListOperations (map_to_list domain.matrixOperations))
  = Ok (domain.banner +:+
        String.concat "," (domain.ListOperations (map_to_list domain.matrixOperations))).
Proof.
  split;
    apply (listing_names_each_operation_once (map_to_list domain.matrixOperations));
    unfold domain.map_iteration; reflexivity.
Defined.

(** ** Order of the elements *)

Lemma fold_add_perm (l l' : list Z) :
  l ≡ₚ l' -> fold_right Z.add 0 l = fold_right Z.add 0 l'.
Proof.
  induction 1 as [|x l l' _ IH|x y l|l l' l'' _ IH1 _ IH2]; simpl; lia.
Qed.

Lemma fold_mul_perm (l l' : list Z) :
  l ≡ₚ l' -> fold_right Z.mul 1 l = fold_right Z.mul 1 l'.
Proof.
  induction 1 as [|x l l' _ IH|x y l|l l' l'' _ IH1 _ IH2]; simpl; lia.
Qed.

(** X20: [sum] and [multiply] do not depend on where the elements stand:
    two non-empty matrices holding the same elements, in any arrangement of
    rows and columns, get the same text from each. *)
Theorem sum_multiply_ignore_arrangement :
  forall data data' : list (list Z),
    data <> [] -> data' <> [] ->
    concat data ≡ₚ concat data' ->
    domain.sum (Some {| Data := data |}) = domain.sum (Some {| Data := data' |}) /\
    domain.multiply (Some {| Data := data |})
    = domain.multiply (Some {| Data := data' |}).
Proof.
  intros data data' Hne Hne' Hperm.
  rewrite !sum_text, !multiply_text by assumption.
  unfold total, product.
  rewrite (fold_add_perm _ _ Hperm), (fold_mul_perm _ _ Hperm). split; reflexivity.
Qed.

Lemma sum_multiply_ignore_arrangement_witness :
  domain.sum (Some {| Data := [[1; 2; 3]; [4; 5; 6]] |})
  = domain.sum (Some {| Data := [[6; 1]; [5; 2]; [4; 3]] |}) /\
  domain.multiply (Some {| Data := [[1; 2; 3]; [4; 5; 6]] |})
  = domain.multiply (Some {| Data := [[6; 1]; [5; 2]; [4; 3]] |}).
Proof.
  apply (sum_multiply_ignore_arrangement [[1; 2; 3]; [4; 5; 6]] [[6; 1]; [5; 2]; [4; 3]]).
  - discriminate.
  - discriminate.
  - simpl. apply (bool_decide_unpack _). vm_compute. exact I.
Defined.

(** ** Rendering and scanning *)

Lemma decimal_from_uint_acc d :
  forall acc : positive,
    decimal_from (Z.pos acc) (list_ascii_of_string (NilEmpty.string_of_uint d))
    = Some (Z.pos (Pos.of_uint_acc d acc)).
Proof.
  induction d as [|d IH|d IH|d IH|d IH|d IH|d IH|d IH|d IH|d IH|d IH]; intros acc;
    [reflexivity|..];
    cbn [NilEmpty.string_of_uint list_ascii_of_string decimal_from Pos.of_uint_acc];
    match goal with
    | |- context [digit_value ?c] =>
        let v := eval vm_compute in (digit_value c) in
        change (digit_value c) with v; cbv iota
    end;
    rewrite <- IH; f_equal; lia.
Qed.

Lemma decimal_from_uint d :
  decimal_from 0 (list_ascii_of_string (NilEmpty.string_of_uint d))
  = Some (Z.of_N (Pos.of_uint d)).
Proof.
  induction d as [|d IH|d IH|d IH|d IH|d IH|d IH|d IH|d IH|d IH|d IH];
    [reflexivity|exact IH|..];
    cbn [NilEmpty.string_of_uint list_ascii_of_string decimal_from Pos.of_uint];
    match goal with
    | |- context [digit_value ?c] =>
        let v := eval vm_compute in (digit_value c) in
        change (digit_value c) with v; cbv iota
    end;
    cbn [Z.of_N]; rewrite <- decimal_from_uint_acc; f_equal.
Qed.

Lemma uint_first_digit d :
  d <> Decimal.Nil ->
  exists c rest,
    list_ascii_of_string (NilEmpty.string_of_uint d) = c :: rest /\
    Ascii.eqb c "-" = false /\ Ascii.eqb c "+" = false.
Proof.
  intros Hd. destruct d; [contradiction|..];
    cbn [NilEmpty.string_of_uint list_ascii_of_string];
    eexists _, _; repeat split; reflexivity.
Qed.

(** The text [FormatInt] writes for [z] denotes [z]. *)
Lemma FormatInt_denotes z : denoted_integer (strconv.FormatInt z) = Some z.
Proof.
  destruct z as [|p|p]; [reflexivity| |].
  - unfold strconv.FormatInt, denoted_integer. cbn [Z.to_int NilZero.string_of_int].
    pose proof (DecimalPos.Unsigned.to_uint_nonnil p) as Hnn.
    assert (Hs : NilZero.string_of_uint (Pos.to_uint p)
                 = NilEmpty.string_of_uint (Pos.to_uint p)).
    { unfold NilZero.string_of_uint. destruct (Pos.to_uint p); [contradiction|..];
        reflexivity. }
    rewrite Hs.
    destruct (uint_first_digit _ Hnn) as (c & rest & Hc & Hm & Hpl).
    pose proof (decimal_from_uint (Pos.to_uint p)) as Hv.
    rewrite Hc in *. rewrite Hm, Hpl. unfold decimal. rewrite Hv.
    rewrite DecimalPos.Unsigned.of_to. reflexivity.
  - unfold strconv.FormatInt, denoted_integer. cbn [Z.to_int NilZero.string_of_int].
    pose proof (DecimalPos.Unsigned.to_uint_nonnil p) as Hnn.
    assert (Hs : NilZero.string_of_uint (Pos.to_uint p)
                 = NilEmpty.string_of_uint (Pos.to_uint p)).
    { unfold NilZero.string_of_uint. destruct (Pos.to_uint p); [contradiction|..];
        reflexivity. }
    rewrite Hs. cbn [list_ascii_of_string].
    change (Ascii.eqb "-" "-") with true. cbv iota.
    destruct (uint_first_digit _ Hnn) as (c & rest & Hc & _ & _).
    pose proof (decimal_from_uint (Pos.to_uint p)) as Hv.
    rewrite Hc in *. unfold decimal. rewrite Hv.
    rewrite DecimalPos.Unsigned.of_to. reflexivity.
Qed.

(** X21: scanning undoes rendering.  For a matrix within the validator's
    limits (1 to 10 rows of one length of at most 10) whose elements are
    [int64] values, the raw content made of the decimal text of each
    element, as [echo] and [flatten] write it, validates to the matrix
    itself. *)
Theorem Validate_inverts_rendering :
  forall (data : list (list Z)) (C : nat),
    data <> [] ->
    (length data <= 10)%nat -> (C <= 10)%nat ->
    Forall (fun row => length row = C) data ->
    Forall (Forall (fun z => minInt64 <= z <= maxInt64)) data ->
    domain.Validate Background
      (Some {| Content := map (map strconv.FormatInt) data |})
    = Ok {| Data := data |}.
Proof.
  intros data C Hne Hr Hc Hrect Hrange.
  assert (Hhd : length (hd [] (map (map strconv.FormatInt) data)) = C).
  { destruct data as [|row0 rest]; [contradiction|].
    inversion Hrect; subst. simpl. apply length_map. }
  rewrite Validate_scan.
  - rewrite (scan_rows_clean _ data); [reflexivity|].
    clear -Hrange. induction Hrange as [|row data Hrow _ IH]; simpl; constructor; auto.
    clear -Hrow. induction Hrow as [|z row Hz _ IH]; simpl; constructor; auto.
    split; [apply FormatInt_denotes | exact Hz].
  - destruct data; [contradiction|discriminate].
  - rewrite length_map. exact Hr.
  - rewrite Hhd. exact Hc.
  - rewrite Hhd. apply List.Forall_map.
    eapply List.Forall_impl; [|exact Hrect]. intros row Hrow. simpl in Hrow.
    rewrite length_map. exact Hrow.
Qed.

Lemma Validate_inverts_rendering_witness :
  domain.Validate Background
    (Some {| Content := map (map strconv.FormatInt)
                            [[minInt64; -1; 0]; [7; 1000000; maxInt64]] |})
  = Ok {| Data := [[minInt64; -1; 0]; [7; 1000000; maxInt64]] |}.
Proof.
  apply (Validate_inverts_rendering [[minInt64; -1; 0]; [7; 1000000; maxInt64]] 3).
  - discriminate.
  - simpl. lia.
  - lia.
  - repeat constructor.
  - repeat constructor; vm_compute; discriminate.
Defined.

(** X22: blanks before the number are skipped, a line break is not.  A
    field that starts with a tab, vertical tab, form feed, carriage return
    or space scans exactly as the field without that byte does, so a field
    like " 5" is accepted as 5; a field that starts with a line feed fails
    with the unexpected-newline error. *)
Theorem Sscanf_skips_leading_blanks :
  forall (c : ascii) (s : string),
    (In (byte c) [9; 11; 12; 13; 32] ->
     fmt.Sscanf_d (String c s) = fmt.Sscanf_d s /\
     domain.Validate Background (Some {| Content := [[String c s]] |})
     = domain.Validate Background (Some {| Content := [[s]] |})) /\
    (byte c = 10 ->
     fmt.Sscanf_d (String c s) = Err fmt.UnexpectedNewline).
Proof.
  intros c s.
  assert (Hrunes : byte c < 128 -> utf8.runes (String c s) = byte c :: utf8.runes s).
  { intros Hc. unfold utf8.runes. cbn [utf8.runes_from].
    rewrite DecodeRune_ascii by assumption. reflexivity. }
  split.
  - intros Hin.
    assert (Hskip : forall rest, fmt.SkipSpace (byte c :: rest) = fmt.SkipSpace rest).
    { intros rest. simpl in Hin.
      destruct Hin as [H|[H|[H|[H|[H|[]]]]]]; rewrite <- H; cbn [fmt.SkipSpace];
        try reflexivity.
      change (13 =? 13) with true. cbn [andb].
      destruct (fmt.peek [10] rest); reflexivity. }
    assert (Hscan : fmt.Sscanf_d (String c s) = fmt.Sscanf_d s).
    { unfold fmt.Sscanf_d. rewrite Hrunes; [|simpl in Hin; lia]. rewrite Hskip.
      reflexivity. }
    split; [exact Hscan|].
    unfold domain.Validate. cbn [ctx_Err Background Content].
    cbn [length Nat.ltb Nat.leb domain.maxInputMatrixRows domain.maxInputMatrixCols
         domain.check_rows Nat.eqb negb domain.convert_rows domain.convert_row replicate].
    rewrite Hscan. reflexivity.
  - intros H10. unfold fmt.Sscanf_d. rewrite Hrunes by lia. rewrite H10. reflexivity.
Qed.

Lemma Sscanf_skips_leading_blanks_witness :
  fmt.Sscanf_d (String " " "5") = fmt.Sscanf_d "5" /\
  domain.Validate Background (Some {| Content := [[String " " "5"]] |})
  = domain.Validate Background (Some {| Content := [["5"]] |}).
Proof.
  apply (Sscanf_skips_leading_blanks " "%char "5").
  vm_compute. auto 6.
Defined.
